(** * The WebGL fluid background of energy-optimizer-frontend

    A shallow embedding of [FluidBackground] (the [useEffect] body of the
    component): the WebGL state machine it drives, the GLSL programs it
    compiles, its render targets, its solver step and its frame loop.

    Numbers.  A JavaScript [number] that holds a size, a count, a timestamp
    or a hash is a [Z]; every other [number], and every GLSL [float], is a
    real number of [R]: arithmetic is exact, there is no rounding, no
    overflow and no NaN, and a quotient by zero is the real [x / 0].  32-bit
    integer operators ([<<], [|0]) wrap as in the source. *)

From Stdlib Require Import ZArith Reals Lra Lia Ascii String.
From stdpp Require Import base option gmap strings.

Open Scope R_scope.

(** ** Numbers *)

(** [Math.floor] and [Math.round] (round half up, as ECMAScript defines it). *)
Definition Math_floor (x : R) : Z := Int_part x.

Definition Math_round (x : R) : Z := Int_part (x + 0.5).

(** [ToInt32]: the value of [x | 0] for an integral [x]. *)
Definition toInt32 (x : Z) : Z := ((x + 2 ^ 31) mod 2 ^ 32 - 2 ^ 31)%Z.

(** [x << n] on a [number] that holds an integer. *)
Definition shiftLeft (x : Z) (n : Z) : Z := toInt32 (Z.shiftl (toInt32 x) n).

(** [s.charCodeAt(i)], for the characters of [s] in turn. *)
Definition charCode (c : ascii) : Z := Z.of_N (N_of_ascii c).

(** ** GLSL vectors *)

Record vec2 := Vec2 { v2x : R; v2y : R }.
Record vec3 := Vec3 { v3x : R; v3y : R; v3z : R }.
Record vec4 := Vec4 { v4x : R; v4y : R; v4z : R; v4w : R }.

Definition v2add (a b : vec2) : vec2 := Vec2 (v2x a + v2x b) (v2y a + v2y b).
Definition v2sub (a b : vec2) : vec2 := Vec2 (v2x a - v2x b) (v2y a - v2y b).
Definition v2mul (a b : vec2) : vec2 := Vec2 (v2x a * v2x b) (v2y a * v2y b).
Definition v2div (a b : vec2) : vec2 := Vec2 (v2x a / v2x b) (v2y a / v2y b).
Definition v2scale (k : R) (a : vec2) : vec2 := Vec2 (k * v2x a) (k * v2y a).
Definition v2dot (a b : vec2) : R := v2x a * v2x b + v2y a * v2y b.
Definition v2length (a : vec2) : R := sqrt (v2dot a a).

Definition v3add (a b : vec3) : vec3 := Vec3 (v3x a + v3x b) (v3y a + v3y b) (v3z a + v3z b).
Definition v3scale (k : R) (a : vec3) : vec3 := Vec3 (k * v3x a) (k * v3y a) (k * v3z a).
Definition v3dot (a b : vec3) : R := v3x a * v3x b + v3y a * v3y b + v3z a * v3z b.
Definition v3length (a : vec3) : R := sqrt (v3dot a a).
Definition v3normalize (a : vec3) : vec3 := v3scale (/ v3length a) a.

Definition v4add (a b : vec4) : vec4 :=
  Vec4 (v4x a + v4x b) (v4y a + v4y b) (v4z a + v4z b) (v4w a + v4w b).
Definition v4scale (k : R) (a : vec4) : vec4 :=
  Vec4 (k * v4x a) (k * v4y a) (k * v4z a) (k * v4w a).
Definition v4xy (a : vec4) : vec2 := Vec2 (v4x a) (v4y a).
Definition v4rgb (a : vec4) : vec3 := Vec3 (v4x a) (v4y a) (v4z a).

(** GLSL [mix(a, b, t)], [clamp(x, lo, hi)], [floor] and [fract]. *)
Definition mix (a b : vec4) (t : R) : vec4 := v4add (v4scale (1 - t) a) (v4scale t b).
Definition clamp (x lo hi : R) : R := Rmin (Rmax x lo) hi.
Definition floorf (x : R) : R := IZR (Int_part x).
Definition fract (x : R) : R := x - floorf x.

(** ** Textures *)

Inductive Filter := NEAREST | LINEAR.

(** The three half-float formats of [ext], and the canvas' own. *)
Inductive InternalFormat := R16F | RG16F | RGBA16F | RGBA8.

(** A texture image.  [texels t i j] is what a fetch of texel [(i, j)]
    returns, in the four-component form GLSL sees; only
    [0 <= i < tex_width] and [0 <= j < tex_height] are ever fetched.  The
    program sets the minifying and the magnifying filter of a texture to the
    same value and both wrap modes to [CLAMP_TO_EDGE], so a texture carries
    one filter and the edge clamp is built into [texelFetch]. *)
Record TexImage := {
  tex_width : Z;
  tex_height : Z;
  tex_format : InternalFormat;
  tex_filter : Filter;
  texels : Z -> Z -> vec4
}.

(** What a texture of a format keeps of a colour written to it: the missing
    channels read back as [0, 0, 1]; the canvas clamps to [[0, 1]]. *)
Definition storeTexel (f : InternalFormat) (c : vec4) : vec4 :=
  match f with
  | R16F => Vec4 (v4x c) 0 0 1
  | RG16F => Vec4 (v4x c) (v4y c) 0 1
  | RGBA16F => c
  | RGBA8 => Vec4 (clamp (v4x c) 0 1) (clamp (v4y c) 0 1) (clamp (v4z c) 0 1) (clamp (v4w c) 0 1)
  end.

Definition clampIndex (n i : Z) : Z := Z.max 0 (Z.min (n - 1) i).

Definition texelFetch (t : TexImage) (i j : Z) : vec4 :=
  texels t (clampIndex (tex_width t) i) (clampIndex (tex_height t) j).

Definition sampleNearest (t : TexImage) (uv : vec2) : vec4 :=
  texelFetch t (Int_part (v2x uv * IZR (tex_width t))) (Int_part (v2y uv * IZR (tex_height t))).

Definition sampleLinear (t : TexImage) (uv : vec2) : vec4 :=
  let sx := v2x uv * IZR (tex_width t) - 0.5 in
  let sy := v2y uv * IZR (tex_height t) - 0.5 in
  let i := Int_part sx in
  let j := Int_part sy in
  mix (mix (texelFetch t i j) (texelFetch t (i + 1) j) (fract sx))
      (mix (texelFetch t i (j + 1)) (texelFetch t (i + 1) (j + 1)) (fract sx))
      (fract sy).

Definition sampleTexture (t : TexImage) (uv : vec2) : vec4 :=
  match tex_filter t with
  | NEAREST => sampleNearest t uv
  | LINEAR => sampleLinear t uv
  end.

(** An image of a given size whose storage is all zero, as [texImage2D] with
    [null] data leaves it. *)
Definition blankImage (w h : Z) (f : InternalFormat) (flt : Filter) : TexImage :=
  {| tex_width := w; tex_height := h; tex_format := f; tex_filter := flt;
     texels := fun _ _ => storeTexel f (Vec4 0 0 0 0) |}.

(** ** WebGL objects *)

Inductive ShaderType := VERTEX_SHADER | FRAGMENT_SHADER.

(** The GLSL texts of the program, by the name of the constant that holds
    them ([displayShaderSource] is the one text compiled by a [Material]). *)
Inductive ShaderText :=
  | baseVertexShaderText | copyShaderText | clearShaderText | displayShaderSource
  | splatShaderText | advectionShaderText | divergenceShaderText | curlShaderText
  | vorticityShaderText | pressureShaderText | gradientSubtractShaderText.

(** A shader source: the [#define] lines put before the text, and the text. *)
Record Source := { src_defines : list string; src_text : ShaderText }.

Record ShaderObj := {
  sh_type : ShaderType;
  sh_source : option Source;
  sh_compiled : bool
}.

Record ProgramObj := {
  pr_vertex : option nat;
  pr_fragment : option nat;
  pr_linked : bool
}.

(** The value of a uniform, by the call that set it. *)
Inductive UVal :=
  | U1i (i : Z)
  | U1f (a : R)
  | U2f (a b : R)
  | U3f (a b c : R).

(** A [WebGLUniformLocation]: the program and the name of the uniform. *)
Abbreviation UniformLocation := (nat * string)%type.

Inductive BlendFactor := ZERO | ONE | ONE_MINUS_SRC_ALPHA.

(** The state of the rendering context.  Objects are named by the order of
    their creation ([gl_next] is the next name); [gl_framebuffers] gives the
    texture attached to [COLOR_ATTACHMENT0] of a framebuffer object;
    [gl_units] the texture bound to [TEXTURE_2D] of a texture unit; a bound
    framebuffer of [None] is the canvas, whose image is [gl_drawingBuffer]. *)
Record GLState := {
  gl_next : nat;
  gl_textures : gmap nat TexImage;
  gl_framebuffers : gmap nat (option nat);
  gl_shaders : gmap nat ShaderObj;
  gl_programs : gmap nat ProgramObj;
  gl_uniforms : gmap (nat * string) UVal;
  gl_active_unit : nat;
  gl_units : gmap nat nat;
  gl_framebuffer : option nat;
  gl_viewport : Z * Z;
  gl_program : option nat;
  gl_blend : bool;
  gl_blendFunc : BlendFactor * BlendFactor;
  gl_clearColor : vec4;
  gl_drawingBuffer : TexImage
}.

Definition set_gl_next (v : nat) (g : GLState) : GLState :=
  {| gl_next := v; gl_textures := gl_textures g; gl_framebuffers := gl_framebuffers g;
     gl_shaders := gl_shaders g; gl_programs := gl_programs g; gl_uniforms := gl_uniforms g;
     gl_active_unit := gl_active_unit g; gl_units := gl_units g; gl_framebuffer := gl_framebuffer g;
     gl_viewport := gl_viewport g; gl_program := gl_program g; gl_blend := gl_blend g;
     gl_blendFunc := gl_blendFunc g; gl_clearColor := gl_clearColor g; gl_drawingBuffer := gl_drawingBuffer g |}.

Definition set_gl_textures (v : gmap nat TexImage) (g : GLState) : GLState :=
  {| gl_next := gl_next g; gl_textures := v; gl_framebuffers := gl_framebuffers g;
     gl_shaders := gl_shaders g; gl_programs := gl_programs g; gl_uniforms := gl_uniforms g;
     gl_active_unit := gl_active_unit g; gl_units := gl_units g; gl_framebuffer := gl_framebuffer g;
     gl_viewport := gl_viewport g; gl_program := gl_program g; gl_blend := gl_blend g;
     gl_blendFunc := gl_blendFunc g; gl_clearColor := gl_clearColor g; gl_drawingBuffer := gl_drawingBuffer g |}.

Definition set_gl_framebuffers (v : gmap nat (option nat)) (g : GLState) : GLState :=
  {| gl_next := gl_next g; gl_textures := gl_textures g; gl_framebuffers := v;
     gl_shaders := gl_shaders g; gl_programs := gl_programs g; gl_uniforms := gl_uniforms g;
     gl_active_unit := gl_active_unit g; gl_units := gl_units g; gl_framebuffer := gl_framebuffer g;
     gl_viewport := gl_viewport g; gl_program := gl_program g; gl_blend := gl_blend g;
     gl_blendFunc := gl_blendFunc g; gl_clearColor := gl_clearColor g; gl_drawingBuffer := gl_drawingBuffer g |}.

Definition set_gl_shaders (v : gmap nat ShaderObj) (g : GLState) : GLState :=
  {| gl_next := gl_next g; gl_textures := gl_textures g; gl_framebuffers := gl_framebuffers g;
     gl_shaders := v; gl_programs := gl_programs g; gl_uniforms := gl_uniforms g;
     gl_active_unit := gl_active_unit g; gl_units := gl_units g; gl_framebuffer := gl_framebuffer g;
     gl_viewport := gl_viewport g; gl_program := gl_program g; gl_blend := gl_blend g;
     gl_blendFunc := gl_blendFunc g; gl_clearColor := gl_clearColor g; gl_drawingBuffer := gl_drawingBuffer g |}.

Definition set_gl_programs (v : gmap nat ProgramObj) (g : GLState) : GLState :=
  {| gl_next := gl_next g; gl_textures := gl_textures g; gl_framebuffers := gl_framebuffers g;
     gl_shaders := gl_shaders g; gl_programs := v; gl_uniforms := gl_uniforms g;
     gl_active_unit := gl_active_unit g; gl_units := gl_units g; gl_framebuffer := gl_framebuffer g;
     gl_viewport := gl_viewport g; gl_program := gl_program g; gl_blend := gl_blend g;
     gl_blendFunc := gl_blendFunc g; gl_clearColor := gl_clearColor g; gl_drawingBuffer := gl_drawingBuffer g |}.

Definition set_gl_uniforms (v : gmap (nat * string) UVal) (g : GLState) : GLState :=
  {| gl_next := gl_next g; gl_textures := gl_textures g; gl_framebuffers := gl_framebuffers g;
     gl_shaders := gl_shaders g; gl_programs := gl_programs g; gl_uniforms := v;
     gl_active_unit := gl_active_unit g; gl_units := gl_units g; gl_framebuffer := gl_framebuffer g;
     gl_viewport := gl_viewport g; gl_program := gl_program g; gl_blend := gl_blend g;
     gl_blendFunc := gl_blendFunc g; gl_clearColor := gl_clearColor g; gl_drawingBuffer := gl_drawingBuffer g |}.

Definition set_gl_active_unit (v : nat) (g : GLState) : GLState :=
  {| gl_next := gl_next g; gl_textures := gl_textures g; gl_framebuffers := gl_framebuffers g;
     gl_shaders := gl_shaders g; gl_programs := gl_programs g; gl_uniforms := gl_uniforms g;
     gl_active_unit := v; gl_units := gl_units g; gl_framebuffer := gl_framebuffer g;
     gl_viewport := gl_viewport g; gl_program := gl_program g; gl_blend := gl_blend g;
     gl_blendFunc := gl_blendFunc g; gl_clearColor := gl_clearColor g; gl_drawingBuffer := gl_drawingBuffer g |}.

Definition set_gl_units (v : gmap nat nat) (g : GLState) : GLState :=
  {| gl_next := gl_next g; gl_textures := gl_textures g; gl_framebuffers := gl_framebuffers g;
     gl_shaders := gl_shaders g; gl_programs := gl_programs g; gl_uniforms := gl_uniforms g;
     gl_active_unit := gl_active_unit g; gl_units := v; gl_framebuffer := gl_framebuffer g;
     gl_viewport := gl_viewport g; gl_program := gl_program g; gl_blend := gl_blend g;
     gl_blendFunc := gl_blendFunc g; gl_clearColor := gl_clearColor g; gl_drawingBuffer := gl_drawingBuffer g |}.

Definition set_gl_framebuffer (v : option nat) (g : GLState) : GLState :=
  {| gl_next := gl_next g; gl_textures := gl_textures g; gl_framebuffers := gl_framebuffers g;
     gl_shaders := gl_shaders g; gl_programs := gl_programs g; gl_uniforms := gl_uniforms g;
     gl_active_unit := gl_active_unit g; gl_units := gl_units g; gl_framebuffer := v;
     gl_viewport := gl_viewport g; gl_program := gl_program g; gl_blend := gl_blend g;
     gl_blendFunc := gl_blendFunc g; gl_clearColor := gl_clearColor g; gl_drawingBuffer := gl_drawingBuffer g |}.

Definition set_gl_viewport (v : Z * Z) (g : GLState) : GLState :=
  {| gl_next := gl_next g; gl_textures := gl_textures g; gl_framebuffers := gl_framebuffers g;
     gl_shaders := gl_shaders g; gl_programs := gl_programs g; gl_uniforms := gl_uniforms g;
     gl_active_unit := gl_active_unit g; gl_units := gl_units g; gl_framebuffer := gl_framebuffer g;
     gl_viewport := v; gl_program := gl_program g; gl_blend := gl_blend g;
     gl_blendFunc := gl_blendFunc g; gl_clearColor := gl_clearColor g; gl_drawingBuffer := gl_drawingBuffer g |}.

Definition set_gl_program (v : option nat) (g : GLState) : GLState :=
  {| gl_next := gl_next g; gl_textures := gl_textures g; gl_framebuffers := gl_framebuffers g;
     gl_shaders := gl_shaders g; gl_programs := gl_programs g; gl_uniforms := gl_uniforms g;
     gl_active_unit := gl_active_unit g; gl_units := gl_units g; gl_framebuffer := gl_framebuffer g;
     gl_viewport := gl_viewport g; gl_program := v; gl_blend := gl_blend g;
     gl_blendFunc := gl_blendFunc g; gl_clearColor := gl_clearColor g; gl_drawingBuffer := gl_drawingBuffer g |}.

Definition set_gl_blend (v : bool) (g : GLState) : GLState :=
  {| gl_next := gl_next g; gl_textures := gl_textures g; gl_framebuffers := gl_framebuffers g;
     gl_shaders := gl_shaders g; gl_programs := gl_programs g; gl_uniforms := gl_uniforms g;
     gl_active_unit := gl_active_unit g; gl_units := gl_units g; gl_framebuffer := gl_framebuffer g;
     gl_viewport := gl_viewport g; gl_program := gl_program g; gl_blend := v;
     gl_blendFunc := gl_blendFunc g; gl_clearColor := gl_clearColor g; gl_drawingBuffer := gl_drawingBuffer g |}.

Definition set_gl_blendFunc (v : BlendFactor * BlendFactor) (g : GLState) : GLState :=
  {| gl_next := gl_next g; gl_textures := gl_textures g; gl_framebuffers := gl_framebuffers g;
     gl_shaders := gl_shaders g; gl_programs := gl_programs g; gl_uniforms := gl_uniforms g;
     gl_active_unit := gl_active_unit g; gl_units := gl_units g; gl_framebuffer := gl_framebuffer g;
     gl_viewport := gl_viewport g; gl_program := gl_program g; gl_blend := gl_blend g;
     gl_blendFunc := v; gl_clearColor := gl_clearColor g; gl_drawingBuffer := gl_drawingBuffer g |}.

Definition set_gl_clearColor (v : vec4) (g : GLState) : GLState :=
  {| gl_next := gl_next g; gl_textures := gl_textures g; gl_framebuffers := gl_framebuffers g;
     gl_shaders := gl_shaders g; gl_programs := gl_programs g; gl_uniforms := gl_uniforms g;
     gl_active_unit := gl_active_unit g; gl_units := gl_units g; gl_framebuffer := gl_framebuffer g;
     gl_viewport := gl_viewport g; gl_program := gl_program g; gl_blend := gl_blend g;
     gl_blendFunc := gl_blendFunc g; gl_clearColor := v; gl_drawingBuffer := gl_drawingBuffer g |}.

Definition set_gl_drawingBuffer (v : TexImage) (g : GLState) : GLState :=
  {| gl_next := gl_next g; gl_textures := gl_textures g; gl_framebuffers := gl_framebuffers g;
     gl_shaders := gl_shaders g; gl_programs := gl_programs g; gl_uniforms := gl_uniforms g;
     gl_active_unit := gl_active_unit g; gl_units := gl_units g; gl_framebuffer := gl_framebuffer g;
     gl_viewport := gl_viewport g; gl_program := gl_program g; gl_blend := gl_blend g;
     gl_blendFunc := gl_blendFunc g; gl_clearColor := gl_clearColor g; gl_drawingBuffer := v |}.

(** A fresh context over a canvas of the given drawing-buffer size. *)
Definition newContext (w h : Z) : GLState :=
  {| gl_next := 0; gl_textures := ∅; gl_framebuffers := ∅; gl_shaders := ∅;
     gl_programs := ∅; gl_uniforms := ∅; gl_active_unit := 0; gl_units := ∅;
     gl_framebuffer := None; gl_viewport := (w, h); gl_program := None;
     gl_blend := false; gl_blendFunc := (ONE, ZERO); gl_clearColor := Vec4 0 0 0 0;
     gl_drawingBuffer := blankImage w h RGBA8 NEAREST |}.

Definition drawingBufferWidth (g : GLState) : Z := tex_width (gl_drawingBuffer g).
Definition drawingBufferHeight (g : GLState) : Z := tex_height (gl_drawingBuffer g).

(** ** The GLSL programs *)

(** What a shader invocation sees: the uniforms of the program in use, the
    image bound to each texture unit, and the [#define]s of its source. *)
Record ShaderEnv := {
  env_uniform : string -> option UVal;
  env_unit : nat -> option TexImage;
  env_defines : list string
}.

Definition uniformFloat (e : ShaderEnv) (n : string) : R :=
  match env_uniform e n with Some (U1f a) => a | _ => 0 end.

Definition uniformVec2 (e : ShaderEnv) (n : string) : vec2 :=
  match env_uniform e n with Some (U2f a b) => Vec2 a b | _ => Vec2 0 0 end.

Definition uniformVec3 (e : ShaderEnv) (n : string) : vec3 :=
  match env_uniform e n with Some (U3f a b c) => Vec3 a b c | _ => Vec3 0 0 0 end.

Definition uniformSampler (e : ShaderEnv) (n : string) : nat :=
  match env_uniform e n with Some (U1i i) => Z.to_nat i | _ => 0%nat end.

(** [texture2D(sampler, uv)]; a unit with no texture samples as opaque black. *)
Definition texture2D (e : ShaderEnv) (sampler : string) (uv : vec2) : vec4 :=
  match env_unit e (uniformSampler e sampler) with
  | Some t => sampleTexture t uv
  | None => Vec4 0 0 0 1
  end.

(** [#ifdef K] *)
Definition ifdef (e : ShaderEnv) (k : string) : bool := bool_decide (k ∈ env_defines e).

Record Varyings := { vUv : vec2; vL : vec2; vR : vec2; vT : vec2; vB : vec2 }.

(** [baseVertexShader], at the point of the quad where [aPosition * 0.5 + 0.5]
    is [uv] (the varyings are affine in [aPosition], so this is also their
    interpolated value at a fragment). *)
Definition baseVertexShader (e : ShaderEnv) (uv : vec2) : Varyings :=
  let texelSize := uniformVec2 e "texelSize" in
  {| vUv := uv;
     vL := v2sub uv (Vec2 (v2x texelSize) 0);
     vR := v2add uv (Vec2 (v2x texelSize) 0);
     vT := v2add uv (Vec2 0 (v2y texelSize));
     vB := v2sub uv (Vec2 0 (v2y texelSize)) |}.

Definition copyShader (e : ShaderEnv) (v : Varyings) : vec4 :=
  texture2D e "uTexture" (vUv v).

Definition clearShader (e : ShaderEnv) (v : Varyings) : vec4 :=
  v4scale (uniformFloat e "value") (texture2D e "uTexture" (vUv v)).

Definition displayShader (e : ShaderEnv) (v : Varyings) : vec4 :=
  let c := v4rgb (texture2D e "uTexture" (vUv v)) in
  let c :=
    if ifdef e "SHADING" then
      let lc := v4rgb (texture2D e "uTexture" (vL v)) in
      let rc := v4rgb (texture2D e "uTexture" (vR v)) in
      let tc := v4rgb (texture2D e "uTexture" (vT v)) in
      let bc := v4rgb (texture2D e "uTexture" (vB v)) in
      let dx := v3length rc - v3length lc in
      let dy := v3length tc - v3length bc in
      let n := v3normalize (Vec3 dx dy (v2length (uniformVec2 e "texelSize"))) in
      let l := Vec3 0 0 1 in
      let diffuse := clamp (v3dot n l + 0.7) 0.7 1 in
      v3scale diffuse c
    else c in
  let a := Rmax (v3x c) (Rmax (v3y c) (v3z c)) in
  Vec4 (v3x c) (v3y c) (v3z c) a.

Definition splatShader (e : ShaderEnv) (v : Varyings) : vec4 :=
  let point := uniformVec2 e "point" in
  let p := v2sub (vUv v) point in
  let p := Vec2 (v2x p * uniformFloat e "aspectRatio") (v2y p) in
  let splat := v3scale (exp (- v2dot p p / uniformFloat e "radius")) (uniformVec3 e "color") in
  let base := v4rgb (texture2D e "uTarget" (vUv v)) in
  let sum := v3add base splat in
  Vec4 (v3x sum) (v3y sum) (v3z sum) 1.

(** [bilerp] of the advection shader. *)
Definition bilerp (e : ShaderEnv) (sam : string) (uv tsize : vec2) : vec4 :=
  let st := v2sub (v2div uv tsize) (Vec2 0.5 0.5) in
  let iuv := Vec2 (floorf (v2x st)) (floorf (v2y st)) in
  let fuv := Vec2 (fract (v2x st)) (fract (v2y st)) in
  let a := texture2D e sam (v2mul (v2add iuv (Vec2 0.5 0.5)) tsize) in
  let b := texture2D e sam (v2mul (v2add iuv (Vec2 1.5 0.5)) tsize) in
  let c := texture2D e sam (v2mul (v2add iuv (Vec2 0.5 1.5)) tsize) in
  let d := texture2D e sam (v2mul (v2add iuv (Vec2 1.5 1.5)) tsize) in
  mix (mix a b (v2x fuv)) (mix c d (v2x fuv)) (v2y fuv).

Definition advectionShader (e : ShaderEnv) (v : Varyings) : vec4 :=
  let texelSize := uniformVec2 e "texelSize" in
  let dt := uniformFloat e "dt" in
  let result :=
    if ifdef e "MANUAL_FILTERING" then
      let coord :=
        v2sub (vUv v) (v2mul (v2scale dt (v4xy (bilerp e "uVelocity" (vUv v) texelSize))) texelSize) in
      bilerp e "uSource" coord (uniformVec2 e "dyeTexelSize")
    else
      let coord :=
        v2sub (vUv v) (v2mul (v2scale dt (v4xy (texture2D e "uVelocity" (vUv v)))) texelSize) in
      texture2D e "uSource" coord in
  let decay := 1 + uniformFloat e "dissipation" * dt in
  v4scale (/ decay) result.

Definition divergenceShader (e : ShaderEnv) (v : Varyings) : vec4 :=
  let L := v4x (texture2D e "uVelocity" (vL v)) in
  let R := v4x (texture2D e "uVelocity" (vR v)) in
  let T := v4y (texture2D e "uVelocity" (vT v)) in
  let B := v4y (texture2D e "uVelocity" (vB v)) in
  let C := v4xy (texture2D e "uVelocity" (vUv v)) in
  let L := if Rlt_dec (v2x (vL v)) 0 then - v2x C else L in
  let R := if Rgt_dec (v2x (vR v)) 1 then - v2x C else R in
  let T := if Rgt_dec (v2y (vT v)) 1 then - v2y C else T in
  let B := if Rlt_dec (v2y (vB v)) 0 then - v2y C else B in
  let div := 0.5 * (R - L + T - B) in
  Vec4 div 0 0 1.

Definition curlShader (e : ShaderEnv) (v : Varyings) : vec4 :=
  let L := v4y (texture2D e "uVelocity" (vL v)) in
  let R := v4y (texture2D e "uVelocity" (vR v)) in
  let T := v4x (texture2D e "uVelocity" (vT v)) in
  let B := v4x (texture2D e "uVelocity" (vB v)) in
  let vorticity := R - L - T + B in
  Vec4 (0.5 * vorticity) 0 0 1.

(** The first value of [force] in the vorticity shader: half the central
    differences of [|curl|]. *)
Definition curlGradient (e : ShaderEnv) (v : Varyings) : vec2 :=
  let L := v4x (texture2D e "uCurl" (vL v)) in
  let R := v4x (texture2D e "uCurl" (vR v)) in
  let T := v4x (texture2D e "uCurl" (vT v)) in
  let B := v4x (texture2D e "uCurl" (vB v)) in
  v2scale 0.5 (Vec2 (Rabs T - Rabs B) (Rabs R - Rabs L)).

(** Its last value: divided by its length plus [0.0001], scaled by
    [curl * C], its second component negated. *)
Definition vorticityForce (e : ShaderEnv) (v : Varyings) : vec2 :=
  let C := v4x (texture2D e "uCurl" (vUv v)) in
  let force := curlGradient e v in
  let force := v2scale (/ (v2length force + 0.0001)) force in
  let force := v2scale (uniformFloat e "curl" * C) force in
  Vec2 (v2x force) (v2y force * -1).

Definition vorticityShader (e : ShaderEnv) (v : Varyings) : vec4 :=
  let force := vorticityForce e v in
  let velocity := v4xy (texture2D e "uVelocity" (vUv v)) in
  let velocity := v2add velocity (v2scale (uniformFloat e "dt") force) in
  let velocity :=
    Vec2 (Rmin (Rmax (v2x velocity) (-1000)) 1000) (Rmin (Rmax (v2y velocity) (-1000)) 1000) in
  Vec4 (v2x velocity) (v2y velocity) 0 1.

Definition pressureShader (e : ShaderEnv) (v : Varyings) : vec4 :=
  let L := v4x (texture2D e "uPressure" (vL v)) in
  let R := v4x (texture2D e "uPressure" (vR v)) in
  let T := v4x (texture2D e "uPressure" (vT v)) in
  let B := v4x (texture2D e "uPressure" (vB v)) in
  let divergence := v4x (texture2D e "uDivergence" (vUv v)) in
  let pressure := (L + R + B + T - divergence) * 0.25 in
  Vec4 pressure 0 0 1.

Definition gradientSubtractShader (e : ShaderEnv) (v : Varyings) : vec4 :=
  let L := v4x (texture2D e "uPressure" (vL v)) in
  let R := v4x (texture2D e "uPressure" (vR v)) in
  let T := v4x (texture2D e "uPressure" (vT v)) in
  let B := v4x (texture2D e "uPressure" (vB v)) in
  let velocity := v4xy (texture2D e "uVelocity" (vUv v)) in
  let velocity := v2sub velocity (Vec2 (R - L) (T - B)) in
  Vec4 (v2x velocity) (v2y velocity) 0 1.

(** [main] of a fragment shader text.  The vertex text has no fragment
    [main]; a program is linked only with a fragment text (see
    [gl.linkProgram]), so its case is never run. *)
Definition fragmentMain (t : ShaderText) : ShaderEnv -> Varyings -> vec4 :=
  match t with
  | baseVertexShaderText => fun _ _ => Vec4 0 0 0 0
  | copyShaderText => copyShader
  | clearShaderText => clearShader
  | displayShaderSource => displayShader
  | splatShaderText => splatShader
  | advectionShaderText => advectionShader
  | divergenceShaderText => divergenceShader
  | curlShaderText => curlShader
  | vorticityShaderText => vorticityShader
  | pressureShaderText => pressureShader
  | gradientSubtractShaderText => gradientSubtractShader
  end.

(** The uniforms a shader text declares and uses, given its [#define]s: the
    active uniforms the linker reports for it. *)
Definition usedUniforms (s : Source) : list string :=
  match src_text s with
  | baseVertexShaderText => ["texelSize"]
  | copyShaderText => ["uTexture"]
  | clearShaderText => ["uTexture"; "value"]
  | displayShaderSource =>
      if bool_decide ("SHADING" ∈ src_defines s) then ["uTexture"; "texelSize"] else ["uTexture"]
  | splatShaderText => ["uTarget"; "aspectRatio"; "color"; "point"; "radius"]
  | advectionShaderText =>
      if bool_decide ("MANUAL_FILTERING" ∈ src_defines s)
      then ["uVelocity"; "uSource"; "texelSize"; "dyeTexelSize"; "dt"; "dissipation"]
      else ["uVelocity"; "uSource"; "texelSize"; "dt"; "dissipation"]
  | divergenceShaderText => ["uVelocity"]
  | curlShaderText => ["uVelocity"]
  | vorticityShaderText => ["uVelocity"; "uCurl"; "curl"; "dt"]
  | pressureShaderText => ["uPressure"; "uDivergence"]
  | gradientSubtractShaderText => ["uPressure"; "uVelocity"]
  end.

(** Whether a source compiles as a shader of a type: each text is legal GLSL
    for the stage it was written for, under any [#define]s. *)
Definition compiles (ty : ShaderType) (s : Source) : bool :=
  match ty, src_text s with
  | VERTEX_SHADER, baseVertexShaderText => true
  | VERTEX_SHADER, _ => false
  | FRAGMENT_SHADER, baseVertexShaderText => false
  | FRAGMENT_SHADER, _ => true
  end.

(** ** The calls of the WebGL API *)

Inductive TexPName := TEXTURE_MIN_FILTER | TEXTURE_MAG_FILTER | TEXTURE_WRAP_S | TEXTURE_WRAP_T.
Inductive TexParam := FilterParam (f : Filter) | CLAMP_TO_EDGE.
Inductive Capability := BLEND.

(** The source of the fragment shader of a program, when the program is
    linked; the same of its vertex shader. *)
Definition fragmentSourceOf (s : GLState) (p : nat) : option Source :=
  po ← gl_programs s !! p;
  if pr_linked po then
    fs ← pr_fragment po; sh ← gl_shaders s !! fs; sh_source sh
  else None.

Definition vertexSourceOf (s : GLState) (p : nat) : option Source :=
  po ← gl_programs s !! p;
  if pr_linked po then
    vs ← pr_vertex po; sh ← gl_shaders s !! vs; sh_source sh
  else None.

Definition shaderEnv (s : GLState) (p : nat) (defines : list string) : ShaderEnv :=
  {| env_uniform := fun n => gl_uniforms s !! (p, n);
     env_unit := fun u => t ← gl_units s !! u; gl_textures s !! t;
     env_defines := defines |}.

(** The colour the program in use computes for the fragment at pixel
    [(i, j)] of the viewport. *)
Definition fragmentColor (s : GLState) (p : nat) (src : Source) (i j : Z) : vec4 :=
  let e := shaderEnv s p (src_defines src) in
  let uv := Vec2 ((IZR i + 0.5) / IZR (gl_viewport s).1) ((IZR j + 0.5) / IZR (gl_viewport s).2) in
  fragmentMain (src_text src) e (baseVertexShader e uv).

Definition blendFactor (f : BlendFactor) (src : vec4) : R :=
  match f with
  | ZERO => 0
  | ONE => 1
  | ONE_MINUS_SRC_ALPHA => 1 - v4w src
  end.

Definition blendColor (s : GLState) (src dst : vec4) : vec4 :=
  if gl_blend s
  then v4add (v4scale (blendFactor (gl_blendFunc s).1 src) src)
             (v4scale (blendFactor (gl_blendFunc s).2 src) dst)
  else src.

Definition inViewport (s : GLState) (img : TexImage) (i j : Z) : bool :=
  (0 <=? i)%Z && (i <? Z.min (gl_viewport s).1 (tex_width img))%Z &&
  (0 <=? j)%Z && (j <? Z.min (gl_viewport s).2 (tex_height img))%Z.

(** The image a draw of the full-screen quad leaves in its target. *)
Definition drawImage (s : GLState) (img : TexImage) : TexImage :=
  match gl_program s with
  | Some p =>
      match fragmentSourceOf s p with
      | Some src =>
          {| tex_width := tex_width img; tex_height := tex_height img;
             tex_format := tex_format img; tex_filter := tex_filter img;
             texels := fun i j =>
               if inViewport s img i j
               then storeTexel (tex_format img)
                      (blendColor s (fragmentColor s p src i j) (texels img i j))
               else texels img i j |}
      | None => img
      end
  | None => img
  end.

Definition clearImage (s : GLState) (img : TexImage) : TexImage :=
  {| tex_width := tex_width img; tex_height := tex_height img;
     tex_format := tex_format img; tex_filter := tex_filter img;
     texels := fun _ _ => storeTexel (tex_format img) (gl_clearColor s) |}.

(** Apply [f] to the image of the bound framebuffer. *)
Definition updateTarget (f : TexImage -> TexImage) (s : GLState) : GLState :=
  set_gl_drawingBuffer
    (match gl_framebuffer s with
     | None => f (gl_drawingBuffer s)
     | Some _ => gl_drawingBuffer s
     end)
    (set_gl_textures
       (match gl_framebuffer s with
        | Some fb =>
            match gl_framebuffers s !! fb with
            | Some (Some t) => alter f t (gl_textures s)
            | _ => gl_textures s
            end
        | None => gl_textures s
        end) s).

(** Apply [f] to the texture bound to [TEXTURE_2D] of the active unit. *)
Definition updateBoundTexture (f : TexImage -> TexImage) (s : GLState) : GLState :=
  set_gl_textures
    (match gl_units s !! gl_active_unit s with
     | Some t => alter f t (gl_textures s)
     | None => gl_textures s
     end) s.

Definition setUniform (loc : option UniformLocation) (v : UVal) (s : GLState) : GLState :=
  set_gl_uniforms
    (match loc with
     | Some l => if bool_decide (gl_program s = Some l.1) then <[l := v]> (gl_uniforms s)
                 else gl_uniforms s
     | None => gl_uniforms s
     end) s.

Module gl.

Definition clearColor (r g b a : R) (s : GLState) : GLState :=
  set_gl_clearColor (Vec4 r g b a) s.

Definition createShader (ty : ShaderType) (s : GLState) : nat * GLState :=
  (gl_next s,
   set_gl_next (S (gl_next s))
     (set_gl_shaders
        (<[gl_next s := {| sh_type := ty; sh_source := None; sh_compiled := false |}]>
           (gl_shaders s)) s)).

Definition shaderSource (shader : nat) (src : Source) (s : GLState) : GLState :=
  set_gl_shaders
    (alter (fun o => {| sh_type := sh_type o; sh_source := Some src; sh_compiled := false |})
       shader (gl_shaders s)) s.

Definition compileShader (shader : nat) (s : GLState) : GLState :=
  set_gl_shaders
    (alter (fun o => {| sh_type := sh_type o; sh_source := sh_source o;
                        sh_compiled := from_option (compiles (sh_type o)) false (sh_source o) |})
       shader (gl_shaders s)) s.

Definition createProgram (s : GLState) : nat * GLState :=
  (gl_next s,
   set_gl_next (S (gl_next s))
     (set_gl_programs
        (<[gl_next s := {| pr_vertex := None; pr_fragment := None; pr_linked := false |}]>
           (gl_programs s)) s)).

Definition attachShader (program shader : nat) (s : GLState) : GLState :=
  set_gl_programs
    (match gl_shaders s !! shader with
     | Some sh =>
         alter (fun po =>
                  match sh_type sh with
                  | VERTEX_SHADER =>
                      {| pr_vertex := Some shader; pr_fragment := pr_fragment po;
                         pr_linked := pr_linked po |}
                  | FRAGMENT_SHADER =>
                      {| pr_vertex := pr_vertex po; pr_fragment := Some shader;
                         pr_linked := pr_linked po |}
                  end) program (gl_programs s)
     | None => gl_programs s
     end) s.

Definition shaderCompiled (s : GLState) (shader : option nat) : bool :=
  match shader ≫= (gl_shaders s !!.) with
  | Some sh => sh_compiled sh
  | None => false
  end.

Definition linkProgram (program : nat) (s : GLState) : GLState :=
  set_gl_programs
    (alter (fun po =>
              {| pr_vertex := pr_vertex po; pr_fragment := pr_fragment po;
                 pr_linked := shaderCompiled s (pr_vertex po) && shaderCompiled s (pr_fragment po) |})
       program (gl_programs s)) s.

Definition useProgram (program : option nat) (s : GLState) : GLState :=
  set_gl_program program s.

(** The names [getActiveUniform] reports, index by index. *)
Definition activeUniforms (s : GLState) (program : nat) : list string :=
  match vertexSourceOf s program, fragmentSourceOf s program with
  | Some vs, Some fs => usedUniforms vs ++ filter (fun n => n ∉ usedUniforms vs) (usedUniforms fs)
  | _, _ => []
  end.

Definition getUniformLocation (s : GLState) (program : nat) (name : string)
  : option UniformLocation :=
  if bool_decide (name ∈ activeUniforms s program) then Some (program, name) else None.

Definition uniform1i (loc : option UniformLocation) (i : Z) : GLState -> GLState :=
  setUniform loc (U1i i).
Definition uniform1f (loc : option UniformLocation) (a : R) : GLState -> GLState :=
  setUniform loc (U1f a).
Definition uniform2f (loc : option UniformLocation) (a b : R) : GLState -> GLState :=
  setUniform loc (U2f a b).
Definition uniform3f (loc : option UniformLocation) (a b c : R) : GLState -> GLState :=
  setUniform loc (U3f a b c).

Definition createTexture (s : GLState) : nat * GLState :=
  (gl_next s,
   set_gl_next (S (gl_next s))
     (set_gl_textures (<[gl_next s := blankImage 0 0 RGBA8 LINEAR]> (gl_textures s)) s)).

Definition activeTexture (unit : nat) (s : GLState) : GLState := set_gl_active_unit unit s.

Definition bindTexture (t : nat) (s : GLState) : GLState :=
  set_gl_units (<[gl_active_unit s := t]> (gl_units s)) s.

Definition texParameteri (pname : TexPName) (param : TexParam) (s : GLState) : GLState :=
  match pname, param with
  | (TEXTURE_MIN_FILTER | TEXTURE_MAG_FILTER), FilterParam f =>
      updateBoundTexture
        (fun t => {| tex_width := tex_width t; tex_height := tex_height t;
                     tex_format := tex_format t; tex_filter := f; texels := texels t |}) s
  | _, _ => s
  end.

Definition texImage2D (internalFormat : InternalFormat) (w h : Z) (s : GLState) : GLState :=
  updateBoundTexture (fun t => blankImage w h internalFormat (tex_filter t)) s.

Definition createFramebuffer (s : GLState) : nat * GLState :=
  (gl_next s,
   set_gl_next (S (gl_next s)) (set_gl_framebuffers (<[gl_next s := None]> (gl_framebuffers s)) s)).

Definition bindFramebuffer (fb : option nat) (s : GLState) : GLState := set_gl_framebuffer fb s.

Definition framebufferTexture2D (t : nat) (s : GLState) : GLState :=
  set_gl_framebuffers
    (match gl_framebuffer s with
     | Some fb => alter (fun _ => Some t) fb (gl_framebuffers s)
     | None => gl_framebuffers s
     end) s.

Definition viewport (w h : Z) (s : GLState) : GLState := set_gl_viewport (w, h) s.

Definition clear (s : GLState) : GLState := updateTarget (clearImage s) s.

Definition enable (c : Capability) (s : GLState) : GLState := set_gl_blend true s.
Definition disable (c : Capability) (s : GLState) : GLState := set_gl_blend false s.

Definition blendFunc (sfactor dfactor : BlendFactor) (s : GLState) : GLState :=
  set_gl_blendFunc (sfactor, dfactor) s.

(** [drawElements(TRIANGLES, 6, UNSIGNED_SHORT, 0)] over the two triangles
    [blit] uploads once: the quad that covers the whole viewport. *)
Definition drawElements (s : GLState) : GLState := updateTarget (drawImage s) s.

End gl.

(** ** The objects of the script *)

Module RGB.
Record t := mk { r : R; g : R; b : R }.
End RGB.

(** [interface FBO]; [attach] is the function [FBO_attach] below. *)
Module FBO.
Record t := mk {
  texture : nat;
  fbo : nat;
  width : Z;
  height : Z;
  texelSizeX : R;
  texelSizeY : R
}.
End FBO.

(** [interface DoubleFBO].  [fbo1] and [fbo2] are the two variables the
    accessors [read] and [write] and the method [swap] close over. *)
Module DoubleFBO.
Record t := mk {
  width : Z;
  height : Z;
  texelSizeX : R;
  texelSizeY : R;
  fbo1 : FBO.t;
  fbo2 : FBO.t
}.

Definition read (d : t) : FBO.t := fbo1 d.
Definition write (d : t) : FBO.t := fbo2 d.

Definition set_width (value : Z) (d : t) : t :=
  mk value (height d) (texelSizeX d) (texelSizeY d) (fbo1 d) (fbo2 d).
Definition set_height (value : Z) (d : t) : t :=
  mk (width d) value (texelSizeX d) (texelSizeY d) (fbo1 d) (fbo2 d).
Definition set_texelSizeX (value : R) (d : t) : t :=
  mk (width d) (height d) value (texelSizeY d) (fbo1 d) (fbo2 d).
Definition set_texelSizeY (value : R) (d : t) : t :=
  mk (width d) (height d) (texelSizeX d) value (fbo1 d) (fbo2 d).
Definition set_read (value : FBO.t) (d : t) : t :=
  mk (width d) (height d) (texelSizeX d) (texelSizeY d) value (fbo2 d).
Definition set_write (value : FBO.t) (d : t) : t :=
  mk (width d) (height d) (texelSizeX d) (texelSizeY d) (fbo1 d) value.

(** [swap() { let temp = fbo1; fbo1 = fbo2; fbo2 = temp; }] *)
Definition swap (d : t) : t :=
  let temp := fbo1 d in
  mk (width d) (height d) (texelSizeX d) (texelSizeY d) (fbo2 d) temp.
End DoubleFBO.

(** The [DoubleFBO] objects of the script, by reference: a [DoubleFBO] is
    mutated in place ([swap], [resizeDoubleFBO]) and handed around by
    reference, so the objects live in a heap and a variable holds an address. *)
Record Heap := {
  heap_next : nat;
  heap_cells : gmap nat DoubleFBO.t
}.

Definition heap_alloc (d : DoubleFBO.t) (hp : Heap) : nat * Heap :=
  (heap_next hp,
   {| heap_next := S (heap_next hp); heap_cells := <[heap_next hp := d]> (heap_cells hp) |}).

Definition heap_update (f : DoubleFBO.t -> DoubleFBO.t) (ref : nat) (hp : Heap) : Heap :=
  {| heap_next := heap_next hp; heap_cells := alter f ref (heap_cells hp) |}.

(** [class Program] *)
Module GLProgram.
Record t := mk {
  program : nat;
  uniforms : gmap string UniformLocation
}.
End GLProgram.

(** [class Material] *)
Module Material.
Record t := mk {
  vertexShader : nat;
  fragmentShaderSource : Source;
  programs : gmap Z nat;
  activeProgram : option nat;
  uniforms : gmap string UniformLocation
}.
End Material.

(** [CONFIG] *)
Record Config := {
  SIM_RESOLUTION : Z;
  DYE_RESOLUTION : Z;
  DENSITY_DISSIPATION : R;
  VELOCITY_DISSIPATION : R;
  PRESSURE : R;
  PRESSURE_ITERATIONS : Z;
  CURL : R;
  SPLAT_RADIUS : R;
  SPLAT_FORCE : R;
  SHADING : bool;
  COLOR_UPDATE_SPEED : R;
  BACK_COLOR : RGB.t;
  TRANSPARENT : bool
}.

Definition CONFIG : Config :=
  {| SIM_RESOLUTION := 128;
     DYE_RESOLUTION := 1440;
     DENSITY_DISSIPATION := 0.99;
     VELOCITY_DISSIPATION := 0.99;
     PRESSURE := 0.1;
     PRESSURE_ITERATIONS := 20;
     CURL := 5;
     SPLAT_RADIUS := 1.5;
     SPLAT_FORCE := 200;
     SHADING := true;
     COLOR_UPDATE_SPEED := 0.1;
     BACK_COLOR := RGB.mk 0.058 0.09 0.164;
     TRANSPARENT := true |}.

(** [if (!ext.supportLinearFiltering) { config.DYE_RESOLUTION = 256;
    config.SHADING = false; }] applied to [{ ...CONFIG }]. *)
Definition resolveConfig (supportLinearFiltering : bool) : Config :=
  let config := CONFIG in
  if negb supportLinearFiltering then
    {| SIM_RESOLUTION := SIM_RESOLUTION config;
       DYE_RESOLUTION := 256;
       DENSITY_DISSIPATION := DENSITY_DISSIPATION config;
       VELOCITY_DISSIPATION := VELOCITY_DISSIPATION config;
       PRESSURE := PRESSURE config;
       PRESSURE_ITERATIONS := PRESSURE_ITERATIONS config;
       CURL := CURL config;
       SPLAT_RADIUS := SPLAT_RADIUS config;
       SPLAT_FORCE := SPLAT_FORCE config;
       SHADING := false;
       COLOR_UPDATE_SPEED := COLOR_UPDATE_SPEED config;
       BACK_COLOR := BACK_COLOR config;
       TRANSPARENT := TRANSPARENT config |}
  else config.

(** The shader programs the script builds once. *)
Record Programs := {
  copyProgram : GLProgram.t;
  clearProgram : GLProgram.t;
  splatProgram : GLProgram.t;
  advectionProgram : GLProgram.t;
  divergenceProgram : GLProgram.t;
  curlProgram : GLProgram.t;
  vorticityProgram : GLProgram.t;
  pressureProgram : GLProgram.t;
  gradienSubtractProgram : GLProgram.t
}.

(** [let dye, velocity, divergence, curl, pressure]: undefined until
    [initFramebuffers] has run. *)
Record Fields := {
  dye : option nat;
  velocity : option nat;
  divergence : option FBO.t;
  curl : option FBO.t;
  pressure : option nat
}.

(** Everything the closures of the effect share. *)
Record State := {
  gl_ : GLState;
  heap : Heap;
  config : Config;
  supportLinearFiltering : bool;
  programs : Programs;
  displayMaterial : Material.t;
  fields : Fields;
  colorTimer : R;
  timeAccumulator : R;
  lastUpdateTime : Z;
  canvas_width : Z;
  canvas_height : Z;
  loading : bool
}.

Definition set_dye (v : option nat) (fs : Fields) : Fields :=
  {| dye := v; velocity := velocity fs; divergence := divergence fs;
     curl := curl fs; pressure := pressure fs |}.

Definition set_velocity (v : option nat) (fs : Fields) : Fields :=
  {| dye := dye fs; velocity := v; divergence := divergence fs;
     curl := curl fs; pressure := pressure fs |}.

Definition set_divergence (v : option FBO.t) (fs : Fields) : Fields :=
  {| dye := dye fs; velocity := velocity fs; divergence := v;
     curl := curl fs; pressure := pressure fs |}.

Definition set_curl (v : option FBO.t) (fs : Fields) : Fields :=
  {| dye := dye fs; velocity := velocity fs; divergence := divergence fs;
     curl := v; pressure := pressure fs |}.

Definition set_pressure (v : option nat) (fs : Fields) : Fields :=
  {| dye := dye fs; velocity := velocity fs; divergence := divergence fs;
     curl := curl fs; pressure := v |}.

Definition set_gl (v : GLState) (s : State) : State :=
  {| gl_ := v; heap := heap s; config := config s;
     supportLinearFiltering := supportLinearFiltering s; programs := programs s; displayMaterial := displayMaterial s;
     fields := fields s; colorTimer := colorTimer s; timeAccumulator := timeAccumulator s;
     lastUpdateTime := lastUpdateTime s; canvas_width := canvas_width s; canvas_height := canvas_height s;
     loading := loading s |}.

Definition set_heap (v : Heap) (s : State) : State :=
  {| gl_ := gl_ s; heap := v; config := config s;
     supportLinearFiltering := supportLinearFiltering s; programs := programs s; displayMaterial := displayMaterial s;
     fields := fields s; colorTimer := colorTimer s; timeAccumulator := timeAccumulator s;
     lastUpdateTime := lastUpdateTime s; canvas_width := canvas_width s; canvas_height := canvas_height s;
     loading := loading s |}.

Definition set_displayMaterial (v : Material.t) (s : State) : State :=
  {| gl_ := gl_ s; heap := heap s; config := config s;
     supportLinearFiltering := supportLinearFiltering s; programs := programs s; displayMaterial := v;
     fields := fields s; colorTimer := colorTimer s; timeAccumulator := timeAccumulator s;
     lastUpdateTime := lastUpdateTime s; canvas_width := canvas_width s; canvas_height := canvas_height s;
     loading := loading s |}.

Definition set_fields (v : Fields) (s : State) : State :=
  {| gl_ := gl_ s; heap := heap s; config := config s;
     supportLinearFiltering := supportLinearFiltering s; programs := programs s; displayMaterial := displayMaterial s;
     fields := v; colorTimer := colorTimer s; timeAccumulator := timeAccumulator s;
     lastUpdateTime := lastUpdateTime s; canvas_width := canvas_width s; canvas_height := canvas_height s;
     loading := loading s |}.

Definition set_colorTimer (v : R) (s : State) : State :=
  {| gl_ := gl_ s; heap := heap s; config := config s;
     supportLinearFiltering := supportLinearFiltering s; programs := programs s; displayMaterial := displayMaterial s;
     fields := fields s; colorTimer := v; timeAccumulator := timeAccumulator s;
     lastUpdateTime := lastUpdateTime s; canvas_width := canvas_width s; canvas_height := canvas_height s;
     loading := loading s |}.

Definition set_timeAccumulator (v : R) (s : State) : State :=
  {| gl_ := gl_ s; heap := heap s; config := config s;
     supportLinearFiltering := supportLinearFiltering s; programs := programs s; displayMaterial := displayMaterial s;
     fields := fields s; colorTimer := colorTimer s; timeAccumulator := v;
     lastUpdateTime := lastUpdateTime s; canvas_width := canvas_width s; canvas_height := canvas_height s;
     loading := loading s |}.

Definition set_lastUpdateTime (v : Z) (s : State) : State :=
  {| gl_ := gl_ s; heap := heap s; config := config s;
     supportLinearFiltering := supportLinearFiltering s; programs := programs s; displayMaterial := displayMaterial s;
     fields := fields s; colorTimer := colorTimer s; timeAccumulator := timeAccumulator s;
     lastUpdateTime := v; canvas_width := canvas_width s; canvas_height := canvas_height s;
     loading := loading s |}.

Definition set_canvas_width (v : Z) (s : State) : State :=
  {| gl_ := gl_ s; heap := heap s; config := config s;
     supportLinearFiltering := supportLinearFiltering s; programs := programs s; displayMaterial := displayMaterial s;
     fields := fields s; colorTimer := colorTimer s; timeAccumulator := timeAccumulator s;
     lastUpdateTime := lastUpdateTime s; canvas_width := v; canvas_height := canvas_height s;
     loading := loading s |}.

Definition set_canvas_height (v : Z) (s : State) : State :=
  {| gl_ := gl_ s; heap := heap s; config := config s;
     supportLinearFiltering := supportLinearFiltering s; programs := programs s; displayMaterial := displayMaterial s;
     fields := fields s; colorTimer := colorTimer s; timeAccumulator := timeAccumulator s;
     lastUpdateTime := lastUpdateTime s; canvas_width := canvas_width s; canvas_height := v;
     loading := loading s |}.

Definition set_loading (v : bool) (s : State) : State :=
  {| gl_ := gl_ s; heap := heap s; config := config s;
     supportLinearFiltering := supportLinearFiltering s; programs := programs s; displayMaterial := displayMaterial s;
     fields := fields s; colorTimer := colorTimer s; timeAccumulator := timeAccumulator s;
     lastUpdateTime := lastUpdateTime s; canvas_width := canvas_width s; canvas_height := canvas_height s;
     loading := v |}.

(** ** Shader compilation and the program cache *)

(** The loop of [hashCode]: [hash = (hash << 5) - hash + s.charCodeAt(i);
    hash |= 0]. *)
Fixpoint hashLoop (s : string) (hash : Z) : Z :=
  match s with
  | EmptyString => hash
  | String c s' => hashLoop s' (toInt32 (shiftLeft hash 5 - hash + charCode c))
  end.

Definition hashCode (s : string) : Z :=
  if (String.length s =? 0)%nat then 0%Z else hashLoop s 0.

(** [keywords] is [None] for the [null] the callers pass by default. *)
Definition addKeywords (source : Source) (keywords : option (list string)) : Source :=
  match keywords with
  | None => source
  | Some ks => {| src_defines := ks ++ src_defines source; src_text := src_text source |}
  end.

(** The trace written when [COMPILE_STATUS] is false is not modelled. *)
Definition compileShader (type : ShaderType) (source : Source) (keywords : option (list string))
    (g : GLState) : nat * GLState :=
  let source := addKeywords source keywords in
  let '(shader, g) := gl.createShader type g in
  let g := gl.shaderSource shader source g in
  let g := gl.compileShader shader g in
  (shader, g).

(** The trace written when [LINK_STATUS] is false is not modelled. *)
Definition createProgram (vertexShader fragmentShader : nat) (g : GLState) : nat * GLState :=
  let '(program, g) := gl.createProgram g in
  let g := gl.attachShader program vertexShader g in
  let g := gl.attachShader program fragmentShader g in
  let g := gl.linkProgram program g in
  (program, g).

Definition getUniforms (program : nat) (g : GLState) : gmap string UniformLocation :=
  foldl (fun uniforms uniformName =>
           match gl.getUniformLocation g program uniformName with
           | Some loc => <[uniformName := loc]> uniforms
           | None => uniforms
           end) ∅ (gl.activeUniforms g program).

(** [new Program(vertexShader, fragmentShader)] and [bind()] *)
Definition new_Program (vertexShader fragmentShader : nat) (g : GLState) : GLProgram.t * GLState :=
  let '(program, g) := createProgram vertexShader fragmentShader g in
  (GLProgram.mk program (getUniforms program g), g).

Definition Program_bind (this : GLProgram.t) (g : GLState) : GLState :=
  gl.useProgram (Some (GLProgram.program this)) g.

(** [new Material(vertexShader, fragmentShaderSource)] *)
Definition new_Material (vertexShader : nat) (fragmentShaderSource : Source) : Material.t :=
  Material.mk vertexShader fragmentShaderSource ∅ None ∅.

(** [let hash = 0; for (...) hash += hashCode(keywords[i])] *)
Definition keywordsHash (keywords : list string) : Z :=
  foldl (fun hash k => (hash + hashCode k)%Z) 0%Z keywords.

Definition Material_setKeywords (keywords : list string) (this : Material.t) (g : GLState)
  : Material.t * GLState :=
  let hash := keywordsHash keywords in
  let '(program, this, g) :=
    match Material.programs this !! hash with
    | Some program => (program, this, g)
    | None =>
        let '(fragmentShader, g) :=
          compileShader FRAGMENT_SHADER (Material.fragmentShaderSource this) (Some keywords) g in
        let '(program, g) := createProgram (Material.vertexShader this) fragmentShader g in
        (program,
         Material.mk (Material.vertexShader this) (Material.fragmentShaderSource this)
           (<[hash := program]> (Material.programs this)) (Material.activeProgram this)
           (Material.uniforms this),
         g)
    end in
  if bool_decide (Some program = Material.activeProgram this) then (this, g)
  else
    (Material.mk (Material.vertexShader this) (Material.fragmentShaderSource this)
       (Material.programs this) (Some program) (getUniforms program g),
     g).

Definition Material_bind (this : Material.t) (g : GLState) : GLState :=
  gl.useProgram (Material.activeProgram this) g.

(** ** Render targets *)

(** [blit(target, clear)].  The vertex and index buffers of the quad are set
    up once when [blit] is created and never change. *)
Definition blit (target : option FBO.t) (clear : bool) (g : GLState) : GLState :=
  let g :=
    match target with
    | None =>
        let g := gl.viewport (drawingBufferWidth g) (drawingBufferHeight g) g in
        gl.bindFramebuffer None g
    | Some target =>
        let g := gl.viewport (FBO.width target) (FBO.height target) g in
        gl.bindFramebuffer (Some (FBO.fbo target)) g
    end in
  let g :=
    if clear then
      let g := gl.clearColor 0 0 0 1 g in
      gl.clear g
    else g in
  gl.drawElements g.

(** The transfer format and the pixel type of [texImage2D]: with [null]
    data they decide nothing. *)
Inductive PixelFormat := RED | RG | RGBA.
Inductive PixelType := HALF_FLOAT.

Definition createFBO (w h : Z) (internalFormat : InternalFormat) (format : PixelFormat)
    (type : PixelType) (param : Filter) (g : GLState) : FBO.t * GLState :=
  let g := gl.activeTexture 0 g in
  let '(texture, g) := gl.createTexture g in
  let g := gl.bindTexture texture g in
  let g := gl.texParameteri TEXTURE_MIN_FILTER (FilterParam param) g in
  let g := gl.texParameteri TEXTURE_MAG_FILTER (FilterParam param) g in
  let g := gl.texParameteri TEXTURE_WRAP_S CLAMP_TO_EDGE g in
  let g := gl.texParameteri TEXTURE_WRAP_T CLAMP_TO_EDGE g in
  let g := gl.texImage2D internalFormat w h g in
  let '(fbo, g) := gl.createFramebuffer g in
  let g := gl.bindFramebuffer (Some fbo) g in
  let g := gl.framebufferTexture2D texture g in
  let g := gl.viewport w h g in
  let g := gl.clear g in
  let texelSizeX := 1 / IZR w in
  let texelSizeY := 1 / IZR h in
  (FBO.mk texture fbo w h texelSizeX texelSizeY, g).

(** [attach(id)] of an FBO. *)
Definition FBO_attach (this : FBO.t) (id : nat) (g : GLState) : nat * GLState :=
  let g := gl.activeTexture (0 + id) g in
  let g := gl.bindTexture (FBO.texture this) g in
  (id, g).

Definition createDoubleFBO (w h : Z) (internalFormat : InternalFormat) (format : PixelFormat)
    (type : PixelType) (param : Filter) (g : GLState) (hp : Heap) : nat * GLState * Heap :=
  let '(fbo1, g) := createFBO w h internalFormat format type param g in
  let '(fbo2, g) := createFBO w h internalFormat format type param g in
  let '(ref, hp) :=
    heap_alloc (DoubleFBO.mk w h (FBO.texelSizeX fbo1) (FBO.texelSizeY fbo1) fbo1 fbo2) hp in
  (ref, g, hp).

Definition resizeFBO (copyProgram : GLProgram.t) (target : FBO.t) (w h : Z)
    (internalFormat : InternalFormat) (format : PixelFormat) (type : PixelType) (param : Filter)
    (g : GLState) : FBO.t * GLState :=
  let '(newFBO, g) := createFBO w h internalFormat format type param g in
  let g := Program_bind copyProgram g in
  let '(id, g) := FBO_attach target 0 g in
  let g := gl.uniform1i (GLProgram.uniforms copyProgram !! "uTexture") (Z.of_nat id) g in
  let g := blit (Some newFBO) false g in
  (newFBO, g).

(** [resizeDoubleFBO(target, ...)]: [target] is a reference; the result is
    the reference returned, with the context and the heap it leaves.  [None]
    when [target] is not an object of the heap. *)
Definition resizeDoubleFBO (copyProgram : GLProgram.t) (target : nat) (w h : Z)
    (internalFormat : InternalFormat) (format : PixelFormat) (type : PixelType) (param : Filter)
    (g : GLState) (hp : Heap) : option (nat * GLState * Heap) :=
  d ← heap_cells hp !! target;
  if bool_decide (DoubleFBO.width d = w) && bool_decide (DoubleFBO.height d = h)
  then Some (target, g, hp)
  else
    let '(newRead, g) :=
      resizeFBO copyProgram (DoubleFBO.read d) w h internalFormat format type param g in
    let hp := heap_update (DoubleFBO.set_read newRead) target hp in
    let '(newWrite, g) := createFBO w h internalFormat format type param g in
    let hp := heap_update (DoubleFBO.set_write newWrite) target hp in
    let hp := heap_update (DoubleFBO.set_width w) target hp in
    let hp := heap_update (DoubleFBO.set_height h) target hp in
    let hp := heap_update (DoubleFBO.set_texelSizeX (1 / IZR w)) target hp in
    let hp := heap_update (DoubleFBO.set_texelSizeY (1 / IZR h)) target hp in
    Some (target, g, hp).

Definition getResolution (resolution : Z) (g : GLState) : Z * Z :=
  let aspectRatio := IZR (drawingBufferWidth g) / IZR (drawingBufferHeight g) in
  let aspectRatio := if Rlt_dec aspectRatio 1 then 1 / aspectRatio else aspectRatio in
  let min := Math_round (IZR resolution) in
  let max := Math_round (IZR resolution * aspectRatio) in
  if (drawingBufferWidth g >? drawingBufferHeight g)%Z
  then (max, min)
  else (min, max).

(** [window.devicePixelRatio || 1] *)
Definition scaleByPixelRatio (devicePixelRatio : R) (input : Z) : Z :=
  let pixelRatio := if Req_EM_T devicePixelRatio 0 then 1 else devicePixelRatio in
  Math_floor (IZR input * pixelRatio).

(** ** Colours *)

(** [HSVtoRGB].  The [default] case of the [switch] assigns none of [r],
    [g], [b]; the object returned then has three undefined fields, which is
    the result [None]. *)
Definition HSVtoRGB (h s v : R) : option RGB.t :=
  let i := Math_floor (h * 6) in
  let f := h * 6 - IZR i in
  let p := v * (1 - s) in
  let q := v * (1 - f * s) in
  let t := v * (1 - (1 - f) * s) in
  match Z.rem i 6 with
  | 0%Z => Some (RGB.mk v t p)
  | 1%Z => Some (RGB.mk q v p)
  | 2%Z => Some (RGB.mk p v t)
  | 3%Z => Some (RGB.mk p q v)
  | 4%Z => Some (RGB.mk t p v)
  | 5%Z => Some (RGB.mk v p q)
  | _ => None
  end.

(** The hue [generateColor] computes from the advanced timer. *)
Definition nextColorTimer (s : State) : R :=
  let colorTimer := colorTimer s + 0.005 * COLOR_UPDATE_SPEED (config s) in
  if Rgt_dec colorTimer 1 then colorTimer - 1 else colorTimer.

Definition hueOf (colorTimer : R) : R := 0.55 + sin (colorTimer * PI * 2) * 0.1.

Definition generateColor (s : State) : option RGB.t * State :=
  let colorTimer := nextColorTimer s in
  let s := set_colorTimer colorTimer s in
  let h := hueOf colorTimer in
  let c := HSVtoRGB h 0.4 0.2 in
  let c := (fun c => RGB.mk (RGB.r c * 0.15) (RGB.g c * 0.15) (RGB.b c * 0.15)) <$> c in
  (c, s).

(** ** Splats *)

Definition correctRadius (radius : R) (s : State) : R :=
  let aspectRatio := IZR (canvas_width s) / IZR (canvas_height s) in
  if Rgt_dec aspectRatio 1 then radius * aspectRatio else radius.

(** The object a variable of type [DoubleFBO] refers to; [None] when the
    variable is still undefined (reading a property of it throws). *)
Definition deref (v : option nat) (s : State) : option DoubleFBO.t :=
  ref ← v; heap_cells (heap s) !! ref.

(** [v.swap()] *)
Definition swapOf (v : option nat) (s : State) : option State :=
  ref ← v;
  _ ← heap_cells (heap s) !! ref;
  Some (set_heap (heap_update DoubleFBO.swap ref (heap s)) s).

Definition splat (x y dx dy : R) (color : RGB.t) (s : State) : option State :=
  let splatProgram := splatProgram (programs s) in
  let uniforms := GLProgram.uniforms splatProgram in
  let g := Program_bind splatProgram (gl_ s) in
  velocity_ ← deref (velocity (fields s)) s;
  let '(id, g) := FBO_attach (DoubleFBO.read velocity_) 0 g in
  let g := gl.uniform1i (uniforms !! "uTarget") (Z.of_nat id) g in
  let g := gl.uniform1f (uniforms !! "aspectRatio") (IZR (canvas_width s) / IZR (canvas_height s)) g in
  let g := gl.uniform2f (uniforms !! "point") x y g in
  let g := gl.uniform3f (uniforms !! "color") dx dy 0 g in
  let g := gl.uniform1f (uniforms !! "radius") (correctRadius (SPLAT_RADIUS (config s) / 100) s) g in
  let g := blit (Some (DoubleFBO.write velocity_)) false g in
  s ← swapOf (velocity (fields s)) (set_gl g s);
  dye_ ← deref (dye (fields s)) s;
  let '(id, g) := FBO_attach (DoubleFBO.read dye_) 0 (gl_ s) in
  let g := gl.uniform1i (uniforms !! "uTarget") (Z.of_nat id) g in
  let g := gl.uniform3f (uniforms !! "color") (RGB.r color) (RGB.g color) (RGB.b color) g in
  let g := blit (Some (DoubleFBO.write dye_)) false g in
  swapOf (dye (fields s)) (set_gl g s).

(** [autoSplat(dt)].  A colour with undefined channels stops the model
    ([None]): real numbers have no NaN to hand to [uniform3f]. *)
Definition autoSplat (dt : R) (s : State) : option State :=
  let s := set_timeAccumulator (timeAccumulator s + dt) s in
  let t := timeAccumulator s in
  let currentRadius :=
    (0.4 * (1 - exp (- t * 0.2))) + (sin (t * 0.5) * 0.05 * Rmin (t * 0.1) 1) in
  let angle := t * 0.3 in
  let x1 := 0.5 + cos angle * currentRadius in
  let y1 := 0.5 + sin angle * currentRadius * 0.8 in
  let dx1 := - sin angle * 15 in
  let dy1 := cos angle * 15 in
  let x2 := 0.5 + cos (angle + PI) * currentRadius in
  let y2 := 0.5 + sin (angle + PI) * currentRadius * 0.8 in
  let dx2 := - sin (angle + PI) * 15 in
  let dy2 := cos (angle + PI) * 15 in
  let '(color, s) := generateColor s in
  color ← color;
  s ← splat x1 (1 - y1) (dx1 * 0.2) (dy1 * 0.2) color s;
  splat x2 (1 - y2) (dx2 * 0.2) (dy2 * 0.2) color s.

Definition displayKeywords (config : Config) : list string :=
  let displayKeywords := [] in
  if SHADING config then displayKeywords ++ ["SHADING"] else displayKeywords.

Definition updateKeywords (s : State) : State :=
  let '(m, g) := Material_setKeywords (displayKeywords (config s)) (displayMaterial s) (gl_ s) in
  set_displayMaterial m (set_gl g s).

(** ** Fields *)

(** [if (!v) v = createDoubleFBO(...) else v = resizeDoubleFBO(v, ...)] *)
Definition createOrResize (v : option nat) (w h : Z) (internalFormat : InternalFormat)
    (format : PixelFormat) (type : PixelType) (param : Filter) (s : State)
  : option (nat * State) :=
  match v with
  | None =>
      let '(ref, g, hp) := createDoubleFBO w h internalFormat format type param (gl_ s) (heap s) in
      Some (ref, set_heap hp (set_gl g s))
  | Some target =>
      '(ref, g, hp) ← resizeDoubleFBO (copyProgram (programs s)) target w h internalFormat
                         format type param (gl_ s) (heap s);
      Some (ref, set_heap hp (set_gl g s))
  end.

Definition initFramebuffers (s : State) : option State :=
  let simRes := getResolution (SIM_RESOLUTION (config s)) (gl_ s) in
  let dyeRes := getResolution (DYE_RESOLUTION (config s)) (gl_ s) in
  let texType := HALF_FLOAT in
  let rgba := (RGBA16F, RGBA) in
  let rg := (RG16F, RG) in
  let r := (R16F, RED) in
  let filtering := if supportLinearFiltering s then LINEAR else NEAREST in
  let s := set_gl (gl.disable BLEND (gl_ s)) s in
  '(ref, s) ← createOrResize (dye (fields s)) dyeRes.1 dyeRes.2 rgba.1 rgba.2 texType filtering s;
  let s := set_fields (set_dye (Some ref) (fields s)) s in
  '(ref, s) ← createOrResize (velocity (fields s)) simRes.1 simRes.2 rg.1 rg.2 texType filtering s;
  let s := set_fields (set_velocity (Some ref) (fields s)) s in
  let '(f, g) := createFBO simRes.1 simRes.2 r.1 r.2 texType NEAREST (gl_ s) in
  let s := set_fields (set_divergence (Some f) (fields s)) (set_gl g s) in
  let '(f, g) := createFBO simRes.1 simRes.2 r.1 r.2 texType NEAREST (gl_ s) in
  let s := set_fields (set_curl (Some f) (fields s)) (set_gl g s) in
  let '(ref, g, hp) :=
    createDoubleFBO simRes.1 simRes.2 r.1 r.2 texType NEAREST (gl_ s) (heap s) in
  let s := set_fields (set_pressure (Some ref) (fields s)) (set_heap hp (set_gl g s)) in
  Some (set_loading false s).

(** ** The frame loop *)

(** [calcDeltaTime()], with the value [Date.now()] returns. *)
Definition calcDeltaTime (now : Z) (s : State) : R * State :=
  let dt := (IZR now - IZR (lastUpdateTime s)) / 1000 in
  let dt := Rmin dt 0.016666 in
  let s := set_lastUpdateTime now s in
  (dt, s).

(** [resizeCanvas()], with the values of [canvas.clientWidth],
    [canvas.clientHeight] and [window.devicePixelRatio].  Assigning the size
    of the canvas gives the context a new, blank drawing buffer. *)
Definition resizeCanvas (clientWidth clientHeight : Z) (devicePixelRatio : R) (s : State)
  : bool * State :=
  let width := scaleByPixelRatio devicePixelRatio clientWidth in
  let height := scaleByPixelRatio devicePixelRatio clientHeight in
  if negb (bool_decide (canvas_width s = width)) || negb (bool_decide (canvas_height s = height))
  then
    let s := set_canvas_width width s in
    let s := set_canvas_height height s in
    let s := set_gl (set_gl_drawingBuffer (blankImage width height RGBA8 NEAREST) (gl_ s)) s in
    (true, s)
  else (false, s).

(** The passes of [step(dt)], one per program bound. *)
Definition curlPass (s : State) : option State :=
  let curlProgram := curlProgram (programs s) in
  let uniforms := GLProgram.uniforms curlProgram in
  let g := Program_bind curlProgram (gl_ s) in
  velocity_ ← deref (velocity (fields s)) s;
  let g := gl.uniform2f (uniforms !! "texelSize")
             (DoubleFBO.texelSizeX velocity_) (DoubleFBO.texelSizeY velocity_) g in
  let '(id, g) := FBO_attach (DoubleFBO.read velocity_) 0 g in
  let g := gl.uniform1i (uniforms !! "uVelocity") (Z.of_nat id) g in
  let g := blit (curl (fields s)) false g in
  Some (set_gl g s).

Definition vorticityPass (dt : R) (s : State) : option State :=
  let vorticityProgram := vorticityProgram (programs s) in
  let uniforms := GLProgram.uniforms vorticityProgram in
  let g := Program_bind vorticityProgram (gl_ s) in
  velocity_ ← deref (velocity (fields s)) s;
  let g := gl.uniform2f (uniforms !! "texelSize")
             (DoubleFBO.texelSizeX velocity_) (DoubleFBO.texelSizeY velocity_) g in
  let '(id, g) := FBO_attach (DoubleFBO.read velocity_) 0 g in
  let g := gl.uniform1i (uniforms !! "uVelocity") (Z.of_nat id) g in
  curl_ ← curl (fields s);
  let '(id, g) := FBO_attach curl_ 1 g in
  let g := gl.uniform1i (uniforms !! "uCurl") (Z.of_nat id) g in
  let g := gl.uniform1f (uniforms !! "curl") (CURL (config s)) g in
  let g := gl.uniform1f (uniforms !! "dt") dt g in
  let g := blit (Some (DoubleFBO.write velocity_)) false g in
  swapOf (velocity (fields s)) (set_gl g s).

Definition divergencePass (s : State) : option State :=
  let divergenceProgram := divergenceProgram (programs s) in
  let uniforms := GLProgram.uniforms divergenceProgram in
  let g := Program_bind divergenceProgram (gl_ s) in
  velocity_ ← deref (velocity (fields s)) s;
  let g := gl.uniform2f (uniforms !! "texelSize")
             (DoubleFBO.texelSizeX velocity_) (DoubleFBO.texelSizeY velocity_) g in
  let '(id, g) := FBO_attach (DoubleFBO.read velocity_) 0 g in
  let g := gl.uniform1i (uniforms !! "uVelocity") (Z.of_nat id) g in
  let g := blit (divergence (fields s)) false g in
  Some (set_gl g s).

Definition clearPass (s : State) : option State :=
  let clearProgram := clearProgram (programs s) in
  let uniforms := GLProgram.uniforms clearProgram in
  let g := Program_bind clearProgram (gl_ s) in
  pressure_ ← deref (pressure (fields s)) s;
  let '(id, g) := FBO_attach (DoubleFBO.read pressure_) 0 g in
  let g := gl.uniform1i (uniforms !! "uTexture") (Z.of_nat id) g in
  let g := gl.uniform1f (uniforms !! "value") (PRESSURE (config s)) g in
  let g := blit (Some (DoubleFBO.write pressure_)) false g in
  swapOf (pressure (fields s)) (set_gl g s).

(** One turn of the loop over [PRESSURE_ITERATIONS]. *)
Definition pressureIteration (s : State) : option State :=
  let uniforms := GLProgram.uniforms (pressureProgram (programs s)) in
  pressure_ ← deref (pressure (fields s)) s;
  let '(id, g) := FBO_attach (DoubleFBO.read pressure_) 1 (gl_ s) in
  let g := gl.uniform1i (uniforms !! "uPressure") (Z.of_nat id) g in
  let g := blit (Some (DoubleFBO.write pressure_)) false g in
  swapOf (pressure (fields s)) (set_gl g s).

Fixpoint pressureLoop (iterations : nat) (s : State) : option State :=
  match iterations with
  | O => Some s
  | S n => s ← pressureIteration s; pressureLoop n s
  end.

Definition pressurePass (s : State) : option State :=
  let pressureProgram := pressureProgram (programs s) in
  let uniforms := GLProgram.uniforms pressureProgram in
  let g := Program_bind pressureProgram (gl_ s) in
  velocity_ ← deref (velocity (fields s)) s;
  let g := gl.uniform2f (uniforms !! "texelSize")
             (DoubleFBO.texelSizeX velocity_) (DoubleFBO.texelSizeY velocity_) g in
  divergence_ ← divergence (fields s);
  let '(id, g) := FBO_attach divergence_ 0 g in
  let g := gl.uniform1i (uniforms !! "uDivergence") (Z.of_nat id) g in
  pressureLoop (Z.to_nat (PRESSURE_ITERATIONS (config s))) (set_gl g s).

Definition gradientSubtractPass (s : State) : option State :=
  let gradienSubtractProgram := gradienSubtractProgram (programs s) in
  let uniforms := GLProgram.uniforms gradienSubtractProgram in
  let g := Program_bind gradienSubtractProgram (gl_ s) in
  velocity_ ← deref (velocity (fields s)) s;
  let g := gl.uniform2f (uniforms !! "texelSize")
             (DoubleFBO.texelSizeX velocity_) (DoubleFBO.texelSizeY velocity_) g in
  pressure_ ← deref (pressure (fields s)) s;
  let '(id, g) := FBO_attach (DoubleFBO.read pressure_) 0 g in
  let g := gl.uniform1i (uniforms !! "uPressure") (Z.of_nat id) g in
  let '(id, g) := FBO_attach (DoubleFBO.read velocity_) 1 g in
  let g := gl.uniform1i (uniforms !! "uVelocity") (Z.of_nat id) g in
  let g := blit (Some (DoubleFBO.write velocity_)) false g in
  swapOf (velocity (fields s)) (set_gl g s).

Definition advectVelocityPass (dt : R) (s : State) : option State :=
  let advectionProgram := advectionProgram (programs s) in
  let uniforms := GLProgram.uniforms advectionProgram in
  let g := Program_bind advectionProgram (gl_ s) in
  velocity_ ← deref (velocity (fields s)) s;
  let g := gl.uniform2f (uniforms !! "texelSize")
             (DoubleFBO.texelSizeX velocity_) (DoubleFBO.texelSizeY velocity_) g in
  let g :=
    if negb (supportLinearFiltering s)
    then gl.uniform2f (uniforms !! "dyeTexelSize")
           (DoubleFBO.texelSizeX velocity_) (DoubleFBO.texelSizeY velocity_) g
    else g in
  let '(velocityId, g) := FBO_attach (DoubleFBO.read velocity_) 0 g in
  let g := gl.uniform1i (uniforms !! "uVelocity") (Z.of_nat velocityId) g in
  let g := gl.uniform1i (uniforms !! "uSource") (Z.of_nat velocityId) g in
  let g := gl.uniform1f (uniforms !! "dt") dt g in
  let g := gl.uniform1f (uniforms !! "dissipation") (VELOCITY_DISSIPATION (config s)) g in
  let g := blit (Some (DoubleFBO.write velocity_)) false g in
  swapOf (velocity (fields s)) (set_gl g s).

(** The dye pass goes on with [advectionProgram] bound and its [dt] set.
    Both variables are read before the calls: a read that throws gives
    [None] wherever it stands. *)
Definition advectDyePass (s : State) : option State :=
  let uniforms := GLProgram.uniforms (advectionProgram (programs s)) in
  let g := gl_ s in
  velocity_ ← deref (velocity (fields s)) s;
  dye_ ← deref (dye (fields s)) s;
  let g :=
    if negb (supportLinearFiltering s)
    then gl.uniform2f (uniforms !! "dyeTexelSize")
           (DoubleFBO.texelSizeX dye_) (DoubleFBO.texelSizeY dye_) g
    else g in
  let '(id, g) := FBO_attach (DoubleFBO.read velocity_) 0 g in
  let g := gl.uniform1i (uniforms !! "uVelocity") (Z.of_nat id) g in
  let '(id, g) := FBO_attach (DoubleFBO.read dye_) 1 g in
  let g := gl.uniform1i (uniforms !! "uSource") (Z.of_nat id) g in
  let g := gl.uniform1f (uniforms !! "dissipation") (DENSITY_DISSIPATION (config s)) g in
  let g := blit (Some (DoubleFBO.write dye_)) false g in
  swapOf (dye (fields s)) (set_gl g s).

Definition step (dt : R) (s : State) : option State :=
  let s := set_gl (gl.disable BLEND (gl_ s)) s in
  s ← curlPass s;
  s ← vorticityPass dt s;
  s ← divergencePass s;
  s ← clearPass s;
  s ← pressurePass s;
  s ← gradientSubtractPass s;
  s ← advectVelocityPass dt s;
  advectDyePass s.

Definition drawDisplay (target : option FBO.t) (s : State) : option State :=
  let g := gl_ s in
  let width := match target with None => drawingBufferWidth g | Some t => FBO.width t end in
  let height := match target with None => drawingBufferHeight g | Some t => FBO.height t end in
  let uniforms := Material.uniforms (displayMaterial s) in
  let g := Material_bind (displayMaterial s) g in
  let g :=
    if SHADING (config s)
    then gl.uniform2f (uniforms !! "texelSize") (1 / IZR width) (1 / IZR height) g
    else g in
  dye_ ← deref (dye (fields s)) s;
  let '(id, g) := FBO_attach (DoubleFBO.read dye_) 0 g in
  let g := gl.uniform1i (uniforms !! "uTexture") (Z.of_nat id) g in
  let g := blit target false g in
  Some (set_gl g s).

Definition render (target : option FBO.t) (s : State) : option State :=
  let g := gl.blendFunc ONE ONE_MINUS_SRC_ALPHA (gl_ s) in
  let g := gl.enable BLEND g in
  drawDisplay target (set_gl g s).

(** What one tick reads from its host: [Date.now()], the client size of the
    canvas and [window.devicePixelRatio]. *)
Record Tick := {
  tick_now : Z;
  tick_clientWidth : Z;
  tick_clientHeight : Z;
  tick_devicePixelRatio : R
}.

(** The part of [updateFrame] after [calcDeltaTime]. *)
Definition frameWith (dt : R) (k : Tick) (s : State) : option State :=
  let '(resized, s) :=
    resizeCanvas (tick_clientWidth k) (tick_clientHeight k) (tick_devicePixelRatio k) s in
  s ← (if resized then initFramebuffers s else Some s);
  s ← autoSplat dt s;
  s ← step dt s;
  render None s.

(** [updateFrame()]; asking for the next animation frame is the caller's
    [runFrames]. *)
Definition updateFrame (k : Tick) (s : State) : option State :=
  let '(dt, s) := calcDeltaTime (tick_now k) s in
  frameWith dt k s.

Fixpoint runFrames (ks : list Tick) (s : State) : option State :=
  match ks with
  | [] => Some s
  | k :: ks => s ← updateFrame k s; runFrames ks s
  end.

(** What the effect reads from its host when it runs: whether the context
    filters floating-point textures linearly, the size of the canvas, the
    value of [Math.random()] and that of [Date.now()]. *)
Record Host := {
  host_supportLinearFiltering : bool;
  host_canvasWidth : Z;
  host_canvasHeight : Z;
  host_random : R;
  host_now : Z
}.

Definition noSource (t : ShaderText) : Source := {| src_defines := []; src_text := t |}.

(** The body of the effect up to the calls at its end: the context, the
    shaders, the programs and the variables of the closures. *)
Definition boot (host : Host) : State :=
  let config := resolveConfig (host_supportLinearFiltering host) in
  let g := newContext (host_canvasWidth host) (host_canvasHeight host) in
  let g := gl.clearColor 0 0 0 1 g in
  let '(baseVertexShader, g) := compileShader VERTEX_SHADER (noSource baseVertexShaderText) None g in
  let '(copyShader, g) := compileShader FRAGMENT_SHADER (noSource copyShaderText) None g in
  let '(clearShader, g) := compileShader FRAGMENT_SHADER (noSource clearShaderText) None g in
  let '(splatShader, g) := compileShader FRAGMENT_SHADER (noSource splatShaderText) None g in
  let '(advectionShader, g) :=
    compileShader FRAGMENT_SHADER (noSource advectionShaderText)
      (if host_supportLinearFiltering host then None else Some ["MANUAL_FILTERING"]) g in
  let '(divergenceShader, g) := compileShader FRAGMENT_SHADER (noSource divergenceShaderText) None g in
  let '(curlShader, g) := compileShader FRAGMENT_SHADER (noSource curlShaderText) None g in
  let '(vorticityShader, g) := compileShader FRAGMENT_SHADER (noSource vorticityShaderText) None g in
  let '(pressureShader, g) := compileShader FRAGMENT_SHADER (noSource pressureShaderText) None g in
  let '(gradientSubtractShader, g) :=
    compileShader FRAGMENT_SHADER (noSource gradientSubtractShaderText) None g in
  let '(copyProgram, g) := new_Program baseVertexShader copyShader g in
  let '(clearProgram, g) := new_Program baseVertexShader clearShader g in
  let '(splatProgram, g) := new_Program baseVertexShader splatShader g in
  let '(advectionProgram, g) := new_Program baseVertexShader advectionShader g in
  let '(divergenceProgram, g) := new_Program baseVertexShader divergenceShader g in
  let '(curlProgram, g) := new_Program baseVertexShader curlShader g in
  let '(vorticityProgram, g) := new_Program baseVertexShader vorticityShader g in
  let '(pressureProgram, g) := new_Program baseVertexShader pressureShader g in
  let '(gradienSubtractProgram, g) := new_Program baseVertexShader gradientSubtractShader g in
  let displayMaterial := new_Material baseVertexShader (noSource displayShaderSource) in
  let s :=
    {| gl_ := g;
       heap := {| heap_next := 0; heap_cells := ∅ |};
       config := config;
       supportLinearFiltering := host_supportLinearFiltering host;
       programs :=
         {| copyProgram := copyProgram; clearProgram := clearProgram;
            splatProgram := splatProgram; advectionProgram := advectionProgram;
            divergenceProgram := divergenceProgram; curlProgram := curlProgram;
            vorticityProgram := vorticityProgram; pressureProgram := pressureProgram;
            gradienSubtractProgram := gradienSubtractProgram |};
       displayMaterial := displayMaterial;
       fields :=
         {| dye := None; velocity := None; divergence := None; curl := None; pressure := None |};
       colorTimer := host_random host;
       timeAccumulator := 0;
       lastUpdateTime := host_now host;
       canvas_width := host_canvasWidth host;
       canvas_height := host_canvasHeight host;
       loading := true |} in
  s.

(** The whole body, up to the first request for an animation frame. *)
Definition mount (host : Host) : option State :=
  let s := boot host in
  let s := updateKeywords s in
  initFramebuffers s.

(** ** Predicates of the specification *)

(** A colour whose [x] and [y] are zero: a zero scalar in a one-channel
    field, a zero vector in the velocity field. *)
Definition zeroXY (c : vec4) : Prop := v4x c = 0 /\ v4y c = 0.

Definition imageZero (img : TexImage) : Prop := forall i j, zeroXY (texels img i j).

(** Every texture of the context holds zeros, and so does the clear colour. *)
Definition Zero (g : GLState) : Prop :=
  zeroXY (gl_clearColor g) /\
  forall t img, gl_textures g !! t = Some img -> imageZero img.

(** The texts that write zeros when every texture they sample holds zeros:
    all but the splat, which adds its colour, the display, which is only
    drawn to the canvas, and the vertex text. *)
Definition zeroPreserving (t : ShaderText) : bool :=
  match t with
  | baseVertexShaderText | displayShaderSource | splatShaderText => false
  | _ => true
  end.

(** The fragment shader of a linked program has a given text. *)
Definition hasText (g : GLState) (P : GLProgram.t) (t : ShaderText) : Prop :=
  exists src, fragmentSourceOf g (GLProgram.program P) = Some src /\ src_text src = t.

Record programsLinked (s : State) : Prop := {
  linked_copy : hasText (gl_ s) (copyProgram (programs s)) copyShaderText;
  linked_clear : hasText (gl_ s) (clearProgram (programs s)) clearShaderText;
  linked_splat : hasText (gl_ s) (splatProgram (programs s)) splatShaderText;
  linked_advection : hasText (gl_ s) (advectionProgram (programs s)) advectionShaderText;
  linked_divergence : hasText (gl_ s) (divergenceProgram (programs s)) divergenceShaderText;
  linked_curl : hasText (gl_ s) (curlProgram (programs s)) curlShaderText;
  linked_vorticity : hasText (gl_ s) (vorticityProgram (programs s)) vorticityShaderText;
  linked_pressure : hasText (gl_ s) (pressureProgram (programs s)) pressureShaderText;
  linked_gradient :
    hasText (gl_ s) (gradienSubtractProgram (programs s)) gradientSubtractShaderText
}.

(** An FBO of the script is backed by the context: its framebuffer object
    has its texture attached, and the texture has the size the FBO records. *)
Definition fboLive (g : GLState) (f : FBO.t) : Prop :=
  gl_framebuffers g !! FBO.fbo f = Some (Some (FBO.texture f)) /\
  exists img, gl_textures g !! FBO.texture f = Some img /\
    tex_width img = FBO.width f /\ tex_height img = FBO.height f.

(** Object names are handed out in increasing order. *)
Definition glFresh (g : GLState) : Prop :=
  (forall t, is_Some (gl_textures g !! t) -> (t < gl_next g)%nat) /\
  (forall fb, is_Some (gl_framebuffers g !! fb) -> (fb < gl_next g)%nat).

(** A variable of type [DoubleFBO] is defined, and both FBOs of the object
    it refers to satisfy [P]. *)
Definition doubleHolds (P : FBO.t -> Prop) (v : option nat) (s : State) : Prop :=
  exists d, deref v s = Some d /\ P (DoubleFBO.fbo1 d) /\ P (DoubleFBO.fbo2 d).

Definition singleHolds (P : FBO.t -> Prop) (v : option FBO.t) : Prop :=
  exists f, v = Some f /\ P f.

(** All five fields are defined and each of their FBOs satisfies [P]. *)
Record fieldsHold (P : FBO.t -> Prop) (s : State) : Prop := {
  holds_dye : doubleHolds P (dye (fields s)) s;
  holds_velocity : doubleHolds P (velocity (fields s)) s;
  holds_divergence : singleHolds P (divergence (fields s));
  holds_curl : singleHolds P (curl (fields s));
  holds_pressure : doubleHolds P (pressure (fields s)) s
}.

(** The texel sizes of an FBO are the reciprocals of its dimensions. *)
Definition texelSizeDerived (f : FBO.t) : Prop :=
  FBO.texelSizeX f = 1 / IZR (FBO.width f) /\ FBO.texelSizeY f = 1 / IZR (FBO.height f).

(** The same of a [DoubleFBO], for its own cached sizes and both members. *)
Definition doubleTexelSizeDerived (d : DoubleFBO.t) : Prop :=
  DoubleFBO.texelSizeX d = 1 / IZR (DoubleFBO.width d) /\
  DoubleFBO.texelSizeY d = 1 / IZR (DoubleFBO.height d) /\
  texelSizeDerived (DoubleFBO.fbo1 d) /\ texelSizeDerived (DoubleFBO.fbo2 d).

(** The invariant of the whole script: every [DoubleFBO] of the heap and
    both single FBOs have derived texel sizes. *)
Definition texelSizesDerived (s : State) : Prop :=
  (forall ref d, heap_cells (heap s) !! ref = Some d -> doubleTexelSizeDerived d) /\
  (forall f, divergence (fields s) = Some f -> texelSizeDerived f) /\
  (forall f, curl (fields s) = Some f -> texelSizeDerived f).

(** The scalar a one-channel field stores is zero at every texel. *)
Definition fieldIsZero (g : GLState) (f : FBO.t) : Prop :=
  exists img, gl_textures g !! FBO.texture f = Some img /\
    tex_width img = FBO.width f /\ tex_height img = FBO.height f /\
    forall i j, v4x (texels img i j) = 0.

(** The image [createFBO] leaves in its new texture. *)
Definition clearedImage (w h : Z) (f : InternalFormat) (flt : Filter) (c : vec4) : TexImage :=
  {| tex_width := w; tex_height := h; tex_format := f; tex_filter := flt;
     texels := fun _ _ => storeTexel f c |}.

(** Every texture a shader can sample holds zeros. *)
Definition envZero (e : ShaderEnv) : Prop :=
  forall u t, env_unit e u = Some t -> imageZero t.

(** The program in use, if it draws at all, draws with a text that keeps
    zeros. *)
Definition drawsZero (g : GLState) : Prop :=
  forall p src, gl_program g = Some p -> fragmentSourceOf g p = Some src ->
    zeroPreserving (src_text src) = true.

(** Two states of the context with the same objects. *)
Definition sameStores (g g' : GLState) : Prop :=
  gl_textures g' = gl_textures g /\ gl_framebuffers g' = gl_framebuffers g /\
  gl_programs g' = gl_programs g /\ gl_shaders g' = gl_shaders g /\
  gl_clearColor g' = gl_clearColor g /\ gl_next g' = gl_next g.

(** The invariant of the running script: the programs are linked, the
    fields are defined and live, object names are fresh, and texel sizes are
    derived from dimensions. *)
Record Ready (s : State) : Prop := {
  ready_linked : programsLinked s;
  ready_live : fieldsHold (fboLive (gl_ s)) s;
  ready_fresh : glFresh (gl_ s);
  ready_texel : texelSizesDerived s
}.

(** What no pass changes. *)
Definition Kept (s s' : State) : Prop :=
  fields s' = fields s /\ programs s' = programs s /\ config s' = config s /\
  supportLinearFiltering s' = supportLinearFiltering s /\
  displayMaterial s' = displayMaterial s /\
  canvas_width s' = canvas_width s /\ canvas_height s' = canvas_height s /\
  colorTimer s' = colorTimer s /\ timeAccumulator s' = timeAccumulator s /\
  lastUpdateTime s' = lastUpdateTime s.

(** The shape shared by the specifications of the passes: the pass returns,
    keeps the invariant and zero fields, and leaves program [P] in use. *)
Definition passSpec (pass : State -> option State) (s : State) (P : GLProgram.t) : Prop :=
  exists s', pass s = Some s' /\ Ready s' /\ Kept s s' /\
    (Zero (gl_ s) -> Zero (gl_ s')) /\
    gl_program (gl_ s') = Some (GLProgram.program P).

(** A later state of the context that keeps what an earlier one had: live
    FBOs stay live, names stay fresh, programs and shaders are the same, and
    zero textures stay zero. *)
Record glExtends (g g' : GLState) : Prop := {
  ext_live : forall f, fboLive g f -> fboLive g' f;
  ext_fresh : glFresh g';
  ext_programs : gl_programs g' = gl_programs g;
  ext_shaders : gl_shaders g' = gl_shaders g;
  ext_zero : Zero g -> Zero g';
  ext_next : (gl_next g <= gl_next g')%nat
}.

(** Both FBOs of a [DoubleFBO] are live. *)
Definition doubleLive (g : GLState) (d : DoubleFBO.t) : Prop :=
  fboLive g (DoubleFBO.fbo1 d) /\ fboLive g (DoubleFBO.fbo2 d).

(** The object [createDoubleFBO] allocates, and the one [resizeDoubleFBO]
    leaves, from the two FBOs made for it. *)
Definition doubleOf (w h : Z) (fbo1 fbo2 : FBO.t) : DoubleFBO.t :=
  DoubleFBO.mk w h (1 / IZR w) (1 / IZR h) fbo1 fbo2.

Definition doubleOpt (P : FBO.t -> Prop) (v : option nat) (s : State) : Prop :=
  v = None \/ doubleHolds P v s.

Definition singleOpt (P : FBO.t -> Prop) (v : option FBO.t) : Prop :=
  v = None \/ singleHolds P v.

(** Each field is undefined or holds. *)
Record fieldsOpt (P : FBO.t -> Prop) (s : State) : Prop := {
  opt_dye : doubleOpt P (dye (fields s)) s;
  opt_velocity : doubleOpt P (velocity (fields s)) s;
  opt_divergence : singleOpt P (divergence (fields s));
  opt_curl : singleOpt P (curl (fields s));
  opt_pressure : doubleOpt P (pressure (fields s)) s
}.

(** The invariant from the end of [boot] on: as [Ready], but a field may
    still be undefined. *)
Record Booted (s : State) : Prop := {
  booted_linked : programsLinked s;
  booted_live : fieldsOpt (fboLive (gl_ s)) s;
  booted_fresh : glFresh (gl_ s);
  booted_texel : texelSizesDerived s
}.

(** What [initFramebuffers] keeps. *)
Definition KeptSettings (s s' : State) : Prop :=
  programs s' = programs s /\ config s' = config s /\
  supportLinearFiltering s' = supportLinearFiltering s /\
  displayMaterial s' = displayMaterial s /\
  canvas_width s' = canvas_width s /\ canvas_height s' = canvas_height s /\
  colorTimer s' = colorTimer s /\ timeAccumulator s' = timeAccumulator s /\
  lastUpdateTime s' = lastUpdateTime s.

(** Both components of a velocity lie in [[-1000, 1000]]. *)
Definition velocityBounded (c : vec4) : Prop :=
  -1000 <= v4x c <= 1000 /\ -1000 <= v4y c <= 1000.

(** The context as [blit] leaves it for the draw into an FBO. *)
Definition blitTarget (f : FBO.t) (g : GLState) : GLState :=
  gl.bindFramebuffer (Some (FBO.fbo f)) (gl.viewport (FBO.width f) (FBO.height f) g).

(** The centre of pixel [(i, j)] of a [w] by [h] target, in texture
    coordinates. *)
Definition pixelCentre (w h i j : Z) : vec2 :=
  Vec2 ((IZR i + 0.5) / IZR w) ((IZR j + 0.5) / IZR h).

(** [img'] is [img] resampled to [w] by [h] texels of format [f]: the
    content a resize keeps. *)
Definition resampled (img img' : TexImage) (w h : Z) (f : InternalFormat) : Prop :=
  tex_width img' = w /\ tex_height img' = h /\ tex_format img' = f /\
  forall i j, (0 <= i < w)%Z -> (0 <= j < h)%Z ->
    texels img' i j = storeTexel f (sampleTexture img (pixelCentre w h i j)).

(** Two hosts to run the script on. *)
Definition exampleHost : Host :=
  {| host_supportLinearFiltering := true; host_canvasWidth := 300; host_canvasHeight := 150;
     host_random := 0.25; host_now := 0 |}.

Definition otherHost : Host :=
  {| host_supportLinearFiltering := false; host_canvasWidth := 640; host_canvasHeight := 480;
     host_random := 0.25; host_now := 1000 |}.

(** A state with one double target of 4 by 4 texels at address [0], made
    on the context [exampleHost] boots with. *)
Definition exampleRead : FBO.t * GLState :=
  createFBO 4 4 RG16F RG HALF_FLOAT NEAREST (gl_ (boot exampleHost)).

Definition exampleWrite : FBO.t * GLState :=
  createFBO 4 4 RG16F RG HALF_FLOAT NEAREST exampleRead.2.

Definition exampleTarget : DoubleFBO.t :=
  DoubleFBO.mk 4 4 (1 / IZR 4) (1 / IZR 4) exampleRead.1 exampleWrite.1.

Definition exampleState : State :=
  set_heap (heap_alloc exampleTarget (heap (boot exampleHost))).2
    (set_gl exampleWrite.2 (boot exampleHost)).

(** ** Predicates of the frame loop *)

(** Every component of a colour lies within [[-M, M]]. *)
Definition v4bounded (M : R) (c : vec4) : Prop :=
  - M <= v4x c <= M /\ - M <= v4y c <= M /\ - M <= v4z c <= M /\ - M <= v4w c <= M.

(** [v.swap()] on the heap, for a variable that may be undefined. *)
Definition swapped (hp : Heap) (v : option nat) : Heap :=
  match v with
  | Some ref => heap_update DoubleFBO.swap ref hp
  | None => hp
  end.

(** The canvas has the same size in two states of the context. *)
Definition sameCanvasSize (g g' : GLState) : Prop :=
  drawingBufferWidth g' = drawingBufferWidth g /\
  drawingBufferHeight g' = drawingBufferHeight g.

(** What a pass does besides drawing: it keeps the variables and settings,
    creates no object of the context, reattaches no framebuffer, keeps the
    size of the canvas, and swaps the variables [vs] in turn. *)
Definition passEffect (vs : list (option nat)) (s s' : State) : Prop :=
  Kept s s' /\ heap s' = foldl swapped (heap s) vs /\
  gl_next (gl_ s') = gl_next (gl_ s) /\
  gl_framebuffers (gl_ s') = gl_framebuffers (gl_ s) /\
  sameCanvasSize (gl_ s) (gl_ s').

(** The variables [step] swaps, in turn. *)
Definition stepSwaps (s : State) : list (option nat) :=
  let fs := fields s in
  [velocity fs; pressure fs] ++
  replicate (Z.to_nat (PRESSURE_ITERATIONS (config s))) (pressure fs) ++
  [velocity fs; velocity fs; dye fs].

(** The state [autoSplat] splats on: the time accumulator and the colour
    timer advanced. *)
Definition advanceTimers (dt : R) (s : State) : State :=
  let s := set_timeAccumulator (timeAccumulator s + dt) s in
  set_colorTimer (nextColorTimer s) s.

(** The number of times [v] is swapped by [vs]. *)
Definition swapCount (v : option nat) (vs : list (option nat)) : nat :=
  length (filter (fun u => u = v) vs).

(** The three [DoubleFBO] variables hold three different objects of the
    heap, in the order of their creation. *)
Definition refsOrdered (s : State) : Prop :=
  exists a b c,
    dye (fields s) = Some a /\ velocity (fields s) = Some b /\ pressure (fields s) = Some c /\
    (a < b < c)%nat /\ (c < heap_next (heap s))%nat.

(** The same before [initFramebuffers] has run: both are undefined, or both
    are defined and in order. *)
Definition refsOpt (s : State) : Prop :=
  match dye (fields s), velocity (fields s) with
  | None, None => True
  | Some a, Some b => (a < b < heap_next (heap s))%nat
  | _, _ => False
  end.

(** An FBO of a given size; a [DoubleFBO] whose own size and both of whose
    FBOs' sizes are the given one. *)
Definition sized (wh : Z * Z) (f : FBO.t) : Prop := (FBO.width f, FBO.height f) = wh.

Definition doubleSized (wh : Z * Z) (d : DoubleFBO.t) : Prop :=
  (DoubleFBO.width d, DoubleFBO.height d) = wh /\
  sized wh (DoubleFBO.fbo1 d) /\ sized wh (DoubleFBO.fbo2 d).

(** Every [DoubleFBO] of the heap records the size its two FBOs have. *)
Definition heapCoherent (hp : Heap) : Prop :=
  forall ref d, heap_cells hp !! ref = Some d ->
    doubleSized (DoubleFBO.width d, DoubleFBO.height d) d.

(** The fields have the sizes [getResolution] gives for the canvas: the dye
    that of [DYE_RESOLUTION], the others that of [SIM_RESOLUTION]. *)
Record fieldsSized (s : State) : Prop := {
  sized_heap : heapCoherent (heap s);
  sized_dye :
    exists d, deref (dye (fields s)) s = Some d /\
      doubleSized (getResolution (DYE_RESOLUTION (config s)) (gl_ s)) d;
  sized_velocity :
    exists d, deref (velocity (fields s)) s = Some d /\
      doubleSized (getResolution (SIM_RESOLUTION (config s)) (gl_ s)) d;
  sized_divergence :
    exists f, divergence (fields s) = Some f /\
      sized (getResolution (SIM_RESOLUTION (config s)) (gl_ s)) f;
  sized_curl :
    exists f, curl (fields s) = Some f /\
      sized (getResolution (SIM_RESOLUTION (config s)) (gl_ s)) f;
  sized_pressure :
    exists d, deref (pressure (fields s)) s = Some d /\
      doubleSized (getResolution (SIM_RESOLUTION (config s)) (gl_ s)) d
}.

(** The settings the effect fixes before its first frame. *)
Definition settingsOf (host : Host) (s : State) : Prop :=
  programs s = programs (updateKeywords (boot host)) /\
  config s = resolveConfig (host_supportLinearFiltering host) /\
  supportLinearFiltering s = host_supportLinearFiltering host /\
  displayMaterial s = displayMaterial (updateKeywords (boot host)).

(** The invariant of the frames of the script run on [host]. *)
Record Running (host : Host) (s : State) : Prop := {
  running_ready : Ready s;
  running_settings : settingsOf host s;
  running_refs : refsOrdered s;
  running_sized : fieldsSized s
}.

(** What a frame leaves of the clocks and of the canvas. *)
Definition frameClocks (k : Tick) (s s' : State) : Prop :=
  lastUpdateTime s' = tick_now k /\
  timeAccumulator s' = timeAccumulator s + (calcDeltaTime (tick_now k) s).1 /\
  colorTimer s' = nextColorTimer s /\
  canvas_width s' = scaleByPixelRatio (tick_devicePixelRatio k) (tick_clientWidth k) /\
  canvas_height s' = scaleByPixelRatio (tick_devicePixelRatio k) (tick_clientHeight k).



(** [exampleState] with its [DoubleFBO] held by the variable [dye]. *)
Definition exampleScene : State :=
  set_fields (set_dye (Some 0%nat) (fields exampleState)) exampleState.

(** An environment with no texture bound, whose every uniform is the float
    [1]. *)
Definition exampleEnv : ShaderEnv :=
  {| env_uniform := fun _ => Some (U1f 1); env_unit := fun _ => None; env_defines := [] |}.

Definition exampleVaryings : Varyings :=
  baseVertexShader exampleEnv (Vec2 0.5 0.5).

(** ** Tactics *)

Ltac gl_proj :=
  cbn [gl_next gl_textures gl_framebuffers gl_shaders gl_programs gl_uniforms gl_active_unit
       gl_units gl_framebuffer gl_viewport gl_program gl_blend gl_blendFunc gl_clearColor
       gl_drawingBuffer set_gl_next set_gl_textures set_gl_framebuffers set_gl_shaders
       set_gl_programs set_gl_uniforms set_gl_active_unit set_gl_units set_gl_framebuffer
       set_gl_viewport set_gl_program set_gl_blend set_gl_blendFunc set_gl_clearColor
       set_gl_drawingBuffer fst snd].

Ltac vec_proj :=
  cbn [v2x v2y v3x v3y v3z v4x v4y v4z v4w v2add v2sub v2mul v2div v2scale v2dot
       v3add v3scale v3dot v4add v4scale v4xy v4rgb vUv vL vR vT vB] in *.

Ltac same_stores := repeat split; reflexivity.

Ltac read_double H d Hd :=
  destruct H as (d & Hd & _ & _); rewrite Hd; cbn [mbind option_bind].

Ltac read_single H :=
  let f := fresh "f" in let Hf := fresh "Hf" in
  destruct H as (f & Hf & _); rewrite ?Hf; cbn [mbind option_bind].

Ltac open_pass := unfold FBO_attach; cbv beta iota zeta.

Ltac fields_proj :=
  cbn [fields set_fields set_loading set_heap set_gl dye velocity divergence curl pressure
       set_dye set_velocity set_divergence set_curl set_pressure].

Ltac state_proj :=
  cbn [gl_ heap config supportLinearFiltering programs displayMaterial fields colorTimer
       timeAccumulator lastUpdateTime canvas_width canvas_height loading
       set_gl set_heap set_displayMaterial set_fields set_colorTimer set_timeAccumulator
       set_lastUpdateTime set_canvas_width set_canvas_height set_loading] in *.

Ltac open_some H :=
  repeat match type of H with
         | context [deref ?v ?s] =>
             let d := fresh "d" in destruct (deref v s) as [d|]; [|discriminate H]
         | context [mbind _ (curl ?f)] =>
             let c := fresh "c" in destruct (curl f) as [c|]; [|discriminate H]
         | context [mbind _ (divergence ?f)] =>
             let c := fresh "c" in destruct (divergence f) as [c|]; [|discriminate H]
         end;
  cbn [mbind option_bind] in H; unfold FBO_attach in H; cbv beta iota zeta in H.

(** Name the term bound by the [let] at the head of the left side of [H]. *)
Ltac step_let H :=
  lazymatch type of H with
  | (let x := ?e in @?b x) = ?r =>
      let y := fresh x in pose (y := e); change (b y = r) in H; cbv beta in H
  end.

(** * Proofs *)

(** ** Numbers and colours *)

Lemma Math_floor_bounds x : IZR (Math_floor x) <= x < IZR (Math_floor x) + 1.
Proof. unfold Math_floor. destruct (base_Int_part x). lra. Qed.

Lemma Math_floor_between (x : R) (lo hi : Z) :
  IZR lo <= x -> x < IZR hi + 1 -> (lo <= Math_floor x <= hi)%Z.
Proof.
  intros Hlo Hhi. destruct (Math_floor_bounds x) as [H1 H2]. split.
  - apply Z.lt_succ_r, lt_IZR. rewrite succ_IZR. lra.
  - apply Z.lt_succ_r, lt_IZR. rewrite succ_IZR. lra.
Qed.

Lemma hueOf_range t : 0.45 <= hueOf t <= 0.65.
Proof. unfold hueOf. pose proof (SIN_bound (t * PI * 2)). lra. Qed.

Lemma hue_sector h : 0.45 <= h <= 0.65 -> Math_floor (h * 6) = 2%Z \/ Math_floor (h * 6) = 3%Z.
Proof.
  intros Hh. assert (2 <= Math_floor (h * 6) <= 3)%Z by (apply Math_floor_between; lra). lia.
Qed.

Lemma HSVtoRGB_bluish h :
  0.45 <= h <= 0.65 ->
  exists c, HSVtoRGB h 0.4 0.2 = Some c /\
    0.12 <= RGB.r c <= 0.2 /\ 0.12 <= RGB.g c <= 0.2 /\ 0.12 <= RGB.b c <= 0.2.
Proof.
  intros Hh. unfold HSVtoRGB.
  pose proof (Math_floor_bounds (h * 6)) as Hf.
  destruct (hue_sector h Hh) as [E | E]; rewrite E in *.
  - change (Z.rem 2 6) with 2%Z. eexists. split; [reflexivity|]. cbn [RGB.r RGB.g RGB.b]. lra.
  - change (Z.rem 3 6) with 3%Z. eexists. split; [reflexivity|]. cbn [RGB.r RGB.g RGB.b]. lra.
Qed.

Lemma generateColor_fst s :
  fst (generateColor s) =
  (fun c => RGB.mk (RGB.r c * 0.15) (RGB.g c * 0.15) (RGB.b c * 0.15)) <$>
    HSVtoRGB (hueOf (nextColorTimer s)) 0.4 0.2.
Proof. reflexivity. Qed.

Lemma generateColor_bounds s :
  exists c, fst (generateColor s) = Some c /\
    0 <= RGB.r c <= 0.2 * 0.15 /\ 0 <= RGB.g c <= 0.2 * 0.15 /\ 0 <= RGB.b c <= 0.2 * 0.15.
Proof.
  destruct (HSVtoRGB_bluish _ (hueOf_range (nextColorTimer s))) as (c & Hc & Hr & Hg & Hb).
  rewrite generateColor_fst, Hc. eexists. split; [reflexivity|].
  cbn [RGB.r RGB.g RGB.b]. lra.
Qed.

Lemma calcDeltaTime_dt now s :
  fst (calcDeltaTime now s) = Rmin ((IZR now - IZR (lastUpdateTime s)) / 1000) 0.016666.
Proof. reflexivity. Qed.

Lemma createFBO_fst w h f fmt ty param g :
  (createFBO w h f fmt ty param g).1 =
  FBO.mk (gl_next g) (S (gl_next g)) w h (1 / IZR w) (1 / IZR h).
Proof. reflexivity. Qed.

Lemma createFBO_textures w h f fmt ty param g :
  gl_textures (createFBO w h f fmt ty param g).2 =
  <[gl_next g := clearedImage w h f param (gl_clearColor g)]> (gl_textures g).
Proof.
  unfold createFBO, gl.clear, gl.viewport, gl.framebufferTexture2D, gl.bindFramebuffer,
    gl.createFramebuffer, gl.texImage2D, gl.texParameteri, gl.bindTexture, gl.createTexture,
    gl.activeTexture, updateTarget, updateBoundTexture.
  gl_proj.
  repeat first [rewrite lookup_insert_eq | rewrite alter_insert_eq].
  reflexivity.
Qed.

Lemma createFBO_framebuffers w h f fmt ty param g :
  gl_framebuffers (createFBO w h f fmt ty param g).2 =
  <[S (gl_next g) := Some (gl_next g)]> (gl_framebuffers g).
Proof.
  unfold createFBO, gl.clear, gl.viewport, gl.framebufferTexture2D, gl.bindFramebuffer,
    gl.createFramebuffer, gl.texImage2D, gl.texParameteri, gl.bindTexture, gl.createTexture,
    gl.activeTexture, updateTarget, updateBoundTexture.
  gl_proj. by rewrite alter_insert_eq.
Qed.

Lemma createFBO_next w h f fmt ty param g :
  gl_next (createFBO w h f fmt ty param g).2 = S (S (gl_next g)).
Proof. reflexivity. Qed.

Lemma createFBO_same w h f fmt ty param g :
  let g' := (createFBO w h f fmt ty param g).2 in
  gl_shaders g' = gl_shaders g /\ gl_programs g' = gl_programs g /\
  gl_uniforms g' = gl_uniforms g /\ gl_clearColor g' = gl_clearColor g /\
  gl_drawingBuffer g' = gl_drawingBuffer g /\ gl_blend g' = gl_blend g /\
  gl_program g' = gl_program g.
Proof. repeat split; try reflexivity. Qed.

(** * Zero fields *)

Lemma zeroXY_intro a b c d : a = 0 -> b = 0 -> zeroXY (Vec4 a b c d).
Proof. intros -> ->. by split. Qed.

Lemma mix_zero a b t : zeroXY a -> zeroXY b -> zeroXY (mix a b t).
Proof.
  intros [Hax Hay] [Hbx Hby]. unfold mix, zeroXY. vec_proj. rewrite Hax, Hay, Hbx, Hby.
  split; lra.
Qed.

Lemma texelFetch_zero t i j : imageZero t -> zeroXY (texelFetch t i j).
Proof. intros H. apply H. Qed.

Lemma sampleTexture_zero t uv : imageZero t -> zeroXY (sampleTexture t uv).
Proof.
  intros H. unfold sampleTexture, sampleNearest, sampleLinear.
  destruct (tex_filter t); [apply texelFetch_zero, H|].
  repeat apply mix_zero; apply texelFetch_zero, H.
Qed.

(** In an environment whose textures are zero, every program of the solver
    draws zero. *)
Section ZeroEnvironment.

Variable e : ShaderEnv.
Hypothesis He : envZero e.

Lemma texture2D_zero n uv : zeroXY (texture2D e n uv).
Proof.
  unfold texture2D. destruct (env_unit e _) as [t|] eqn:E.
  - apply sampleTexture_zero. eapply He, E.
  - by split.
Qed.

Lemma bilerp_zero n uv ts : zeroXY (bilerp e n uv ts).
Proof. unfold bilerp. repeat apply mix_zero; apply texture2D_zero. Qed.

Lemma copyShader_zero v : zeroXY (copyShader e v).
Proof. apply texture2D_zero. Qed.

Lemma clearShader_zero v : zeroXY (clearShader e v).
Proof.
  unfold clearShader.
  destruct (texture2D_zero "uTexture" (vUv v)) as [Hx Hy].
  unfold zeroXY; vec_proj; split; [rewrite Hx | rewrite Hy]; lra.
Qed.

Lemma advectionShader_zero v : zeroXY (advectionShader e v).
Proof.
  unfold advectionShader.
  match goal with |- zeroXY (v4scale ?k ?r) => assert (zeroXY r) as [Hx Hy] end.
  { destruct (ifdef e "MANUAL_FILTERING"); [apply bilerp_zero | apply texture2D_zero]. }
  unfold zeroXY; vec_proj; split; [rewrite Hx | rewrite Hy]; lra.
Qed.

Lemma curlShader_zero v : zeroXY (curlShader e v).
Proof.
  unfold curlShader.
  destruct (texture2D_zero "uVelocity" (vL v)) as [_ HL].
  destruct (texture2D_zero "uVelocity" (vR v)) as [_ HR].
  destruct (texture2D_zero "uVelocity" (vT v)) as [HT _].
  destruct (texture2D_zero "uVelocity" (vB v)) as [HB _].
  unfold zeroXY; vec_proj; split; [rewrite HL, HR, HT, HB; lra | reflexivity].
Qed.

Lemma divergenceShader_zero v : zeroXY (divergenceShader e v).
Proof.
  unfold divergenceShader.
  destruct (texture2D_zero "uVelocity" (vL v)) as [HL _].
  destruct (texture2D_zero "uVelocity" (vR v)) as [HR _].
  destruct (texture2D_zero "uVelocity" (vT v)) as [_ HT].
  destruct (texture2D_zero "uVelocity" (vB v)) as [_ HB].
  destruct (texture2D_zero "uVelocity" (vUv v)) as [HCx HCy].
  unfold zeroXY; vec_proj; split; [|reflexivity].
  rewrite HL, HR, HT, HB, HCx, HCy.
  destruct (Rlt_dec _ _), (Rgt_dec _ _), (Rgt_dec _ _), (Rlt_dec _ _); lra.
Qed.

Lemma vorticityForce_zero v : vorticityForce e v = Vec2 0 0.
Proof.
  unfold vorticityForce, curlGradient.
  destruct (texture2D_zero "uCurl" (vL v)) as [HL _].
  destruct (texture2D_zero "uCurl" (vR v)) as [HR _].
  destruct (texture2D_zero "uCurl" (vT v)) as [HT _].
  destruct (texture2D_zero "uCurl" (vB v)) as [HB _].
  destruct (texture2D_zero "uCurl" (vUv v)) as [HC _].
  rewrite HL, HR, HT, HB, HC. vec_proj. f_equal; lra.
Qed.

Lemma vorticityShader_zero v : zeroXY (vorticityShader e v).
Proof.
  unfold vorticityShader. rewrite (vorticityForce_zero v).
  destruct (texture2D_zero "uVelocity" (vUv v)) as [Hx Hy].
  unfold zeroXY; vec_proj. rewrite Hx, Hy.
  replace (0 + uniformFloat e "dt" * 0) with 0 by lra.
  rewrite Rmax_left by lra. rewrite Rmin_left by lra. by split.
Qed.

Lemma pressureShader_zero v : zeroXY (pressureShader e v).
Proof.
  unfold pressureShader.
  destruct (texture2D_zero "uPressure" (vL v)) as [HL _].
  destruct (texture2D_zero "uPressure" (vR v)) as [HR _].
  destruct (texture2D_zero "uPressure" (vT v)) as [HT _].
  destruct (texture2D_zero "uPressure" (vB v)) as [HB _].
  destruct (texture2D_zero "uDivergence" (vUv v)) as [HD _].
  unfold zeroXY; vec_proj; split; [rewrite HL, HR, HT, HB, HD; lra | reflexivity].
Qed.

Lemma gradientSubtractShader_zero v : zeroXY (gradientSubtractShader e v).
Proof.
  unfold gradientSubtractShader.
  destruct (texture2D_zero "uPressure" (vL v)) as [HL _].
  destruct (texture2D_zero "uPressure" (vR v)) as [HR _].
  destruct (texture2D_zero "uPressure" (vT v)) as [HT _].
  destruct (texture2D_zero "uPressure" (vB v)) as [HB _].
  destruct (texture2D_zero "uVelocity" (vUv v)) as [Hx Hy].
  unfold zeroXY; vec_proj; split; [rewrite HL, HR, Hx | rewrite HT, HB, Hy]; lra.
Qed.

Lemma fragmentMain_zero t v : zeroPreserving t = true -> zeroXY (fragmentMain t e v).
Proof.
  intros Ht. destruct t; try discriminate Ht; cbn [fragmentMain].
  - apply copyShader_zero.
  - apply clearShader_zero.
  - apply advectionShader_zero.
  - apply divergenceShader_zero.
  - apply curlShader_zero.
  - apply vorticityShader_zero.
  - apply pressureShader_zero.
  - apply gradientSubtractShader_zero.
Qed.

End ZeroEnvironment.

Lemma storeTexel_zero f c : zeroXY c -> zeroXY (storeTexel f c).
Proof.
  intros [Hx Hy]. destruct f; unfold zeroXY; cbn [storeTexel v4x v4y]; rewrite ?Hx, ?Hy;
    try (by split).
  unfold clamp. rewrite Rmax_left by lra. rewrite Rmin_left by lra. by split.
Qed.

Lemma blendColor_zero g src dst : zeroXY src -> zeroXY dst -> zeroXY (blendColor g src dst).
Proof.
  intros [Hsx Hsy] [Hdx Hdy]. unfold blendColor. destruct (gl_blend g); [|by split].
  unfold zeroXY. vec_proj. rewrite Hsx, Hsy, Hdx, Hdy. split; lra.
Qed.

Lemma shaderEnv_zero g p ds : Zero g -> envZero (shaderEnv g p ds).
Proof.
  intros [_ H] u t. cbn [shaderEnv env_unit].
  destruct (gl_units g !! u) as [k|]; [|discriminate]. cbn. apply H.
Qed.

Lemma drawImage_zero g img : Zero g -> drawsZero g -> imageZero img -> imageZero (drawImage g img).
Proof.
  intros HZ HD Himg. unfold drawImage.
  destruct (gl_program g) as [p|] eqn:Ep; [|exact Himg].
  destruct (fragmentSourceOf g p) as [src|] eqn:Es; [|exact Himg].
  intros i j. cbn [texels]. destruct (inViewport g img i j); [|apply Himg].
  apply storeTexel_zero, blendColor_zero; [|apply Himg].
  apply fragmentMain_zero; [by apply shaderEnv_zero | by eapply HD].
Qed.

Lemma clearImage_zero g img : Zero g -> imageZero (clearImage g img).
Proof. intros [H _] i j. cbn [clearImage texels]. by apply storeTexel_zero. Qed.

Lemma updateTarget_clearColor f g : gl_clearColor (updateTarget f g) = gl_clearColor g.
Proof. reflexivity. Qed.

Lemma updateTarget_textures_lookup f g t :
  gl_textures (updateTarget f g) !! t = gl_textures g !! t \/
  exists img, gl_textures g !! t = Some img /\ gl_textures (updateTarget f g) !! t = Some (f img).
Proof.
  unfold updateTarget. gl_proj.
  destruct (gl_framebuffer g) as [fb|]; [|by left].
  destruct (gl_framebuffers g !! fb) as [[k|]|]; [|by left|by left].
  destruct (decide (k = t)) as [->|Hne].
  - rewrite lookup_alter_eq. destruct (gl_textures g !! t) as [img|]; [right; eauto | by left].
  - left. by rewrite lookup_alter_ne.
Qed.

Lemma updateTarget_zero f g :
  Zero g -> (forall img, imageZero img -> imageZero (f img)) -> Zero (updateTarget f g).
Proof.
  intros [Hc Ht] Hf. split; [exact Hc|]. intros t img Hl.
  destruct (updateTarget_textures_lookup f g t) as [E | (img0 & E0 & E)]; rewrite E in Hl.
  - by eapply Ht.
  - injection Hl as <-. eapply Hf, Ht, E0.
Qed.

Lemma drawElements_zero g : Zero g -> drawsZero g -> Zero (gl.drawElements g).
Proof. intros HZ HD. apply updateTarget_zero; [exact HZ|]. intros img. by apply drawImage_zero. Qed.

Lemma blit_zero target g : Zero g -> drawsZero g -> Zero (blit target false g).
Proof.
  intros HZ HD. unfold blit. apply drawElements_zero.
  - destruct target; exact HZ.
  - destruct target; exact HD.
Qed.

Lemma createFBO_zero w h f fmt ty param g : Zero g -> Zero (createFBO w h f fmt ty param g).2.
Proof.
  intros [Hc Ht]. split; [exact Hc|]. intros t img. rewrite createFBO_textures.
  destruct (decide (gl_next g = t)) as [<-|Hne].
  - rewrite lookup_insert_eq. intros [= <-]. intros i j. by apply storeTexel_zero.
  - rewrite lookup_insert_ne by done. apply Ht.
Qed.

(** * What a pass of the solver keeps *)

Lemma fragmentSourceOf_same g g' p :
  gl_programs g' = gl_programs g -> gl_shaders g' = gl_shaders g ->
  fragmentSourceOf g' p = fragmentSourceOf g p.
Proof. intros Hp Hs. unfold fragmentSourceOf. by rewrite Hp, Hs. Qed.

Lemma hasText_same g g' P t :
  gl_programs g' = gl_programs g -> gl_shaders g' = gl_shaders g ->
  hasText g P t -> hasText g' P t.
Proof. intros Hp Hs (src & H1 & H2). exists src. by rewrite (fragmentSourceOf_same g g'). Qed.

Lemma programsLinked_same s s' :
  gl_programs (gl_ s') = gl_programs (gl_ s) -> gl_shaders (gl_ s') = gl_shaders (gl_ s) ->
  programs s' = programs s -> programsLinked s -> programsLinked s'.
Proof.
  intros Hp Hs HP []. split; rewrite HP; by eapply hasText_same.
Qed.

Lemma updateTarget_live F g f :
  (forall img, tex_width (F img) = tex_width img /\ tex_height (F img) = tex_height img) ->
  fboLive g f -> fboLive (updateTarget F g) f.
Proof.
  intros HF [Hfb (img & Hl & Hw & Hh)]. split; [exact Hfb|].
  destruct (updateTarget_textures_lookup F g (FBO.texture f)) as [E | (img0 & E0 & E)].
  - exists img. by rewrite E.
  - rewrite Hl in E0. injection E0 as <-. exists (F img). destruct (HF img) as [-> ->]. done.
Qed.

Lemma updateTarget_fresh F g : glFresh g -> glFresh (updateTarget F g).
Proof.
  intros [Ht Hf]. split; [|exact Hf]. intros t Hs. apply Ht.
  destruct (updateTarget_textures_lookup F g t) as [E | (img0 & E0 & E)].
  - by rewrite <- E.
  - by rewrite E0.
Qed.

Lemma drawImage_shape g img :
  tex_width (drawImage g img) = tex_width img /\ tex_height (drawImage g img) = tex_height img.
Proof.
  unfold drawImage. destruct (gl_program g) as [p|]; [|done].
  by destruct (fragmentSourceOf g p).
Qed.

Lemma blit_live target g f : fboLive g f -> fboLive (blit target false g) f.
Proof.
  intros H. unfold blit, gl.drawElements. apply updateTarget_live.
  - apply drawImage_shape.
  - destruct target; exact H.
Qed.

Lemma blit_fresh target g : glFresh g -> glFresh (blit target false g).
Proof.
  intros H. unfold blit, gl.drawElements. apply updateTarget_fresh. destruct target; exact H.
Qed.

Lemma blit_sameObjects target g :
  gl_programs (blit target false g) = gl_programs g /\
  gl_shaders (blit target false g) = gl_shaders g /\
  gl_clearColor (blit target false g) = gl_clearColor g /\
  gl_program (blit target false g) = gl_program g /\
  gl_framebuffers (blit target false g) = gl_framebuffers g /\
  gl_blend (blit target false g) = gl_blend g /\
  gl_next (blit target false g) = gl_next g.
Proof. destruct target; repeat split; reflexivity. Qed.

Lemma fboLive_same g g' f :
  gl_textures g' = gl_textures g -> gl_framebuffers g' = gl_framebuffers g ->
  fboLive g f -> fboLive g' f.
Proof. intros Ht Hf. unfold fboLive. by rewrite Ht, Hf. Qed.

Lemma glFresh_same g g' :
  gl_textures g' = gl_textures g -> gl_framebuffers g' = gl_framebuffers g ->
  gl_next g' = gl_next g -> glFresh g -> glFresh g'.
Proof. intros Ht Hf Hn. unfold glFresh. by rewrite Ht, Hf, Hn. Qed.

Lemma doubleHolds_impl (P Q : FBO.t -> Prop) v s s' :
  (forall f, P f -> Q f) -> heap s' = heap s -> doubleHolds P v s -> doubleHolds Q v s'.
Proof.
  intros HPQ Hh (d & Hd & H1 & H2). exists d. unfold deref in *. rewrite Hh. auto.
Qed.

Lemma singleHolds_impl (P Q : FBO.t -> Prop) v :
  (forall f, P f -> Q f) -> singleHolds P v -> singleHolds Q v.
Proof. intros HPQ (f & Hf & H). exists f. auto. Qed.

Lemma fieldsHold_impl (P Q : FBO.t -> Prop) s s' :
  (forall f, P f -> Q f) -> heap s' = heap s -> fields s' = fields s ->
  fieldsHold P s -> fieldsHold Q s'.
Proof.
  intros HPQ Hh Hf [H1 H2 H3 H4 H5]. split; rewrite Hf;
    eauto using doubleHolds_impl, singleHolds_impl.
Qed.

(** The invariant after calls that change no object. *)
Lemma sameStores_ready s pre :
  sameStores (gl_ s) pre -> Ready s -> Ready (set_gl pre s).
Proof.
  intros (Ht & Hf & Hp & Hs & Hc & Hn) [HL HV HF HT]. split.
  - by eapply programsLinked_same.
  - apply (fieldsHold_impl (fboLive (gl_ s)) _ s); [|reflexivity|reflexivity|exact HV].
    intros f H. by eapply fboLive_same.
  - by eapply glFresh_same.
  - exact HT.
Qed.

(** The invariant after a draw. *)
Lemma blit_ready s target : Ready s -> Ready (set_gl (blit target false (gl_ s)) s).
Proof.
  intros [HL HV HF HT].
  destruct (blit_sameObjects target (gl_ s)) as (Bp & Bs & _ & _ & Bf & _).
  split.
  - by eapply programsLinked_same.
  - apply (fieldsHold_impl (fboLive (gl_ s)) _ s); [|reflexivity|reflexivity|exact HV].
    intros f H. by apply blit_live.
  - by apply blit_fresh.
  - exact HT.
Qed.

Lemma drawsZero_text g p P t :
  gl_program g = Some p -> p = GLProgram.program P -> hasText g P t ->
  zeroPreserving t = true -> drawsZero g.
Proof.
  intros Hp -> (src & Hs & Ht) Hz q src' Hq Hs'. rewrite Hp in Hq. injection Hq as <-.
  rewrite Hs in Hs'. injection Hs' as <-. by rewrite Ht.
Qed.

Lemma Zero_same g g' :
  gl_textures g' = gl_textures g -> gl_clearColor g' = gl_clearColor g -> Zero g -> Zero g'.
Proof. intros Ht Hc. unfold Zero. by rewrite Ht, Hc. Qed.

(** [v.swap()] *)
Lemma swapOf_spec v s d :
  deref v s = Some d ->
  exists ref, v = Some ref /\
    swapOf v s = Some (set_heap (heap_update DoubleFBO.swap ref (heap s)) s).
Proof.
  unfold deref, swapOf. destruct v as [ref|]; [|discriminate]. cbn. intros ->. eauto.
Qed.

Lemma deref_heap_update F ref v s :
  deref v (set_heap (heap_update F ref (heap s)) s) =
  (if bool_decide (v = Some ref) then F <$> deref v s else deref v s).
Proof.
  unfold deref. destruct v as [r|]; cbn; [|by case_bool_decide].
  case_bool_decide as E.
  - injection E as ->. apply lookup_alter_eq.
  - apply lookup_alter_ne. congruence.
Qed.

Lemma doubleHolds_swap P v s ref :
  doubleHolds P v s ->
  doubleHolds P v (set_heap (heap_update DoubleFBO.swap ref (heap s)) s).
Proof.
  intros (d & Hd & H1 & H2).
  unfold doubleHolds. rewrite deref_heap_update, Hd. case_bool_decide.
  - exists (DoubleFBO.swap d). by destruct d.
  - by exists d.
Qed.

Lemma swap_texelSizeDerived d :
  doubleTexelSizeDerived d -> doubleTexelSizeDerived (DoubleFBO.swap d).
Proof. intros (H1 & H2 & H3 & H4). by destruct d. Qed.

Lemma swapped_texel s ref :
  texelSizesDerived s ->
  texelSizesDerived (set_heap (heap_update DoubleFBO.swap ref (heap s)) s).
Proof.
  intros (Hh & Hd & Hc). split; [|by split].
  intros r d. cbn [heap set_heap heap_update heap_cells]. rewrite lookup_alter.
  case_decide as E.
  - subst r. destruct (heap_cells (heap s) !! ref) as [d0|] eqn:E0; cbn; [|intros; discriminate].
    intros [= <-]. apply swap_texelSizeDerived. by eapply Hh.
  - apply Hh.
Qed.

Lemma swapped_ready s ref :
  Ready s -> Ready (set_heap (heap_update DoubleFBO.swap ref (heap s)) s).
Proof.
  intros [HL [H1 H2 H3 H4 H5] HF HT]. split.
  - destruct HL. by split.
  - split; cbn [fields set_heap]; try done; by apply doubleHolds_swap.
  - exact HF.
  - by apply swapped_texel.
Qed.

Lemma Kept_refl s : Kept s s.
Proof. by repeat split. Qed.

Lemma Kept_trans s1 s2 s3 : Kept s1 s2 -> Kept s2 s3 -> Kept s1 s3.
Proof. unfold Kept. intros H1 H2. decompose [and] H1. decompose [and] H2. repeat split; congruence. Qed.

(** A pass that draws with program [P] into [target], after calls that
    change no object. *)
Lemma draw_pass s pre target P t :
  Ready s -> sameStores (gl_ s) pre ->
  gl_program pre = Some (GLProgram.program P) -> hasText (gl_ s) P t ->
  zeroPreserving t = true ->
  let s' := set_gl (blit target false pre) s in
  Ready s' /\ Kept s s' /\ (Zero (gl_ s) -> Zero (gl_ s')) /\
  gl_program (gl_ s') = Some (GLProgram.program P).
Proof.
  intros HR HS Hprog Htext Hzp s'. split; [|split; [|split]].
  - exact (blit_ready (set_gl pre s) target (sameStores_ready s pre HS HR)).
  - by repeat split.
  - intros HZ. destruct HS as (Ht & Hf & Hp & Hs & Hc & Hn).
    apply blit_zero; [by eapply Zero_same|].
    eapply drawsZero_text; [exact Hprog|reflexivity| |exact Hzp].
    by eapply hasText_same.
  - destruct (blit_sameObjects target pre) as (_ & _ & _ & E & _). cbn [s' gl_ set_gl].
    by rewrite E.
Qed.

(** The same pass followed by [v.swap()]. *)
Lemma swap_pass s pre target v d P t :
  Ready s -> sameStores (gl_ s) pre -> deref v s = Some d ->
  gl_program pre = Some (GLProgram.program P) -> hasText (gl_ s) P t ->
  zeroPreserving t = true ->
  exists s', swapOf v (set_gl (blit target false pre) s) = Some s' /\
    Ready s' /\ Kept s s' /\ (Zero (gl_ s) -> Zero (gl_ s')) /\
    gl_program (gl_ s') = Some (GLProgram.program P).
Proof.
  intros HR HS Hd Hprog Htext Hzp.
  destruct (draw_pass s pre target P t HR HS Hprog Htext Hzp) as (R & K & Z & G).
  destruct (swapOf_spec v (set_gl (blit target false pre) s) d Hd) as (ref & -> & ->).
  eexists. split; [reflexivity|]. split; [by apply swapped_ready|].
  split; [exact K|]. split; [exact Z|exact G].
Qed.

Lemma curlPass_spec s : Ready s -> passSpec curlPass s (curlProgram (programs s)).
Proof.
  intros HR. pose proof HR as [HL HV _ _]. unfold passSpec, curlPass.
  read_double (holds_velocity _ _ HV) d Hd. open_pass.
  eexists. split; [reflexivity|].
  by eapply draw_pass; [|same_stores|reflexivity|apply HL|].
Qed.

Lemma vorticityPass_spec dt s :
  Ready s -> passSpec (vorticityPass dt) s (vorticityProgram (programs s)).
Proof.
  intros HR. pose proof HR as [HL HV _ _]. unfold passSpec, vorticityPass.
  read_double (holds_velocity _ _ HV) d Hd. read_single (holds_curl _ _ HV). open_pass.
  by eapply swap_pass; [|same_stores|exact Hd|reflexivity|apply HL|].
Qed.

Lemma divergencePass_spec s :
  Ready s -> passSpec divergencePass s (divergenceProgram (programs s)).
Proof.
  intros HR. pose proof HR as [HL HV _ _]. unfold passSpec, divergencePass.
  read_double (holds_velocity _ _ HV) d Hd. open_pass.
  eexists. split; [reflexivity|].
  by eapply draw_pass; [|same_stores|reflexivity|apply HL|].
Qed.

Lemma clearPass_spec s : Ready s -> passSpec clearPass s (clearProgram (programs s)).
Proof.
  intros HR. pose proof HR as [HL HV _ _]. unfold passSpec, clearPass.
  read_double (holds_pressure _ _ HV) d Hd. open_pass.
  by eapply swap_pass; [|same_stores|exact Hd|reflexivity|apply HL|].
Qed.

Lemma pressureIteration_spec s :
  Ready s -> gl_program (gl_ s) = Some (GLProgram.program (pressureProgram (programs s))) ->
  passSpec pressureIteration s (pressureProgram (programs s)).
Proof.
  intros HR Hprog. pose proof HR as [HL HV _ _]. unfold passSpec, pressureIteration.
  read_double (holds_pressure _ _ HV) d Hd. open_pass.
  by eapply swap_pass; [|same_stores|exact Hd|exact Hprog|apply HL|].
Qed.

Lemma pressureLoop_spec n s :
  Ready s -> gl_program (gl_ s) = Some (GLProgram.program (pressureProgram (programs s))) ->
  passSpec (pressureLoop n) s (pressureProgram (programs s)).
Proof.
  revert s. induction n as [|n IH]; intros s HR Hprog.
  - exists s. cbn [pressureLoop]. split; [done|]. split; [done|]. split; [apply Kept_refl|]. done.
  - destruct (pressureIteration_spec s HR Hprog) as (s1 & E1 & R1 & K1 & Z1 & P1).
    assert (programs s1 = programs s) as EP by apply K1.
    destruct (IH s1 R1) as (s2 & E2 & R2 & K2 & Z2 & P2); [by rewrite EP|].
    exists s2. cbn [pressureLoop]. rewrite E1. cbn [mbind option_bind].
    split; [exact E2|]. split; [exact R2|]. split; [by eapply Kept_trans|].
    split; [auto|]. by rewrite <- EP.
Qed.

Lemma pressurePass_spec s : Ready s -> passSpec pressurePass s (pressureProgram (programs s)).
Proof.
  intros HR. pose proof HR as [HL HV _ _]. unfold passSpec, pressurePass.
  read_double (holds_velocity _ _ HV) d Hd. read_single (holds_divergence _ _ HV). open_pass.
  match goal with
  | |- context [pressureLoop ?n (set_gl ?pre s)] =>
      destruct (pressureLoop_spec n (set_gl pre s)
                  (sameStores_ready s pre ltac:(same_stores) HR) eq_refl)
        as (s' & E & R & K & Z & P)
  end.
  exists s'. split; [exact E|]. split; [exact R|]. split; [exact K|]. split; [exact Z|exact P].
Qed.

Lemma gradientSubtractPass_spec s :
  Ready s -> passSpec gradientSubtractPass s (gradienSubtractProgram (programs s)).
Proof.
  intros HR. pose proof HR as [HL HV _ _]. unfold passSpec, gradientSubtractPass.
  read_double (holds_velocity _ _ HV) d Hd. read_double (holds_pressure _ _ HV) dp Hp.
  open_pass.
  by eapply swap_pass; [|same_stores|exact Hd|reflexivity|apply HL|].
Qed.

Lemma advectVelocityPass_spec dt s :
  Ready s -> passSpec (advectVelocityPass dt) s (advectionProgram (programs s)).
Proof.
  intros HR. pose proof HR as [HL HV _ _]. unfold passSpec, advectVelocityPass.
  read_double (holds_velocity _ _ HV) d Hd. open_pass.
  destruct (supportLinearFiltering s); cbn [negb];
    by eapply swap_pass; [|same_stores|exact Hd|reflexivity|apply HL|].
Qed.

Lemma advectDyePass_spec s :
  Ready s -> gl_program (gl_ s) = Some (GLProgram.program (advectionProgram (programs s))) ->
  passSpec advectDyePass s (advectionProgram (programs s)).
Proof.
  intros HR Hprog. pose proof HR as [HL HV _ _]. unfold passSpec, advectDyePass.
  read_double (holds_velocity _ _ HV) dv Hv. read_double (holds_dye _ _ HV) d Hd. open_pass.
  destruct (supportLinearFiltering s); cbn [negb];
    by eapply swap_pass; [|same_stores|exact Hd|exact Hprog|apply HL|].
Qed.

(** Sequencing two passes. *)
Lemma passSpec_bind (p1 p2 : State -> option State) s P1 P2 :
  passSpec p1 s P1 ->
  (forall s1, Ready s1 -> Kept s s1 -> gl_program (gl_ s1) = Some (GLProgram.program P1) ->
     passSpec p2 s1 P2) ->
  passSpec (fun s => s1 ← p1 s; p2 s1) s P2.
Proof.
  intros (s1 & E1 & R1 & K1 & Z1 & G1) H2.
  destruct (H2 s1 R1 K1 G1) as (s2 & E2 & R2 & K2 & Z2 & G2).
  exists s2. rewrite E1. cbn [mbind option_bind].
  split; [exact E2|]. split; [exact R2|]. split; [by eapply Kept_trans|]. split; [auto|exact G2].
Qed.

Lemma step_spec dt s : Ready s -> passSpec (step dt) s (advectionProgram (programs s)).
Proof.
  intros HR. unfold step.
  set (s0 := set_gl (gl.disable BLEND (gl_ s)) s).
  assert (Ready s0) as HR0 by (apply sameStores_ready; [same_stores|exact HR]).
  assert (passSpec
    (fun s => s ← curlPass s; s ← vorticityPass dt s; s ← divergencePass s; s ← clearPass s;
              s ← pressurePass s; s ← gradientSubtractPass s; s ← advectVelocityPass dt s;
              advectDyePass s) s0 (advectionProgram (programs s0))) as H.
  { eapply passSpec_bind; [by apply curlPass_spec|]. intros s1 R1 K1 _.
    eapply passSpec_bind; [by apply vorticityPass_spec|]. intros s2 R2 K2 _.
    eapply passSpec_bind; [by apply divergencePass_spec|]. intros s3 R3 K3 _.
    eapply passSpec_bind; [by apply clearPass_spec|]. intros s4 R4 K4 _.
    eapply passSpec_bind; [by apply pressurePass_spec|]. intros s5 R5 K5 _.
    eapply passSpec_bind; [by apply gradientSubtractPass_spec|]. intros s6 R6 K6 _.
    eapply passSpec_bind; [by apply advectVelocityPass_spec|]. intros s7 R7 K7 G7.
    assert (programs s7 = programs s0) as EP.
    { transitivity (programs s6); [apply K7|]. transitivity (programs s5); [apply K6|].
      transitivity (programs s4); [apply K5|]. transitivity (programs s3); [apply K4|].
      transitivity (programs s2); [apply K3|]. transitivity (programs s1); [apply K2|].
      apply K1. }
    assert (programs s7 = programs s6) as EP' by apply K7.
    rewrite <- EP. apply advectDyePass_spec; [exact R7|by rewrite EP']. }
  destruct H as (s' & E & R & K & Z & G). exists s'.
  split; [exact E|]. split; [exact R|]. split; [|split; [exact Z|exact G]].
  eapply Kept_trans; [|exact K]. by repeat split.
Qed.

(** * Creating and resizing render targets *)

Lemma glExtends_refl g : glFresh g -> glExtends g g.
Proof. by split. Qed.

Lemma glExtends_trans g1 g2 g3 : glExtends g1 g2 -> glExtends g2 g3 -> glExtends g1 g3.
Proof.
  intros [A1 A2 A3 A4 A5 A6] [B1 B2 B3 B4 B5 B6]. split; auto; try congruence. lia.
Qed.

Lemma fboLive_bounds g f :
  glFresh g -> fboLive g f -> (FBO.texture f < gl_next g)%nat /\ (FBO.fbo f < gl_next g)%nat.
Proof.
  intros [Ht Hf] [Hfb (img & Hl & _)]. split; [apply Ht | apply Hf]; by eexists.
Qed.

Lemma createFBO_live_new w h f fmt ty param g :
  fboLive (createFBO w h f fmt ty param g).2 (createFBO w h f fmt ty param g).1.
Proof.
  unfold fboLive. rewrite createFBO_textures, createFBO_framebuffers, createFBO_fst.
  cbn [FBO.fbo FBO.texture FBO.width FBO.height]. rewrite !lookup_insert_eq.
  split; [done|]. by eexists.
Qed.

Lemma createFBO_extends w h f fmt ty param g :
  glFresh g -> glExtends g (createFBO w h f fmt ty param g).2.
Proof.
  intros HF. split.
  - intros f0 H0. destruct (fboLive_bounds g f0 HF H0) as [Bt Bf].
    destruct H0 as [Hfb (img & Hl & Hw & Hh)]. unfold fboLive.
    rewrite createFBO_textures, createFBO_framebuffers.
    rewrite !lookup_insert_ne by lia. split; [done|]. by exists img.
  - destruct HF as [Ht Hf]. split; intros k;
      rewrite ?createFBO_textures, ?createFBO_framebuffers, createFBO_next;
      rewrite lookup_insert_is_Some; intros [<-|[_ Hk]]; try lia.
    + specialize (Ht _ Hk). lia.
    + specialize (Hf _ Hk). lia.
  - reflexivity.
  - reflexivity.
  - apply createFBO_zero.
  - rewrite createFBO_next. lia.
Qed.

Lemma createFBO_texelSize w h f fmt ty param g :
  texelSizeDerived (createFBO w h f fmt ty param g).1.
Proof. split; reflexivity. Qed.

(** [resizeFBO] returns the FBO [createFBO] makes. *)
Lemma resizeFBO_fst P target w h f fmt ty param g :
  (resizeFBO P target w h f fmt ty param g).1 = (createFBO w h f fmt ty param g).1.
Proof.
  unfold resizeFBO. destruct (createFBO w h f fmt ty param g) as [new g1].
  unfold FBO_attach. cbv beta iota zeta. reflexivity.
Qed.

Lemma resizeFBO_extends P target w h f fmt ty param g :
  glFresh g -> hasText g P copyShaderText ->
  glExtends g (resizeFBO P target w h f fmt ty param g).2 /\
  fboLive (resizeFBO P target w h f fmt ty param g).2 (resizeFBO P target w h f fmt ty param g).1.
Proof.
  intros HF HT.
  pose proof (createFBO_extends w h f fmt ty param g HF) as HE.
  pose proof (createFBO_live_new w h f fmt ty param g) as HN.
  unfold resizeFBO.
  destruct (createFBO w h f fmt ty param g) as [new g1]. 
  cbn [fst snd] in HE, HN.
  unfold FBO_attach. 
  cbv beta iota zeta. 
  cbn [fst snd].
  match goal with
  | |- glExtends g (blit ?tg false ?pre) /\ _ => set (pre1 := pre)
  end.
  assert (gl_textures pre1 = gl_textures g1 /\ gl_framebuffers pre1 = gl_framebuffers g1 /\
          gl_programs pre1 = gl_programs g1 /\ gl_shaders pre1 = gl_shaders g1 /\
          gl_clearColor pre1 = gl_clearColor g1 /\ gl_next pre1 = gl_next g1 /\
          gl_program pre1 = Some (GLProgram.program P)) as (Et & Ef & Ep & Es & Ec & En & Eprog)
    by (repeat split; reflexivity).
  destruct (blit_sameObjects (Some new) pre1) as (Bp & Bs & Bc & Bprog & Bf & Bb & Bn).
  destruct HE as [L1 F1 P1 S1 Z1 N1].
  split; [split|].
  - intros f0 H0. apply blit_live. eapply fboLive_same; [exact Et|exact Ef|]. by apply L1.
  - apply blit_fresh. by eapply glFresh_same.
  - congruence.
  - congruence.
  - intros HZ. apply blit_zero; [eapply Zero_same; [exact Et|exact Ec|by apply Z1]|].
    eapply (drawsZero_text _ _ P copyShaderText); [exact Eprog|reflexivity| |reflexivity].
    eapply hasText_same; [| |exact HT]; congruence.
  - rewrite Bn, En. exact N1.
  - apply blit_live. by eapply fboLive_same.
Qed.

Lemma doubleOf_texelSize w h fbo1 fbo2 :
  texelSizeDerived fbo1 -> texelSizeDerived fbo2 ->
  doubleTexelSizeDerived (doubleOf w h fbo1 fbo2).
Proof. intros H1 H2. repeat split; try apply H1; try apply H2. Qed.

Lemma createDoubleFBO_spec w h f fmt ty param g hp :
  exists fbo1 fbo2 g2,
    createDoubleFBO w h f fmt ty param g hp =
      (heap_next hp, g2,
       {| heap_next := S (heap_next hp);
          heap_cells := <[heap_next hp := doubleOf w h fbo1 fbo2]> (heap_cells hp) |}) /\
    texelSizeDerived fbo1 /\ texelSizeDerived fbo2 /\
    FBO.width fbo1 = w /\ FBO.height fbo1 = h /\ FBO.width fbo2 = w /\ FBO.height fbo2 = h /\
    (glFresh g -> glExtends g g2 /\ doubleLive g2 (doubleOf w h fbo1 fbo2)).
Proof.
  unfold createDoubleFBO, heap_alloc.
  pose proof (createFBO_fst w h f fmt ty param g) as E1.
  pose proof (createFBO_live_new w h f fmt ty param g) as N1.
  pose proof (createFBO_extends w h f fmt ty param g) as X1.
  destruct (createFBO w h f fmt ty param g) as [fbo1 g1]. cbn [fst snd] in *.
  pose proof (createFBO_fst w h f fmt ty param g1) as E2.
  pose proof (createFBO_live_new w h f fmt ty param g1) as N2.
  pose proof (createFBO_extends w h f fmt ty param g1) as X2.
  destruct (createFBO w h f fmt ty param g1) as [fbo2 g2]. cbn [fst snd] in *.
  exists fbo1, fbo2, g2. split.
  - rewrite E1 at 1 2. reflexivity.
  - subst fbo1 fbo2. do 2 (split; [split; reflexivity|]). do 4 (split; [reflexivity|]).
    intros HF. specialize (X1 HF). specialize (X2 (ext_fresh _ _ X1)).
    split; [by eapply glExtends_trans|]. split; [by apply (ext_live _ _ X2)|exact N2].
Qed.

Lemma resizeDoubleFBO_same P target w h f fmt ty param g hp d :
  heap_cells hp !! target = Some d ->
  DoubleFBO.width d = w -> DoubleFBO.height d = h ->
  resizeDoubleFBO P target w h f fmt ty param g hp = Some (target, g, hp).
Proof.
  intros Hd Hw Hh. unfold resizeDoubleFBO. rewrite Hd. cbn [mbind option_bind].
  by rewrite !bool_decide_eq_true_2.
Qed.

Lemma heap_update_cells F ref hp d :
  heap_cells hp !! ref = Some d ->
  heap_update F ref hp =
  {| heap_next := heap_next hp; heap_cells := <[ref := F d]> (heap_cells hp) |}.
Proof. intros H. unfold heap_update. by rewrite (alter_alt_Some F _ _ d). Qed.

Lemma heap_update_insert F ref n m d :
  heap_update F ref {| heap_next := n; heap_cells := <[ref := d]> m |} =
  {| heap_next := n; heap_cells := <[ref := F d]> m |}.
Proof. unfold heap_update. cbn [heap_next heap_cells]. by rewrite alter_insert_eq. Qed.

Lemma resizeDoubleFBO_resized P target w h f fmt ty param g hp d :
  heap_cells hp !! target = Some d ->
  ~ (DoubleFBO.width d = w /\ DoubleFBO.height d = h) ->
  let r := resizeFBO P (DoubleFBO.read d) w h f fmt ty param g in
  let c := createFBO w h f fmt ty param r.2 in
  resizeDoubleFBO P target w h f fmt ty param g hp =
    Some (target, c.2,
          {| heap_next := heap_next hp;
             heap_cells := <[target := doubleOf w h r.1 c.1]> (heap_cells hp) |}).
Proof.
  intros Hd Hne r c. unfold resizeDoubleFBO. rewrite Hd. cbn [mbind option_bind].
  assert (bool_decide (DoubleFBO.width d = w) && bool_decide (DoubleFBO.height d = h) = false)
    as ->.
  { apply andb_false_iff. destruct (decide (DoubleFBO.width d = w)) as [Ew|Ew].
    - right. apply bool_decide_eq_false_2. tauto.
    - left. by apply bool_decide_eq_false_2. }
  subst r c.
  destruct (resizeFBO P (DoubleFBO.read d) w h f fmt ty param g) as [newRead g1].
  cbv beta iota zeta. cbn [fst snd].
  destruct (createFBO w h f fmt ty param g1) as [newWrite g2].
  cbv beta iota zeta. cbn [fst snd].
  rewrite (heap_update_cells _ target hp d Hd).
  rewrite !heap_update_insert. destruct d. reflexivity.
Qed.

(** * Initialising the fields *)

Lemma KeptSettings_refl s : KeptSettings s s.
Proof. by repeat split. Qed.

Lemma KeptSettings_trans s1 s2 s3 : KeptSettings s1 s2 -> KeptSettings s2 s3 -> KeptSettings s1 s3.
Proof.
  unfold KeptSettings. intros H1 H2. decompose [and] H1. decompose [and] H2.
  repeat split; congruence.
Qed.

Lemma Ready_Booted s : Ready s -> Booted s.
Proof.
  intros [HL [H1 H2 H3 H4 H5] HF HT]. split; try done. split; by right.
Qed.

Lemma Booted_Ready s :
  Booted s -> is_Some (dye (fields s)) -> is_Some (velocity (fields s)) ->
  is_Some (divergence (fields s)) -> is_Some (curl (fields s)) ->
  is_Some (pressure (fields s)) -> Ready s.
Proof.
  intros [HL [H1 H2 H3 H4 H5] HF HT] [? E1] [? E2] [? E3] [? E4] [? E5].
  split; try done.
  split; [destruct H1|destruct H2|destruct H3|destruct H4|destruct H5]; congruence || done.
Qed.

Lemma doubleOpt_impl (P Q : FBO.t -> Prop) v s s' :
  (forall f, P f -> Q f) -> heap s' = heap s -> doubleOpt P v s -> doubleOpt Q v s'.
Proof. intros HPQ Hh [->|H]; [by left|right]. by eapply doubleHolds_impl. Qed.

Lemma singleOpt_impl (P Q : FBO.t -> Prop) v :
  (forall f, P f -> Q f) -> singleOpt P v -> singleOpt Q v.
Proof. intros HPQ [->|H]; [by left|right]. by eapply singleHolds_impl. Qed.

(** The invariant when the context moves on. *)
Lemma Booted_extend s g' : Booted s -> glExtends (gl_ s) g' -> Booted (set_gl g' s).
Proof.
  intros [HL [H1 H2 H3 H4 H5] HF HT] [XL XF XP XS XZ XN]. split.
  - by eapply programsLinked_same.
  - split; cbn [fields set_gl gl_];
      first [by eapply doubleOpt_impl | by eapply singleOpt_impl].
  - exact XF.
  - exact HT.
Qed.

(** The invariant when a live [DoubleFBO] is stored in the heap. *)
Lemma doubleOpt_install P v s hp' k d' :
  heap_cells hp' = <[k := d']> (heap_cells (heap s)) ->
  P (DoubleFBO.fbo1 d') -> P (DoubleFBO.fbo2 d') ->
  doubleOpt P v s -> doubleOpt P v (set_heap hp' s).
Proof.
  intros Hc P1 P2 [->|(d & Hd & H1 & H2)]; [by left|right].
  unfold doubleHolds, deref in *. destruct v as [r|]; [|discriminate].
  cbn in *. rewrite Hc. destruct (decide (k = r)) as [->|Hne].
  - rewrite lookup_insert_eq. by exists d'.
  - rewrite lookup_insert_ne by done. by exists d.
Qed.

Lemma Booted_install s hp' k d' :
  heap_cells hp' = <[k := d']> (heap_cells (heap s)) ->
  doubleLive (gl_ s) d' -> doubleTexelSizeDerived d' ->
  Booted s ->
  Booted (set_heap hp' s) /\ doubleHolds (fboLive (gl_ s)) (Some k) (set_heap hp' s).
Proof.
  intros Hc [L1 L2] HD [HL [H1 H2 H3 H4 H5] HF [T1 [T2 T3]]]. split; [split|].
  - destruct HL. by split.
  - split; cbn [fields set_heap gl_]; try done; by eapply doubleOpt_install.
  - exact HF.
  - split; [|by split]. intros r d. cbn [heap set_heap]. rewrite Hc.
    destruct (decide (k = r)) as [->|Hne].
    + rewrite lookup_insert_eq. by intros [= <-].
    + rewrite lookup_insert_ne by done. apply T1.
  - exists d'. unfold deref. cbn. rewrite Hc, lookup_insert_eq. done.
Qed.

Lemma Booted_same_heap s : Booted s -> Booted (set_heap (heap s) s).
Proof.
  intros [HL [H1 H2 H3 H4 H5] HF HT]. split; [|split|exact HF|exact HT]; try done.
  destruct HL. by split.
Qed.

Lemma createOrResize_spec v w h f fmt ty param s :
  Booted s -> doubleOpt (fboLive (gl_ s)) v s ->
  exists ref s', createOrResize v w h f fmt ty param s = Some (ref, s') /\
    Booted s' /\ doubleHolds (fboLive (gl_ s')) (Some ref) s' /\
    fields s' = fields s /\ KeptSettings s s' /\
    (Zero (gl_ s) -> Zero (gl_ s')).
Proof.
  intros HB Hv. unfold createOrResize. destruct Hv as [->|(d & Hd & L1 & L2)].
  - destruct (createDoubleFBO_spec w h f fmt ty param (gl_ s) (heap s))
      as (fbo1 & fbo2 & g2 & -> & T1 & T2 & _ & _ & _ & _ & HX).
    destruct (HX (booted_fresh _ HB)) as [X HL].
    eexists _, _. split; [reflexivity|].
    destruct (Booted_install (set_gl g2 s)
                {| heap_next := S (heap_next (heap s));
                   heap_cells := <[heap_next (heap s) := doubleOf w h fbo1 fbo2]>
                                   (heap_cells (heap s)) |}
                (heap_next (heap s)) (doubleOf w h fbo1 fbo2)
                eq_refl HL (doubleOf_texelSize w h fbo1 fbo2 T1 T2) (Booted_extend s g2 HB X))
      as [B' H'].
    split; [exact B'|]. split; [exact H'|]. split; [reflexivity|].
    split; [by repeat split|]. apply X.
  - destruct v as [target|]; [|discriminate]. unfold deref in Hd. cbn in Hd.
    destruct (decide (DoubleFBO.width d = w /\ DoubleFBO.height d = h)) as [[Ew Eh]|Hne].
    + rewrite (resizeDoubleFBO_same _ _ _ _ _ _ _ _ _ _ d Hd Ew Eh). cbn [mbind option_bind].
      eexists _, _. split; [reflexivity|].
      assert (Booted (set_heap (heap s) (set_gl (gl_ s) s))) as B'.
      { apply (Booted_same_heap (set_gl (gl_ s) s)), Booted_extend; [exact HB|].
        apply glExtends_refl, HB. }
      split; [exact B'|]. split; [by exists d|]. split; [reflexivity|].
      split; [by repeat split|]. auto.
    + rewrite (resizeDoubleFBO_resized _ _ _ _ _ _ _ _ _ _ d Hd Hne). cbn [mbind option_bind].
      pose proof (resizeFBO_fst (copyProgram (programs s)) (DoubleFBO.read d) w h f fmt ty param
                    (gl_ s)) as E1.
      destruct (resizeFBO_extends (copyProgram (programs s)) (DoubleFBO.read d) w h f fmt ty
                  param (gl_ s) (booted_fresh _ HB) (linked_copy _ (booted_linked _ HB)))
        as [X1 N1].
      destruct (resizeFBO (copyProgram (programs s)) (DoubleFBO.read d) w h f fmt ty param (gl_ s))
        as [newRead g1]. cbn [fst snd] in *.
      pose proof (createFBO_extends w h f fmt ty param g1 (ext_fresh _ _ X1)) as X2.
      pose proof (createFBO_live_new w h f fmt ty param g1) as N2.
      pose proof (createFBO_texelSize w h f fmt ty param g1) as T2.
      destruct (createFBO w h f fmt ty param g1) as [newWrite g2]. cbn [fst snd] in *.
      assert (texelSizeDerived newRead) as T1 by (rewrite E1; apply createFBO_texelSize).
      pose proof (glExtends_trans _ _ _ X1 X2) as X.
      eexists _, _. split; [reflexivity|].
      destruct (Booted_install (set_gl g2 s)
                  {| heap_next := heap_next (heap s);
                     heap_cells := <[target := doubleOf w h newRead newWrite]>
                                     (heap_cells (heap s)) |}
                  target (doubleOf w h newRead newWrite)
                  eq_refl (conj (ext_live _ _ X2 _ N1) N2)
                  (doubleOf_texelSize w h _ _ T1 T2) (Booted_extend s g2 HB X)) as [B' H'].
      split; [exact B'|]. split; [exact H'|]. split; [reflexivity|].
      split; [by repeat split|]. apply X.
Qed.

Lemma doubleOpt_set_fields P v fs s : doubleOpt P v s -> doubleOpt P v (set_fields fs s).
Proof. intros [->|(d & Hd & H)]; [by left|right]. by exists d. Qed.

Lemma Booted_set_fields s fs :
  Booted s ->
  doubleOpt (fboLive (gl_ s)) (dye fs) s -> doubleOpt (fboLive (gl_ s)) (velocity fs) s ->
  singleOpt (fun f => fboLive (gl_ s) f /\ texelSizeDerived f) (divergence fs) ->
  singleOpt (fun f => fboLive (gl_ s) f /\ texelSizeDerived f) (curl fs) ->
  doubleOpt (fboLive (gl_ s)) (pressure fs) s ->
  Booted (set_fields fs s).
Proof.
  intros [HL HO HF (T1 & T2 & T3)] H1 H2 H3 H4 H5. split.
  - destruct HL. by split.
  - split; cbn [fields set_fields gl_]; try by apply doubleOpt_set_fields.
    + eapply singleOpt_impl; [|exact H3]. by intros f0 [? _].
    + eapply singleOpt_impl; [|exact H4]. by intros f0 [? _].
  - exact HF.
  - split; [exact T1|]. cbn [fields set_fields].
    split; intros f0 E0; [destruct H3 as [E|(f1 & E & _ & T)] | destruct H4 as [E|(f1 & E & _ & T)]];
      rewrite E in E0; try discriminate; by injection E0 as <-.
Qed.

Lemma Booted_single s v :
  Booted s -> v = divergence (fields s) \/ v = curl (fields s) ->
  singleOpt (fun f => fboLive (gl_ s) f /\ texelSizeDerived f) v.
Proof.
  intros [HL [H1 H2 H3 H4 H5] HF (T1 & T2 & T3)] [->| ->].
  - destruct H3 as [E|(f0 & E & L)]; [by left|right]. exists f0. auto.
  - destruct H4 as [E|(f0 & E & L)]; [by left|right]. exists f0. auto.
Qed.

Lemma doubleHolds_opt P ref s : doubleHolds P (Some ref) s -> doubleOpt P (Some ref) s.
Proof. by right. Qed.

Lemma createFBO_booted w h f fmt ty param s :
  Booted s ->
  Booted (set_gl (createFBO w h f fmt ty param (gl_ s)).2 s) /\
  fboLive (createFBO w h f fmt ty param (gl_ s)).2 (createFBO w h f fmt ty param (gl_ s)).1 /\
  (Zero (gl_ s) -> Zero (createFBO w h f fmt ty param (gl_ s)).2).
Proof.
  intros HB. pose proof (createFBO_extends w h f fmt ty param (gl_ s) (booted_fresh _ HB)) as X.
  split; [by apply Booted_extend|]. split; [apply createFBO_live_new|apply X].
Qed.

Lemma Booted_set_loading b s : Booted s -> Booted (set_loading b s).
Proof.
  intros [HL [H1 H2 H3 H4 H5] HF HT].
  split; [destruct HL; by split | by split | exact HF | exact HT].
Qed.

Lemma KeptSettings_set_fields s fs : KeptSettings s (set_fields fs s).
Proof. by repeat split. Qed.

Lemma initFramebuffers_spec s :
  Booted s ->
  exists s', initFramebuffers s = Some s' /\ Ready s' /\ KeptSettings s s' /\
    (Zero (gl_ s) -> Zero (gl_ s')).
Proof.
  intros HB0. unfold initFramebuffers. cbv zeta. cbn [fst snd].
  set (sim := getResolution (SIM_RESOLUTION (config s)) (gl_ s)).
  set (dyeRes := getResolution (DYE_RESOLUTION (config s)) (gl_ s)).
  set (filtering := if supportLinearFiltering s then LINEAR else NEAREST).
  assert (Booted (set_gl (gl.disable BLEND (gl_ s)) s)) as HB.
  { apply Booted_extend; [exact HB0|]. destruct HB0 as [_ _ HF _].
    by split. }
  set (s0 := set_gl (gl.disable BLEND (gl_ s)) s) in *.
  (* dye *)
  destruct (createOrResize_spec (dye (fields s0)) dyeRes.1 dyeRes.2 RGBA16F RGBA HALF_FLOAT
              filtering s0 HB (opt_dye _ _ (booted_live _ HB)))
    as (r1 & s1 & -> & B1 & D1 & F1 & K1 & Z1).
  cbn [mbind option_bind]. cbv beta iota zeta.
  assert (Booted (set_fields (set_dye (Some r1) (fields s1)) s1)) as B1'.
  { destruct (booted_live _ B1). apply Booted_set_fields; try done;
      try (by apply Booted_single; auto). by apply doubleHolds_opt. }
  set (s1' := set_fields (set_dye (Some r1) (fields s1)) s1) in *.
  (* velocity *)
  destruct (createOrResize_spec (velocity (fields s1')) sim.1 sim.2 RG16F RG HALF_FLOAT
              filtering s1' B1' (opt_velocity _ _ (booted_live _ B1')))
    as (r2 & s2 & -> & B2 & D2 & F2 & K2 & Z2).
  cbn [mbind option_bind]. cbv beta iota zeta.
  assert (Booted (set_fields (set_velocity (Some r2) (fields s2)) s2)) as B2'.
  { destruct (booted_live _ B2). apply Booted_set_fields; try done;
      try (by apply Booted_single; auto). by apply doubleHolds_opt. }
  set (s2' := set_fields (set_velocity (Some r2) (fields s2)) s2) in *.
  (* divergence *)
  destruct (createFBO_booted sim.1 sim.2 R16F RED HALF_FLOAT NEAREST s2' B2') as (B3 & L3 & Z3).
  pose proof (createFBO_texelSize sim.1 sim.2 R16F RED HALF_FLOAT NEAREST (gl_ s2')) as T3.
  destruct (createFBO sim.1 sim.2 R16F RED HALF_FLOAT NEAREST (gl_ s2')) as [fd g3].
  cbn [fst snd] in *. cbv beta iota zeta.
  assert (Booted (set_fields (set_divergence (Some fd) (fields s2')) (set_gl g3 s2'))) as B3'.
  { destruct (booted_live _ B3). apply Booted_set_fields; try done;
      try (by apply Booted_single; auto). right. by exists fd. }
  set (s3 := set_fields (set_divergence (Some fd) (fields s2')) (set_gl g3 s2')) in *.
  (* curl *)
  destruct (createFBO_booted sim.1 sim.2 R16F RED HALF_FLOAT NEAREST s3 B3') as (B4 & L4 & Z4).
  pose proof (createFBO_texelSize sim.1 sim.2 R16F RED HALF_FLOAT NEAREST (gl_ s3)) as T4.
  destruct (createFBO sim.1 sim.2 R16F RED HALF_FLOAT NEAREST (gl_ s3)) as [fc g4].
  cbn [fst snd] in *. cbv beta iota zeta.
  assert (Booted (set_fields (set_curl (Some fc) (fields s3)) (set_gl g4 s3))) as B4'.
  { destruct (booted_live _ B4). apply Booted_set_fields; try done;
      try (by apply Booted_single; auto). right. by exists fc. }
  set (s4 := set_fields (set_curl (Some fc) (fields s3)) (set_gl g4 s3)) in *.
  (* pressure *)
  destruct (createOrResize_spec None sim.1 sim.2 R16F RED HALF_FLOAT NEAREST s4 B4'
              (or_introl eq_refl))
    as (r5 & s5 & E5 & B5 & D5 & F5 & K5 & Z5).
  unfold createOrResize in E5.
  destruct (createDoubleFBO sim.1 sim.2 R16F RED HALF_FLOAT NEAREST (gl_ s4) (heap s4))
    as [[ref5 g5] hp5].
  injection E5 as -> <-.
  assert (Booted (set_fields (set_pressure (Some r5) (fields s4))
                    (set_heap hp5 (set_gl g5 s4)))) as B5'.
  { destruct (booted_live _ B5). apply Booted_set_fields; try done;
      try (by apply Booted_single; auto). by apply doubleHolds_opt. }
  eexists. split; [reflexivity|]. split; [|split].
  - apply Booted_Ready.
    + by apply Booted_set_loading.
    + subst s4 s3 s2'. fields_proj. rewrite F2. subst s1'. fields_proj. by eexists.
    + by eexists.
    + by eexists.
    + by eexists.
    + by eexists.
  - subst s4 s3 s2'. unfold KeptSettings in *. state_proj.
    subst s1'. state_proj. subst s0. state_proj.
    decompose [and] K1. decompose [and] K2. repeat split; congruence.
  - cbn. intros HZ. apply Z5, Z4, Z3, Z2, Z1, HZ.
Qed.

(** * The frame loop keeps the invariant *)

Lemma draw_ready s pre target :
  Ready s -> sameStores (gl_ s) pre -> Ready (set_gl (blit target false pre) s).
Proof. intros HR HS. exact (blit_ready (set_gl pre s) target (sameStores_ready s pre HS HR)). Qed.

Lemma swap_ready s pre target v d :
  Ready s -> sameStores (gl_ s) pre -> deref v s = Some d ->
  exists s', swapOf v (set_gl (blit target false pre) s) = Some s' /\ Ready s' /\ Kept s s'.
Proof.
  intros HR HS Hd.
  destruct (swapOf_spec v (set_gl (blit target false pre) s) d Hd) as (ref & -> & ->).
  eexists. split; [reflexivity|]. split; [by apply swapped_ready, draw_ready|by repeat split].
Qed.

Lemma splat_spec x y dx dy color s :
  Ready s -> exists s', splat x y dx dy color s = Some s' /\ Ready s' /\ Kept s s'.
Proof.
  intros HR. pose proof HR as [HL HV _ _]. unfold splat.
  read_double (holds_velocity _ _ HV) d Hd. open_pass.
  match goal with
  | |- context [swapOf ?v (set_gl (blit ?target false ?pre) s)] =>
      destruct (swap_ready s pre target v d HR ltac:(same_stores) Hd) as (s1 & -> & R1 & K1)
  end.
  cbn [mbind option_bind].
  assert (fields s1 = fields s) as EF by apply K1.
  assert (programs s1 = programs s) as EP by apply K1.
  pose proof R1 as [_ HV1 _ _]. rewrite EF.
  destruct (holds_dye _ _ HV1) as (d1 & Hd1 & _ & _). rewrite EF in Hd1. rewrite Hd1.
  cbn [mbind option_bind]. cbv beta iota zeta.
  match goal with
  | |- context [swapOf ?v (set_gl (blit ?target false ?pre) s1)] =>
      destruct (swap_ready s1 pre target v d1 R1 ltac:(same_stores) Hd1) as (s2 & -> & R2 & K2)
  end.
  exists s2. split; [reflexivity|]. split; [exact R2|by eapply Kept_trans].
Qed.

Lemma Ready_timers s a b :
  Ready s -> Ready (set_colorTimer a (set_timeAccumulator b s)).
Proof.
  intros [HL [H1 H2 H3 H4 H5] HF HT].
  split; [destruct HL; by split | by split | exact HF | exact HT].
Qed.

Lemma autoSplat_spec dt s : Ready s -> exists s', autoSplat dt s = Some s' /\ Ready s'.
Proof.
  intros HR. unfold autoSplat. cbv zeta.
  set (s0 := set_timeAccumulator (timeAccumulator s + dt) s).
  destruct (generateColor_bounds s0) as (c & Hc & _).
  unfold generateColor in *. cbv zeta in *. cbn [fst snd] in Hc. rewrite Hc.
  cbn [mbind option_bind].
  assert (Ready (set_colorTimer (nextColorTimer s0) s0)) as HR0 by by apply Ready_timers.
  match goal with
  | |- context [splat ?x ?y ?dx ?dy c ?s1] =>
      destruct (splat_spec x y dx dy c s1 HR0) as (s2 & -> & R2 & _)
  end.
  cbn [mbind option_bind].
  match goal with
  | |- context [splat ?x ?y ?dx ?dy c s2] =>
      destruct (splat_spec x y dx dy c s2 R2) as (s3 & -> & R3 & _)
  end.
  by exists s3.
Qed.

Lemma render_spec target s : Ready s -> exists s', render target s = Some s' /\ Ready s'.
Proof.
  intros HR. pose proof HR as [HL HV _ _]. unfold render, drawDisplay. cbv zeta.
  set (s0 := set_gl (gl.enable BLEND (gl.blendFunc ONE ONE_MINUS_SRC_ALPHA (gl_ s))) s).
  assert (Ready s0) as HR0 by (apply sameStores_ready; [same_stores|exact HR]).
  destruct (holds_dye _ _ HV) as (d & Hd & _ & _).
  assert (deref (dye (fields s0)) s0 = Some d) as -> by exact Hd.
  cbn [mbind option_bind]. open_pass.
  eexists. split; [reflexivity|].
  destruct (SHADING (config s0)); (apply draw_ready; [exact HR0|same_stores]).
Qed.

Lemma resizeCanvas_spec cw ch dpr s : Ready s -> Ready (resizeCanvas cw ch dpr s).2.
Proof.
  intros HR. unfold resizeCanvas. cbv zeta.
  destruct (_ || _); cbn [snd]; [|exact HR].
  destruct HR as [HL [H1 H2 H3 H4 H5] HF HT].
  split; [destruct HL; by split | by split | exact HF | exact HT].
Qed.

Lemma updateFrame_spec k s : Ready s -> exists s', updateFrame k s = Some s' /\ Ready s'.
Proof.
  intros HR. unfold updateFrame, frameWith, calcDeltaTime. cbv zeta. cbv beta iota.
  set (dt := Rmin _ _).
  set (s0 := set_lastUpdateTime (tick_now k) s).
  assert (Ready s0) as HR0.
  { destruct HR as [HL [H1 H2 H3 H4 H5] HF HT].
    split; [destruct HL; by split | by split | exact HF | exact HT]. }
  pose proof (resizeCanvas_spec (tick_clientWidth k) (tick_clientHeight k)
                (tick_devicePixelRatio k) s0 HR0) as HR1.
  destruct (resizeCanvas _ _ _ s0) as [resized s1]. cbn [snd] in HR1.
  assert (exists s2, (if resized then initFramebuffers s1 else Some s1) = Some s2 /\ Ready s2)
    as (s2 & -> & R2).
  { destruct resized; [|by exists s1].
    destruct (initFramebuffers_spec s1 (Ready_Booted _ HR1)) as (s2 & E & R & _). by exists s2. }
  cbn [mbind option_bind].
  destruct (autoSplat_spec dt s2 R2) as (s3 & -> & R3). cbn [mbind option_bind].
  destruct (step_spec dt s3 R3) as (s4 & -> & R4 & _). cbn [mbind option_bind].
  apply render_spec, R4.
Qed.

Lemma runFrames_spec ks s : Ready s -> exists s', runFrames ks s = Some s' /\ Ready s'.
Proof.
  revert s. induction ks as [|k ks IH]; intros s HR; [by exists s|].
  cbn [runFrames]. destruct (updateFrame_spec k s HR) as (s1 & -> & R1). by apply IH.
Qed.

(** * The state the effect starts from *)

Lemma hasText_intro g P t :
  src_text <$> fragmentSourceOf g (GLProgram.program P) = Some t -> hasText g P t.
Proof.
  unfold hasText. destruct (fragmentSourceOf g (GLProgram.program P)) as [src|]; cbn.
  - intros [= <-]. by exists src.
  - intros; discriminate.
Qed.

Lemma boot_linked host : programsLinked (updateKeywords (boot host)).
Proof.
  destruct host as [[|] cw ch rnd now]; split; apply hasText_intro; vm_compute; reflexivity.
Qed.

Lemma boot_no_textures host :
  gl_textures (gl_ (updateKeywords (boot host))) = ∅ /\
  gl_framebuffers (gl_ (updateKeywords (boot host))) = ∅ /\
  heap_cells (heap (updateKeywords (boot host))) = ∅ /\
  fields (updateKeywords (boot host)) =
    {| dye := None; velocity := None; divergence := None; curl := None; pressure := None |} /\
  gl_clearColor (gl_ (updateKeywords (boot host))) = Vec4 0 0 0 1.
Proof. destruct host as [[|] cw ch rnd now]; repeat split; vm_compute; reflexivity. Qed.

Lemma boot_Booted host : Booted (updateKeywords (boot host)).
Proof.
  destruct (boot_no_textures host) as (Et & Ef & Eh & EF & _). split.
  - apply boot_linked.
  - split; rewrite EF; by left.
  - split; intros k; rewrite ?Et, ?Ef, lookup_empty; by intros [? ?].
  - split; [|split].
    + intros ref d. rewrite Eh, lookup_empty. discriminate.
    + rewrite EF. discriminate.
    + rewrite EF. discriminate.
Qed.

Lemma boot_Zero host : Zero (gl_ (updateKeywords (boot host))).
Proof.
  destruct (boot_no_textures host) as (Et & _ & _ & _ & Ec). split.
  - rewrite Ec. by split.
  - intros t img. rewrite Et, lookup_empty. discriminate.
Qed.

Lemma mount_spec host :
  exists s, mount host = Some s /\ Ready s /\ Zero (gl_ s) /\
    KeptSettings (updateKeywords (boot host)) s.
Proof.
  unfold mount. cbv zeta.
  destruct (initFramebuffers_spec _ (boot_Booted host)) as (s & E & R & K & Z).
  exists s. split; [exact E|]. split; [exact R|]. split; [apply Z, boot_Zero|exact K].
Qed.

(** The script runs: it mounts and then takes any number of frames. *)
Lemma run_spec host ks : exists s, mount host ≫= runFrames ks = Some s /\ Ready s.
Proof.
  destruct (mount_spec host) as (s0 & -> & R0 & _). cbn [mbind option_bind].
  apply runFrames_spec, R0.
Qed.

(** * What a draw writes *)

Lemma updateTarget_texture_at F g f :
  fboLive g f -> gl_framebuffer g = Some (FBO.fbo f) ->
  exists img, gl_textures g !! FBO.texture f = Some img /\
    tex_width img = FBO.width f /\ tex_height img = FBO.height f /\
    gl_textures (updateTarget F g) !! FBO.texture f = Some (F img).
Proof.
  intros [Hfb (img & Hl & Hw & Hh)] Hb. exists img. split; [exact Hl|].
  split; [exact Hw|]. split; [exact Hh|].
  unfold updateTarget. gl_proj. rewrite Hb, Hfb, lookup_alter_eq, Hl. reflexivity.
Qed.

Lemma blit_texture f g :
  fboLive g f ->
  exists img, gl_textures g !! FBO.texture f = Some img /\
    tex_width img = FBO.width f /\ tex_height img = FBO.height f /\
    gl_textures (blit (Some f) false g) !! FBO.texture f =
      Some (drawImage (blitTarget f g) img).
Proof.
  intros H. unfold blit, gl.drawElements. cbv zeta. fold (blitTarget f g).
  apply (updateTarget_texture_at _ (blitTarget f g) f); [exact H|reflexivity].
Qed.

Lemma inViewport_blitTarget f g img i j :
  tex_width img = FBO.width f -> tex_height img = FBO.height f ->
  (0 <= i < FBO.width f)%Z -> (0 <= j < FBO.height f)%Z ->
  inViewport (blitTarget f g) img i j = true.
Proof.
  intros Hw Hh Hi Hj. unfold inViewport, blitTarget, gl.bindFramebuffer, gl.viewport.
  gl_proj. rewrite Hw, Hh, !Z.min_id.
  repeat (apply andb_true_intro; split); first [apply Z.leb_le | apply Z.ltb_lt]; lia.
Qed.

Lemma drawImage_texel g p src img i j :
  gl_program g = Some p -> fragmentSourceOf g p = Some src -> inViewport g img i j = true ->
  texels (drawImage g img) i j =
    storeTexel (tex_format img) (blendColor g (fragmentColor g p src i j) (texels img i j)).
Proof. intros Hp Hs Hv. unfold drawImage. rewrite Hp, Hs. cbn [texels]. by rewrite Hv. Qed.

(** * The vorticity pass clamps *)

Lemma clamp1000 x : -1000 <= Rmin (Rmax x (-1000)) 1000 <= 1000.
Proof.
  split; [|apply Rmin_r]. apply Rmin_glb; [apply Rmax_r|lra].
Qed.

Lemma vorticityShader_bounded e v : velocityBounded (vorticityShader e v).
Proof. unfold velocityBounded, vorticityShader. cbn [v4x v4y v2x v2y]. split; apply clamp1000. Qed.

Lemma curlGradient_guard e v : 0 < v2length (curlGradient e v) + 0.0001.
Proof. unfold v2length. pose proof (sqrt_pos (v2dot (curlGradient e v) (curlGradient e v))). lra. Qed.

Lemma storeTexel_bounded f c : velocityBounded c -> velocityBounded (storeTexel f c).
Proof.
  intros [Hx Hy]. unfold velocityBounded. destruct f; cbn [storeTexel v4x v4y]; try (split; lra).
  unfold clamp. split.
  - pose proof (Rmin_r (Rmax (v4x c) 0) 1). pose proof (Rmax_r (v4x c) 0).
    assert (0 <= Rmin (Rmax (v4x c) 0) 1) by (apply Rmin_glb; lra). lra.
  - pose proof (Rmin_r (Rmax (v4y c) 0) 1). pose proof (Rmax_r (v4y c) 0).
    assert (0 <= Rmin (Rmax (v4y c) 0) 1) by (apply Rmin_glb; lra). lra.
Qed.

Lemma deref_set_gl v g s : deref v (set_gl g s) = deref v s.
Proof. reflexivity. Qed.

Lemma blitTarget_same f g :
  gl_programs (blitTarget f g) = gl_programs g /\ gl_shaders (blitTarget f g) = gl_shaders g /\
  gl_blend (blitTarget f g) = gl_blend g /\ gl_program (blitTarget f g) = gl_program g /\
  gl_uniforms (blitTarget f g) = gl_uniforms g /\ gl_units (blitTarget f g) = gl_units g /\
  gl_textures (blitTarget f g) = gl_textures g.
Proof. repeat split; reflexivity. Qed.

Lemma vorticityPass_bounded dt s :
  Ready s -> gl_blend (gl_ s) = false ->
  exists s' d img,
    vorticityPass dt s = Some s' /\
    deref (velocity (fields s')) s' = Some d /\
    gl_textures (gl_ s') !! FBO.texture (DoubleFBO.read d) = Some img /\
    forall i j, (0 <= i < FBO.width (DoubleFBO.read d))%Z ->
                (0 <= j < FBO.height (DoubleFBO.read d))%Z ->
                velocityBounded (texels img i j).
Proof.
  intros HR Hblend. pose proof HR as [HL HV _ _]. unfold vorticityPass.
  destruct (holds_velocity _ _ HV) as (d & Hd & L1 & L2). rewrite Hd. cbn [mbind option_bind].
  read_single (holds_curl _ _ HV). open_pass.
  match goal with
  | |- context [swapOf ?v (set_gl (blit ?target false ?pre) s)] => set (pre0 := pre)
  end.
  assert (sameStores (gl_ s) pre0 /\ gl_blend pre0 = gl_blend (gl_ s) /\
          gl_program pre0 = Some (GLProgram.program (vorticityProgram (programs s))))
    as ((Et & Ef & Ep & Es & _) & Eb & Eprog) by (subst pre0; repeat split; reflexivity).
  clearbody pre0.
  set (target := DoubleFBO.write d).
  destruct (swapOf_spec (velocity (fields s)) (set_gl (blit (Some target) false pre0) s) d)
    as (ref & Ev & ->); [by rewrite deref_set_gl|].
  assert (fboLive pre0 target) as HLw by (by eapply fboLive_same).
  destruct (blit_texture target pre0 HLw) as (img & Hl & Hw & Hh & Hl').
  destruct (linked_vorticity _ HL) as (src & Hsrc & Htext).
  destruct (blitTarget_same target pre0) as (Bp & Bs & Bb & Bprog & _).
  exists (set_heap (heap_update DoubleFBO.swap ref
                      (heap (set_gl (blit (Some target) false pre0) s)))
            (set_gl (blit (Some target) false pre0) s)),
    (DoubleFBO.swap d), (drawImage (blitTarget target pre0) img).
  split; [reflexivity|]. split; [|split; [exact Hl'|]].
  - rewrite deref_heap_update. cbn [fields set_gl set_heap]. rewrite Ev.
    rewrite bool_decide_eq_true_2 by reflexivity. rewrite deref_set_gl, <- Ev, Hd. reflexivity.
  - intros i j Hi Hj.
    rewrite (drawImage_texel _ (GLProgram.program (vorticityProgram (programs s))) src).
    + apply storeTexel_bounded. unfold blendColor. rewrite Bb, Eb, Hblend.
      unfold fragmentColor. rewrite Htext. apply vorticityShader_bounded.
    + by rewrite Bprog.
    + rewrite <- Hsrc. apply fragmentSourceOf_same; congruence.
    + by apply inViewport_blitTarget.
Qed.

Lemma resizeFBO_content P target w h f fmt ty param g img :
  glFresh g -> gl_textures g !! FBO.texture target = Some img ->
  hasText g P copyShaderText ->
  GLProgram.uniforms P !! "uTexture" = Some (GLProgram.program P, "uTexture") ->
  gl_blend g = false ->
  let r := resizeFBO P target w h f fmt ty param g in
  exists img', gl_textures r.2 !! FBO.texture r.1 = Some img' /\ resampled img img' w h f.
Proof.
  intros [HFt HFf] Himg (src & Hsrc & Htext) Hloc Hblend r. subst r.
  assert (FBO.texture target < gl_next g)%nat as Hlt by (apply HFt; by eexists).
  pose proof (createFBO_fst w h f fmt ty param g) as E1.
  pose proof (createFBO_textures w h f fmt ty param g) as Et.
  pose proof (createFBO_live_new w h f fmt ty param g) as HN.
  pose proof (createFBO_same w h f fmt ty param g) as (Es & Ep & _ & _ & _ & Eb & _).
  unfold resizeFBO.
  destruct (createFBO w h f fmt ty param g) as [new g1]. cbn [fst snd] in *.
  unfold FBO_attach. cbv beta iota zeta. cbn [fst snd].
  match goal with
  | |- context [blit (Some new) false ?pre] => set (pre1 := pre)
  end.
  assert (fboLive pre1 new) as HL1 by exact HN.
  destruct (blit_texture new pre1 HL1) as (img0 & Hl0 & Hw0 & Hh0 & Hl').
  assert (gl_textures pre1 = gl_textures g1) as Etp by reflexivity.
  rewrite Etp, Et in Hl0. subst new. cbn [FBO.texture FBO.width FBO.height] in *.
  rewrite lookup_insert_eq in Hl0. injection Hl0 as <-.
  eexists. split; [exact Hl'|].
  set (tg := {| FBO.texture := gl_next g; FBO.fbo := S (gl_next g); FBO.width := w;
                FBO.height := h; FBO.texelSizeX := 1 / IZR w; FBO.texelSizeY := 1 / IZR h |}) in *.
  destruct (drawImage_shape (blitTarget tg pre1) (clearedImage w h f param (gl_clearColor g)))
    as [Ew Eh].
  split; [exact Ew|]. split; [exact Eh|]. split.
  { unfold drawImage. destruct (gl_program _) as [p|]; [|reflexivity].
    destruct (fragmentSourceOf _ p); reflexivity. }
  intros i j Hi Hj.
  assert (fragmentSourceOf (blitTarget tg pre1) (GLProgram.program P) = Some src) as Hsrc'.
  { rewrite <- Hsrc. apply fragmentSourceOf_same; [exact Ep|exact Es]. }
  rewrite (drawImage_texel _ (GLProgram.program P) src); [|reflexivity|exact Hsrc'|].
  2: { apply inViewport_blitTarget; [reflexivity|reflexivity|exact Hi|exact Hj]. }
  cbn [tex_format clearedImage]. f_equal. unfold blendColor.
  change (gl_blend (blitTarget tg pre1)) with (gl_blend g1). rewrite Eb, Hblend.
  unfold fragmentColor. rewrite Htext. cbn [fragmentMain]. unfold copyShader, texture2D.
  cbn [baseVertexShader vUv]. unfold uniformSampler, shaderEnv. cbn [env_uniform env_unit].
  change (gl_uniforms (blitTarget tg pre1)) with (gl_uniforms pre1).
  change (gl_units (blitTarget tg pre1)) with (gl_units pre1).
  change (gl_textures (blitTarget tg pre1)) with (gl_textures g1).
  subst pre1. unfold gl.uniform1i, setUniform. gl_proj. rewrite Hloc.
  unfold Program_bind, gl.useProgram, gl.activeTexture, gl.bindTexture. gl_proj.
  rewrite bool_decide_eq_true_2 by reflexivity. rewrite lookup_insert_eq.
  cbn [Z.to_nat Z.of_nat]. rewrite lookup_insert_eq. cbn [mbind option_bind].
  rewrite Et, lookup_insert_ne by lia. rewrite Himg. reflexivity.
Qed.

Lemma fieldIsZero_intro g f : Zero g -> fboLive g f -> fieldIsZero g f.
Proof.
  intros [_ HZ] [_ (img & Hl & Hw & Hh)]. exists img. split; [exact Hl|].
  split; [exact Hw|]. split; [exact Hh|]. intros i j. by destruct (HZ _ _ Hl i j).
Qed.

Lemma mount_config host :
  config (updateKeywords (boot host)) = resolveConfig (host_supportLinearFiltering host).
Proof. reflexivity. Qed.

(** From any host: the first step after mounting returns, and leaves the
    divergence, curl and pressure fields zero. *)
Lemma first_step_zero host dt :
  exists s0 s1 dv cu pr,
    mount host = Some s0 /\
    config s0 = resolveConfig (host_supportLinearFiltering host) /\
    Zero (gl_ s0) /\
    step dt s0 = Some s1 /\
    divergence (fields s1) = Some dv /\ curl (fields s1) = Some cu /\
    deref (pressure (fields s1)) s1 = Some pr /\
    fieldIsZero (gl_ s1) dv /\ fieldIsZero (gl_ s1) cu /\
    fieldIsZero (gl_ s1) (DoubleFBO.read pr) /\ fieldIsZero (gl_ s1) (DoubleFBO.write pr).
Proof.
  destruct (mount_spec host) as (s0 & E0 & R0 & Z0 & K0).
  destruct (step_spec dt s0 R0) as (s1 & E1 & R1 & K1 & Z1 & _).
  specialize (Z1 Z0). destruct R1 as [_ [_ _ Hdv Hcu Hpr] _ _].
  destruct Hdv as (dv & Edv & Ldv). destruct Hcu as (cu & Ecu & Lcu).
  destruct Hpr as (pr & Epr & L1 & L2).
  exists s0, s1, dv, cu, pr. split; [exact E0|]. split.
  { destruct K0 as (_ & -> & _). apply mount_config. }
  split; [exact Z0|]. split; [exact E1|]. split; [exact Edv|]. split; [exact Ecu|]. split; [exact Epr|].
  repeat split; by apply fieldIsZero_intro.
Qed.

(** Claim C1.  On a host with linear filtering the script mounts with
    [SIM_RESOLUTION = 128] and [DYE_RESOLUTION = 1440] and freshly created
    fields, every texture holding zeros; with no splat injected, one [step]
    with [dt = 0.0166] returns, and afterwards the divergence field, the
    curl field and both sides of the pressure field hold zero at every
    texel. *)
Theorem fresh_fields_stay_zero (canvasWidth canvasHeight : Z) (random : R) (now : Z) :
  let host :=
    {| host_supportLinearFiltering := true; host_canvasWidth := canvasWidth;
       host_canvasHeight := canvasHeight; host_random := random; host_now := now |} in
  exists s0 s1 dv cu pr,
    mount host = Some s0 /\
    SIM_RESOLUTION (config s0) = 128%Z /\ DYE_RESOLUTION (config s0) = 1440%Z /\
    Zero (gl_ s0) /\
    step 0.0166 s0 = Some s1 /\
    divergence (fields s1) = Some dv /\ curl (fields s1) = Some cu /\
    deref (pressure (fields s1)) s1 = Some pr /\
    fieldIsZero (gl_ s1) dv /\ fieldIsZero (gl_ s1) cu /\
    fieldIsZero (gl_ s1) (DoubleFBO.read pr) /\ fieldIsZero (gl_ s1) (DoubleFBO.write pr).
Proof.
  intros host.
  destruct (first_step_zero host 0.0166) as (s0 & s1 & dv & cu & pr & E0 & C0 & H).
  exists s0, s1, dv, cu, pr. split; [exact E0|]. rewrite C0. split; [reflexivity|].
  split; [reflexivity|]. exact H.
Qed.

(** * Swapping *)

Lemma swap_involutive d : DoubleFBO.swap (DoubleFBO.swap d) = d.
Proof. by destruct d. Qed.

Lemma heap_update_swap_twice ref hp :
  heap_update DoubleFBO.swap ref (heap_update DoubleFBO.swap ref hp) = hp.
Proof.
  destruct hp as [n m]. unfold heap_update. cbn [heap_next heap_cells].
  rewrite alter_alter_eq. f_equal. apply alter_id. intros d _. apply swap_involutive.
Qed.

Lemma set_heap_same s : set_heap (heap s) s = s.
Proof. by destruct s. Qed.

Lemma swapOf_inv v s s1 :
  swapOf v s = Some s1 ->
  exists ref d, v = Some ref /\ heap_cells (heap s) !! ref = Some d /\
    s1 = set_heap (heap_update DoubleFBO.swap ref (heap s)) s.
Proof.
  unfold swapOf. destruct v as [ref|]; [|discriminate]. cbn.
  destruct (heap_cells (heap s) !! ref) as [d|] eqn:E; [|discriminate]. cbn.
  intros [= <-]. by exists ref, d.
Qed.

(** Claim C6.  A [swap] of a double target exchanges what [read] and
    [write] return, touches no object of the context and allocates nothing
    on the heap; a second [swap] gives back the state before the first, so
    [read] and [write] are again what they were. *)
Theorem swap_twice_is_identity (v : option nat) (s s1 : State) :
  swapOf v s = Some s1 ->
  exists d,
    deref v s = Some d /\
    deref v s1 = Some (DoubleFBO.swap d) /\
    DoubleFBO.read (DoubleFBO.swap d) = DoubleFBO.write d /\
    DoubleFBO.write (DoubleFBO.swap d) = DoubleFBO.read d /\
    gl_ s1 = gl_ s /\ heap_next (heap s1) = heap_next (heap s) /\
    swapOf v s1 = Some s.
Proof.
  intros H. destruct (swapOf_inv v s s1 H) as (ref & d & -> & Hd & ->).
  exists d. split; [exact Hd|]. split.
  { rewrite deref_heap_update, bool_decide_eq_true_2 by reflexivity.
    unfold deref. cbn. by rewrite Hd. }
  split; [reflexivity|]. split; [reflexivity|]. split; [reflexivity|]. split; [reflexivity|].
  unfold swapOf. cbn [mbind option_bind heap set_heap heap_update heap_cells].
  rewrite lookup_alter_eq, Hd. cbn [fmap option_fmap option_map mbind option_bind].
  f_equal.
  change (set_heap ?h (set_heap ?h' s)) with (set_heap h s).
  change (heap_update DoubleFBO.swap ref
            {| heap_next := heap_next (heap s);
               heap_cells := alter DoubleFBO.swap ref (heap_cells (heap s)) |})
    with (heap_update DoubleFBO.swap ref (heap_update DoubleFBO.swap ref (heap s))).
  rewrite heap_update_swap_twice. apply set_heap_same.
Qed.

(** The theorem at the double target of [exampleState]. *)
Lemma swap_twice_is_identity_witness :
  swapOf (Some 0%nat) exampleState =
    Some (set_heap (heap_update DoubleFBO.swap 0 (heap exampleState)) exampleState) /\
  exists d,
    deref (Some 0%nat) exampleState = Some d /\
    deref (Some 0%nat) (set_heap (heap_update DoubleFBO.swap 0 (heap exampleState)) exampleState) =
      Some (DoubleFBO.swap d) /\
    DoubleFBO.read (DoubleFBO.swap d) = DoubleFBO.write d /\
    DoubleFBO.write (DoubleFBO.swap d) = DoubleFBO.read d /\
    gl_ (set_heap (heap_update DoubleFBO.swap 0 (heap exampleState)) exampleState) =
      gl_ exampleState /\
    heap_next (heap (set_heap (heap_update DoubleFBO.swap 0 (heap exampleState)) exampleState)) =
      heap_next (heap exampleState) /\
    swapOf (Some 0%nat) (set_heap (heap_update DoubleFBO.swap 0 (heap exampleState)) exampleState) =
      Some exampleState.
Proof.
  split; [reflexivity|].
  apply (swap_twice_is_identity (Some 0%nat) exampleState). reflexivity.
Defined.

(** * The program cache *)

(** The hash of the two keyword lists the script uses. *)
Lemma keywordsHash_used :
  keywordsHash [] = 0%Z /\ keywordsHash ["SHADING"] = (-1523179638)%Z /\
  hashCode "MANUAL_FILTERING" = (-310714351)%Z.
Proof. repeat split; vm_compute; reflexivity. Qed.

Lemma Material_setKeywords_hit keywords this g program :
  Material.programs this !! keywordsHash keywords = Some program ->
  Material_setKeywords keywords this g =
    if bool_decide (Some program = Material.activeProgram this) then (this, g)
    else (Material.mk (Material.vertexShader this) (Material.fragmentShaderSource this)
            (Material.programs this) (Some program) (getUniforms program g), g).
Proof. intros H. unfold Material_setKeywords. cbv zeta. by rewrite H. Qed.

Lemma Material_setKeywords_resolved keywords this g :
  let r := Material_setKeywords keywords this g in
  exists program,
    Material.programs r.1 !! keywordsHash keywords = Some program /\
    Material.activeProgram r.1 = Some program.
Proof.
  cbv zeta. unfold Material_setKeywords. cbv zeta.
  destruct (Material.programs this !! keywordsHash keywords) as [program|] eqn:E.
  - exists program. case_bool_decide as A; cbn [fst Material.programs Material.activeProgram].
    + by split.
    + by split.
  - destruct (compileShader _ _ _ g) as [fs g1].
    destruct (createProgram _ fs g1) as [program g2].
    exists program. case_bool_decide as A; cbn [fst Material.programs Material.activeProgram];
      rewrite lookup_insert_eq; by split.
Qed.

Lemma Material_setKeywords_again keywords this g :
  let r := Material_setKeywords keywords this g in
  Material_setKeywords keywords r.1 r.2 = r.
Proof.
  cbv zeta.
  destruct (Material_setKeywords_resolved keywords this g) as (program & Hp & Ha).
  rewrite (Material_setKeywords_hit _ _ _ program Hp).
  rewrite bool_decide_eq_true_2 by done. by destruct (Material_setKeywords keywords this g).
Qed.

(** Claim C8.  [setKeywords] looks a program up under the hash of the
    keyword list, a function of the list alone.  After a call the program
    of that hash is cached and active; a second call with the same list
    changes nothing, so it compiles and links nothing; and when the hash is
    already cached the call leaves the context and the cache as they were,
    and with that program active it leaves the whole material, the uniform
    table included, as it was. *)
Theorem setKeywords_is_cached (keywords : list string) (this : Material.t) (g : GLState) :
  let hash := keywordsHash keywords in
  let r := Material_setKeywords keywords this g in
  (exists program,
     Material.programs r.1 !! hash = Some program /\
     Material.activeProgram r.1 = Some program) /\
  Material_setKeywords keywords r.1 r.2 = r /\
  (forall program, Material.programs this !! hash = Some program ->
     r.2 = g /\ Material.programs r.1 = Material.programs this /\
     (Material.activeProgram this = Some program -> r = (this, g))).
Proof.
  intros hash r. split; [apply Material_setKeywords_resolved|].
  split; [apply Material_setKeywords_again|].
  intros program H. subst r. rewrite (Material_setKeywords_hit _ _ _ program H).
  case_bool_decide as A; cbn [fst snd Material.programs]; repeat split; congruence.
Qed.

(** * Without linear filtering *)

(** What [mount] leaves of the display material and of the dye field on a
    host without linear filtering of floating-point textures. *)
Lemma mount_unfiltered canvasWidth canvasHeight random now :
  let host :=
    {| host_supportLinearFiltering := false; host_canvasWidth := canvasWidth;
       host_canvasHeight := canvasHeight; host_random := random; host_now := now |} in
  (fun s =>
     (DYE_RESOLUTION (config s), SHADING (config s), displayKeywords (config s),
      p ← Material.activeProgram (displayMaterial s); fragmentSourceOf (gl_ s) p,
      (fun d => (DoubleFBO.width d, DoubleFBO.height d)) <$> deref (dye (fields s)) s))
    <$> mount host =
  Some (256%Z, false, [], Some (noSource displayShaderSource),
        Some ((getResolution 256 (newContext canvasWidth canvasHeight)).1,
              (getResolution 256 (newContext canvasWidth canvasHeight)).2)).
Proof. vm_compute. reflexivity. Qed.

(** Claim C5.  On a host without linear filtering of floating-point
    textures the script mounts with [DYE_RESOLUTION = 256] and
    [SHADING = false]; the keyword list of the display material is empty and
    the fragment shader of its active program is the display shader compiled
    with no [SHADING] keyword; the dye field has the size [getResolution]
    gives for 256. *)
Theorem unfiltered_host_downgrades (canvasWidth canvasHeight : Z) (random : R) (now : Z) :
  let host :=
    {| host_supportLinearFiltering := false; host_canvasWidth := canvasWidth;
       host_canvasHeight := canvasHeight; host_random := random; host_now := now |} in
  exists s program source dye_,
    mount host = Some s /\
    DYE_RESOLUTION (config s) = 256%Z /\
    SHADING (config s) = false /\
    displayKeywords (config s) = [] /\
    Material.activeProgram (displayMaterial s) = Some program /\
    fragmentSourceOf (gl_ s) program = Some source /\
    src_text source = displayShaderSource /\
    ("SHADING" ∉ src_defines source) /\
    deref (dye (fields s)) s = Some dye_ /\
    (DoubleFBO.width dye_, DoubleFBO.height dye_) =
      getResolution 256 (newContext canvasWidth canvasHeight).
Proof.
  intros host. pose proof (mount_unfiltered canvasWidth canvasHeight random now) as H.
  cbv zeta in H. fold host in H.
  destruct (mount host) as [s|]; [|discriminate H]. cbn [fmap option_fmap option_map] in H.
  injection H as H1 H2 H3 H4 H5.
  destruct (Material.activeProgram (displayMaterial s)) as [program|] eqn:Ea;
    [|discriminate H4].
  cbn [mbind option_bind] in H4.
  destruct (deref (dye (fields s)) s) as [dye_|] eqn:Ed; [|discriminate H5].
  cbn [fmap option_fmap option_map] in H5. injection H5 as Hw Hh.
  exists s, program, (noSource displayShaderSource), dye_.
  split; [reflexivity|]. split; [exact H1|]. split; [exact H2|]. split; [exact H3|].
  split; [exact Ea|]. split; [exact H4|]. split; [reflexivity|].
  split; [apply not_elem_of_nil|]. split; [exact Ed|].
  rewrite Hw, Hh. by destruct (getResolution 256 (newContext canvasWidth canvasHeight)).
Qed.

(** * Texel sizes *)

Lemma resizeFBO_texelSize P target w h f fmt ty param g :
  texelSizeDerived (resizeFBO P target w h f fmt ty param g).1.
Proof. rewrite resizeFBO_fst. apply createFBO_texelSize. Qed.

Lemma cells_insert_derived (cells : gmap nat DoubleFBO.t) k d :
  (forall ref d0, cells !! ref = Some d0 -> doubleTexelSizeDerived d0) ->
  doubleTexelSizeDerived d ->
  forall ref d0, <[k := d]> cells !! ref = Some d0 -> doubleTexelSizeDerived d0.
Proof.
  intros Hall Hd ref d0. destruct (decide (k = ref)) as [->|Hne].
  - rewrite lookup_insert_eq. by intros [= <-].
  - rewrite lookup_insert_ne by done. apply Hall.
Qed.

Lemma createDoubleFBO_texelSize w h f fmt ty param g hp :
  (forall ref d, heap_cells hp !! ref = Some d -> doubleTexelSizeDerived d) ->
  forall ref d, heap_cells (createDoubleFBO w h f fmt ty param g hp).2 !! ref = Some d ->
    doubleTexelSizeDerived d.
Proof.
  intros Hall.
  destruct (createDoubleFBO_spec w h f fmt ty param g hp)
    as (fbo1 & fbo2 & g2 & -> & T1 & T2 & _).
  cbn [snd heap_cells]. apply cells_insert_derived; [exact Hall|].
  by apply doubleOf_texelSize.
Qed.

Lemma resizeDoubleFBO_texelSize P target w h f fmt ty param g hp r :
  (forall ref d, heap_cells hp !! ref = Some d -> doubleTexelSizeDerived d) ->
  resizeDoubleFBO P target w h f fmt ty param g hp = Some r ->
  forall ref d, heap_cells r.2 !! ref = Some d -> doubleTexelSizeDerived d.
Proof.
  intros Hall Hr.
  destruct (heap_cells hp !! target) as [d0|] eqn:Hd.
  2: { unfold resizeDoubleFBO in Hr. rewrite Hd in Hr. discriminate Hr. }
  destruct (decide (DoubleFBO.width d0 = w /\ DoubleFBO.height d0 = h)) as [[Ew Eh]|Hne].
  - rewrite (resizeDoubleFBO_same _ _ _ _ _ _ _ _ _ _ d0 Hd Ew Eh) in Hr.
    injection Hr as <-. exact Hall.
  - rewrite (resizeDoubleFBO_resized _ _ _ _ _ _ _ _ _ _ d0 Hd Hne) in Hr.
    apply (inj Some) in Hr. subst r. cbn [snd heap_cells].
    apply cells_insert_derived; [exact Hall|].
    apply doubleOf_texelSize; [apply resizeFBO_texelSize|apply createFBO_texelSize].
Qed.

(** Claim C2.  The texel sizes of a target are the reciprocals of its
    width and height: for the target [createFBO] returns, for the one
    [resizeFBO] returns, for every double target of the heap after
    [createDoubleFBO] and after [resizeDoubleFBO], and after a [swap]; and so
    for every field of the script after mounting and any number of
    frames. *)
Theorem texel_sizes_are_derived :
  (forall w h f fmt ty param g, texelSizeDerived (createFBO w h f fmt ty param g).1) /\
  (forall P target w h f fmt ty param g,
     texelSizeDerived (resizeFBO P target w h f fmt ty param g).1) /\
  (forall w h f fmt ty param g hp,
     (forall ref d, heap_cells hp !! ref = Some d -> doubleTexelSizeDerived d) ->
     forall ref d, heap_cells (createDoubleFBO w h f fmt ty param g hp).2 !! ref = Some d ->
       doubleTexelSizeDerived d) /\
  (forall P target w h f fmt ty param g hp r,
     (forall ref d, heap_cells hp !! ref = Some d -> doubleTexelSizeDerived d) ->
     resizeDoubleFBO P target w h f fmt ty param g hp = Some r ->
     forall ref d, heap_cells r.2 !! ref = Some d -> doubleTexelSizeDerived d) /\
  (forall d, doubleTexelSizeDerived d -> doubleTexelSizeDerived (DoubleFBO.swap d)) /\
  (forall host ks, exists s,
     mount host ≫= runFrames ks = Some s /\ texelSizesDerived s /\
     fieldsHold texelSizeDerived s).
Proof.
  split; [apply createFBO_texelSize|]. split; [apply resizeFBO_texelSize|].
  split; [apply createDoubleFBO_texelSize|]. split; [apply resizeDoubleFBO_texelSize|].
  split; [apply swap_texelSizeDerived|].
  intros host ks. destruct (run_spec host ks) as (s & E & [_ HV _ HT]).
  exists s. split; [exact E|]. split; [exact HT|].
  destruct HT as (Hh & Hd & Hc). destruct HV as [V1 V2 V3 V4 V5].
  assert (forall v, doubleHolds (fboLive (gl_ s)) v s -> doubleHolds texelSizeDerived v s) as HD.
  { intros v (d & Ed & _). exists d. split; [exact Ed|]. unfold deref in Ed.
    destruct v as [ref|]; [|discriminate]. cbn in Ed. destruct (Hh ref d Ed) as (_ & _ & ? & ?).
    by split. }
  split; auto.
  - destruct V3 as (f & Ef & _). exists f. split; [exact Ef|]. by apply Hd.
  - destruct V4 as (f & Ef & _). exists f. split; [exact Ef|]. by apply Hc.
Qed.

(** * Resizing a double target *)

Lemma resizeFBO_next P target w h f fmt ty param g :
  gl_next (resizeFBO P target w h f fmt ty param g).2 = S (S (gl_next g)).
Proof.
  pose proof (createFBO_next w h f fmt ty param g) as E.
  unfold resizeFBO. destruct (createFBO w h f fmt ty param g) as [new g1]. cbn [snd] in E.
  unfold FBO_attach. cbv beta iota zeta. cbn [snd].
  destruct (blit_sameObjects (Some new) (gl.uniform1i (GLProgram.uniforms P !! "uTexture")
              (Z.of_nat 0) (gl.bindTexture (FBO.texture target)
                 (gl.activeTexture (0 + 0) (Program_bind P g1)))))
    as (_ & _ & _ & _ & _ & _ & ->).
  exact E.
Qed.

(** Claim C7.  [resizeDoubleFBO] on a double target of the heap, asked for
    the width and height the target has, returns the same reference and
    leaves context and heap as they were.  Asked for other dimensions, it
    returns the same reference with [read] replaced by the target
    [resizeFBO] makes, a new texture that holds the old content resampled to
    the new size, with [write] replaced by a new cleared target, and with
    width, height and texel sizes set from the new dimensions. *)
Theorem resizeDoubleFBO_behaviour (P : GLProgram.t) (target : nat) (w h : Z)
    (f : InternalFormat) (fmt : PixelFormat) (ty : PixelType) (param : Filter)
    (g : GLState) (hp : Heap) (d : DoubleFBO.t) :
  heap_cells hp !! target = Some d ->
  let same := DoubleFBO.width d = w /\ DoubleFBO.height d = h in
  let r := resizeFBO P (DoubleFBO.read d) w h f fmt ty param g in
  let c := createFBO w h f fmt ty param r.2 in
  (same -> resizeDoubleFBO P target w h f fmt ty param g hp = Some (target, g, hp)) /\
  (~ same ->
   resizeDoubleFBO P target w h f fmt ty param g hp =
     Some (target, c.2,
           {| heap_next := heap_next hp;
              heap_cells :=
                <[target := DoubleFBO.mk w h (1 / IZR w) (1 / IZR h) r.1 c.1]> (heap_cells hp) |}) /\
   FBO.texture r.1 = gl_next g /\ FBO.texture c.1 = S (S (gl_next g)) /\
   gl_textures c.2 !! FBO.texture c.1 = Some (clearedImage w h f param (gl_clearColor r.2)) /\
   forall img,
     glFresh g -> gl_textures g !! FBO.texture (DoubleFBO.read d) = Some img ->
     hasText g P copyShaderText ->
     GLProgram.uniforms P !! "uTexture" = Some (GLProgram.program P, "uTexture") ->
     gl_blend g = false ->
     exists img', gl_textures c.2 !! FBO.texture r.1 = Some img' /\ resampled img img' w h f).
Proof.
  intros Hd same r c. split.
  - intros [Ew Eh]. by apply (resizeDoubleFBO_same _ _ _ _ _ _ _ _ _ _ d).
  - intros Hne. split; [exact (resizeDoubleFBO_resized _ _ _ _ _ _ _ _ _ _ d Hd Hne)|].
    assert (FBO.texture r.1 = gl_next g) as Er.
    { subst r. by rewrite resizeFBO_fst, createFBO_fst. }
    assert (FBO.texture c.1 = S (S (gl_next g))) as Ec.
    { subst c. rewrite createFBO_fst. cbn [FBO.texture]. subst r. apply resizeFBO_next. }
    split; [exact Er|]. split; [exact Ec|]. split.
    + subst c. rewrite createFBO_textures, createFBO_fst. cbn [FBO.texture].
      by rewrite lookup_insert_eq.
    + intros img HF Himg HT Hloc Hblend.
      destruct (resizeFBO_content P (DoubleFBO.read d) w h f fmt ty param g img
                  HF Himg HT Hloc Hblend) as (img' & Hl & Hres).
      exists img'. split; [|exact Hres]. fold r in Hl. subst c.
      rewrite createFBO_textures, lookup_insert_ne; [exact Hl|].
      rewrite Er. subst r. rewrite resizeFBO_next. lia.
Qed.

(** The theorem at the double target of [exampleState]: resized to its own
    4 by 4 texels, and to 8 by 2. *)
Lemma resizeDoubleFBO_behaviour_witness :
  heap_cells (heap exampleState) !! 0%nat = Some exampleTarget /\
  resizeDoubleFBO (copyProgram (programs exampleState)) 0 4 4 RG16F RG HALF_FLOAT NEAREST
    (gl_ exampleState) (heap exampleState) =
    Some (0%nat, gl_ exampleState, heap exampleState) /\
  FBO.texture
    (resizeFBO (copyProgram (programs exampleState)) (DoubleFBO.read exampleTarget) 8 2
       RG16F RG HALF_FLOAT NEAREST (gl_ exampleState)).1 = gl_next (gl_ exampleState).
Proof.
  split; [reflexivity|].
  pose proof (resizeDoubleFBO_behaviour (copyProgram (programs exampleState)) 0 4 4
                RG16F RG HALF_FLOAT NEAREST (gl_ exampleState) (heap exampleState)
                exampleTarget eq_refl) as H4.
  pose proof (resizeDoubleFBO_behaviour (copyProgram (programs exampleState)) 0 8 2
                RG16F RG HALF_FLOAT NEAREST (gl_ exampleState) (heap exampleState)
                exampleTarget eq_refl) as H8.
  cbv zeta in H4, H8. split.
  - apply (proj1 H4). split; reflexivity.
  - destruct (proj2 H8) as (_ & E & _); [|exact E]. intros [H _]. discriminate H.
Defined.

(** * Frame time *)

(** Claim C3.  Whatever the timestamps of two consecutive ticks, the [dt]
    that [calcDeltaTime] returns is at most 1/60 of a second, and it is the
    [dt] the frame of that tick runs its splat and its solver step with. *)
Theorem frame_dt_is_capped (k : Tick) (s : State) :
  let dt := (calcDeltaTime (tick_now k) s).1 in
  dt <= 1 / 60 /\
  updateFrame k s = frameWith dt k (calcDeltaTime (tick_now k) s).2.
Proof.
  intros dt. split; [|reflexivity]. subst dt. rewrite calcDeltaTime_dt.
  pose proof (Rmin_r ((IZR (tick_now k) - IZR (lastUpdateTime s)) / 1000) 0.016666). lra.
Qed.

(** * The vorticity pass in a frame *)

Lemma curlPass_blend s s' : curlPass s = Some s' -> gl_blend (gl_ s') = gl_blend (gl_ s).
Proof.
  unfold curlPass. destruct (deref (velocity (fields s)) s) as [d|]; [|discriminate].
  cbn [mbind option_bind]. unfold FBO_attach. cbv beta iota zeta. intros H.
  apply (inj Some) in H. subst s'. cbn [gl_ set_gl].
  match goal with
  | |- gl_blend (blit ?t false ?pre) = _ =>
      destruct (blit_sameObjects t pre) as (_ & _ & _ & _ & _ & -> & _)
  end.
  reflexivity.
Qed.

(** Claim C4.  For every input the vorticity shader writes a velocity whose
    two components lie in [[-1000, 1000]], and the length it divides the
    force by, plus 0.0001, is positive.  So in every frame, after the curl
    pass, the vorticity pass returns for every [dt] and every texel of the
    velocity field it wrote lies within these bounds. *)
Theorem vorticity_confinement_clamps :
  (forall e v,
     velocityBounded (vorticityShader e v) /\ 0 < v2length (curlGradient e v) + 0.0001) /\
  (forall host ks dt, exists s s1 s2 d img,
     mount host ≫= runFrames ks = Some s /\
     curlPass (set_gl (gl.disable BLEND (gl_ s)) s) = Some s1 /\
     vorticityPass dt s1 = Some s2 /\
     deref (velocity (fields s2)) s2 = Some d /\
     gl_textures (gl_ s2) !! FBO.texture (DoubleFBO.read d) = Some img /\
     forall i j, (0 <= i < FBO.width (DoubleFBO.read d))%Z ->
                 (0 <= j < FBO.height (DoubleFBO.read d))%Z ->
                 velocityBounded (texels img i j)).
Proof.
  split.
  - intros e v. split; [apply vorticityShader_bounded|apply curlGradient_guard].
  - intros host ks dt. destruct (run_spec host ks) as (s & E & R).
    assert (Ready (set_gl (gl.disable BLEND (gl_ s)) s)) as R0
      by (apply sameStores_ready; [same_stores|exact R]).
    destruct (curlPass_spec _ R0) as (s1 & E1 & R1 & _).
    pose proof (curlPass_blend _ _ E1) as B1.
    destruct (vorticityPass_bounded dt s1 R1 B1) as (s2 & d & img & E2 & Hd & Hl & Hb).
    exists s, s1, s2, d, img. split; [exact E|]. split; [exact E1|]. split; [exact E2|].
    split; [exact Hd|]. split; [exact Hl|exact Hb].
Qed.

(** * The colours of the splats *)

(** Claim C9.  The colour [generateColor] returns is [HSVtoRGB] of the hue,
    with saturation 0.4 and value 0.2, darkened by 0.15 in each channel, and
    the hue is a function of the timer: from two states with the same timer
    (and the same [COLOR_UPDATE_SPEED], a constant of the configuration) it
    returns the same hue, the same colour and the same next timer. *)
Theorem generateColor_timer_only (s1 s2 : State) :
  colorTimer s1 = colorTimer s2 ->
  COLOR_UPDATE_SPEED (config s1) = COLOR_UPDATE_SPEED (config s2) ->
  hueOf (nextColorTimer s1) = hueOf (nextColorTimer s2) /\
  (generateColor s1).1 = (generateColor s2).1 /\
  colorTimer (generateColor s1).2 = colorTimer (generateColor s2).2 /\
  (generateColor s1).1 =
    (fun c => RGB.mk (RGB.r c * 0.15) (RGB.g c * 0.15) (RGB.b c * 0.15)) <$>
      HSVtoRGB (hueOf (nextColorTimer s1)) 0.4 0.2.
Proof.
  intros Ht Hc.
  assert (nextColorTimer s1 = nextColorTimer s2) as E
    by (unfold nextColorTimer; by rewrite Ht, Hc).
  split; [by rewrite E|]. split; [by rewrite !generateColor_fst, E|].
  split; [exact E|apply generateColor_fst].
Qed.

(** The theorem at the states two different hosts boot with, whose timers
    start from the same random number. *)
Lemma generateColor_timer_only_witness :
  colorTimer (boot exampleHost) = colorTimer (boot otherHost) /\
  COLOR_UPDATE_SPEED (config (boot exampleHost)) = COLOR_UPDATE_SPEED (config (boot otherHost)) /\
  (generateColor (boot exampleHost)).1 = (generateColor (boot otherHost)).1.
Proof.
  split; [reflexivity|]. split; [reflexivity|].
  apply (generateColor_timer_only (boot exampleHost) (boot otherHost)); reflexivity.
Defined.

(** Claim C10.  In every state the hue [generateColor] computes lies in
    [[0.45, 0.65]], so the floor of six times the hue is 2 or 3, [HSVtoRGB]
    does not take the default case of its switch, and the colour returned is
    defined with each channel in [[0, 0.2 * 0.15] = [0, 0.03]]. *)
Theorem generateColor_hue_sector (s : State) :
  let h := hueOf (nextColorTimer s) in
  0.45 <= h <= 0.65 /\
  (Math_floor (h * 6) = 2%Z \/ Math_floor (h * 6) = 3%Z) /\
  is_Some (HSVtoRGB h 0.4 0.2) /\
  0.2 * 0.15 = 0.03 /\
  exists c, (generateColor s).1 = Some c /\
    0 <= RGB.r c <= 0.03 /\ 0 <= RGB.g c <= 0.03 /\ 0 <= RGB.b c <= 0.03.
Proof.
  intros h. pose proof (hueOf_range (nextColorTimer s)) as Hh. fold h in Hh.
  destruct (HSVtoRGB_bluish h Hh) as (c & Hc & _).
  destruct (generateColor_bounds s) as (c' & Hc' & Hr & Hg & Hb).
  split; [exact Hh|]. split; [exact (hue_sector h Hh)|]. split; [by rewrite Hc|].
  split; [lra|]. exists c'. split; [exact Hc'|]. lra.
Qed.

(** * The hash of a string *)

Lemma toInt32_range x : (- 2 ^ 31 <= toInt32 x < 2 ^ 31)%Z.
Proof. unfold toInt32. pose proof (Z.mod_pos_bound (x + 2 ^ 31) (2 ^ 32)). lia. Qed.

Lemma toInt32_wraps x : exists k, toInt32 x = (x + k * 2 ^ 32)%Z.
Proof.
  exists (- ((x + 2 ^ 31) / 2 ^ 32))%Z. unfold toInt32.
  pose proof (Z.div_mod (x + 2 ^ 31) (2 ^ 32)). lia.
Qed.

Lemma toInt32_congr a b k : a = (b + k * 2 ^ 32)%Z -> toInt32 a = toInt32 b.
Proof.
  intros ->. unfold toInt32.
  replace (b + k * 2 ^ 32 + 2 ^ 31)%Z with (b + 2 ^ 31 + k * 2 ^ 32)%Z by lia.
  by rewrite Z.mod_add.
Qed.

Lemma hashStep_times31 hash c :
  toInt32 (shiftLeft hash 5 - hash + c) = toInt32 (31 * hash + c).
Proof.
  unfold shiftLeft. rewrite Z.shiftl_mul_pow2 by lia.
  destruct (toInt32_wraps hash) as (k1 & ->).
  destruct (toInt32_wraps ((hash + k1 * 2 ^ 32) * 2 ^ 5)) as (k2 & ->).
  apply (toInt32_congr _ _ (32 * k1 + k2)). lia.
Qed.

Lemma hashLoop_snoc s c hash :
  hashLoop (s ++ String c EmptyString) hash =
  toInt32 (shiftLeft (hashLoop s hash) 5 - hashLoop s hash + charCode c).
Proof. revert hash. induction s as [|a s IH]; intros hash; [reflexivity|]. cbn. apply IH. Qed.

Lemma hashCode_loop s : hashCode s = hashLoop s 0.
Proof. by destruct s. Qed.

Lemma hashLoop_range s hash :
  (- 2 ^ 31 <= hash < 2 ^ 31)%Z -> (- 2 ^ 31 <= hashLoop s hash < 2 ^ 31)%Z.
Proof.
  revert hash. induction s as [|a s IH]; intros hash H; [exact H|].
  cbn [hashLoop]. apply IH, toInt32_range.
Qed.

(** Property X1.  [hashCode] of the empty string is 0, every hash is a
    signed 32-bit integer, and appending a character [c] to a string [s] gives
    [31 * hashCode s + charCode c] wrapped to 32 bits: the shift and the
    subtraction of the loop are a multiplication by 31. *)
Theorem hashCode_is_polynomial :
  hashCode EmptyString = 0%Z /\
  (forall s, (- 2 ^ 31 <= hashCode s < 2 ^ 31)%Z) /\
  (forall s c,
     hashCode (s ++ String c EmptyString) = toInt32 (31 * hashCode s + charCode c)).
Proof.
  split; [reflexivity|]. split.
  - intros s. rewrite hashCode_loop. apply hashLoop_range. lia.
  - intros s c. rewrite !hashCode_loop, hashLoop_snoc. apply hashStep_times31.
Qed.

(** * The hash of a keyword list *)

Lemma keywordsHash_from hash ks :
  foldl (fun hash k => (hash + hashCode k)%Z) hash ks = (hash + keywordsHash ks)%Z.
Proof.
  unfold keywordsHash. revert hash. induction ks as [|k ks IH]; intros hash; cbn [foldl].
  - lia.
  - rewrite IH, (IH (0 + hashCode k)%Z). lia.
Qed.

Lemma keywordsHash_cons k ks : keywordsHash (k :: ks) = (hashCode k + keywordsHash ks)%Z.
Proof. unfold keywordsHash at 1. cbn [foldl]. rewrite keywordsHash_from. lia. Qed.

Lemma keywordsHash_Permutation k1 k2 : k1 ≡ₚ k2 -> keywordsHash k1 = keywordsHash k2.
Proof.
  induction 1 as [|k l l' _ IH|a b l|l l' l'' _ IH1 _ IH2].
  - reflexivity.
  - by rewrite !keywordsHash_cons, IH.
  - rewrite !keywordsHash_cons. lia.
  - by rewrite IH1.
Qed.

(** Property X2.  The hash [setKeywords] caches a program under is the
    sum of the hashes of the keywords, so it is the same for a list and for any
    permutation of it; after a call with a list, a call with a permutation of
    that list finds the program cached and active and changes neither the
    material nor the context. *)
Theorem setKeywords_ignores_order (k1 k2 : list string) (this : Material.t) (g : GLState) :
  k1 ≡ₚ k2 ->
  let r := Material_setKeywords k1 this g in
  keywordsHash k1 = keywordsHash k2 /\
  Material_setKeywords k2 r.1 r.2 = r.
Proof.
  intros HP r. pose proof (keywordsHash_Permutation _ _ HP) as E.
  split; [exact E|].
  destruct (Material_setKeywords_resolved k1 this g) as (program & Hp & Ha). fold r in Hp, Ha.
  rewrite E in Hp. rewrite (Material_setKeywords_hit _ _ _ program Hp).
  rewrite bool_decide_eq_true_2 by done. by destruct r.
Qed.

Lemma setKeywords_ignores_order_witness :
  ["SHADING"; "MANUAL_FILTERING"] ≡ₚ ["MANUAL_FILTERING"; "SHADING"] /\
  keywordsHash ["SHADING"; "MANUAL_FILTERING"] = keywordsHash ["MANUAL_FILTERING"; "SHADING"].
Proof.
  split; [apply perm_swap|].
  apply (setKeywords_ignores_order ["SHADING"; "MANUAL_FILTERING"] ["MANUAL_FILTERING"; "SHADING"]
           (new_Material 0 (noSource displayShaderSource)) (newContext 4 4)).
  apply perm_swap.
Defined.

(** * Rounding *)

Lemma Math_floor_unique (x : R) (z : Z) : IZR z <= x < IZR z + 1 -> Math_floor x = z.
Proof. intros [H1 H2]. assert (z <= Math_floor x <= z)%Z by (by apply Math_floor_between). lia. Qed.

Lemma Math_floor_IZR z : Math_floor (IZR z) = z.
Proof. apply Math_floor_unique. lra. Qed.

Lemma Math_floor_le x y : x <= y -> (Math_floor x <= Math_floor y)%Z.
Proof.
  intros H. destruct (Math_floor_bounds x) as [Hx _]. destruct (Math_floor_bounds y) as [_ Hy].
  apply Z.lt_succ_r, lt_IZR. rewrite succ_IZR. lra.
Qed.




(** * [getResolution] *)




(** * [scaleByPixelRatio] *)


(** * [HSVtoRGB] *)

Lemma Rmax3_of a b c v : a <= v -> b <= v -> c <= v -> a = v \/ b = v \/ c = v ->
  Rmax a (Rmax b c) = v.
Proof.
  intros Ha Hb Hc H. unfold Rmax. repeat destruct (Rle_dec _ _); lra.
Qed.

Lemma Rmin3_of a b c p : p <= a -> p <= b -> p <= c -> a = p \/ b = p \/ c = p ->
  Rmin a (Rmin b c) = p.
Proof.
  intros Ha Hb Hc H. unfold Rmin. repeat destruct (Rle_dec _ _); lra.
Qed.

(** Property X5.  For a hue that is not negative, a saturation within [[0, 1]]
    and a value that is not negative, [HSVtoRGB] returns a colour whose three
    channels lie between [v * (1 - s)] and [v]; its greatest channel is [v] and
    its least one is [v * (1 - s)]. *)
Theorem HSVtoRGB_range (h s v : R) :
  0 <= h -> 0 <= s <= 1 -> 0 <= v ->
  exists c, HSVtoRGB h s v = Some c /\
    v * (1 - s) <= RGB.r c <= v /\ v * (1 - s) <= RGB.g c <= v /\
    v * (1 - s) <= RGB.b c <= v /\
    Rmax (RGB.r c) (Rmax (RGB.g c) (RGB.b c)) = v /\
    Rmin (RGB.r c) (Rmin (RGB.g c) (RGB.b c)) = v * (1 - s).
Proof.
  intros Hh Hs Hv. unfold HSVtoRGB. cbv zeta.
  pose proof (Math_floor_bounds (h * 6)) as Hf.
  assert (0 <= Math_floor (h * 6))%Z as Hi.
  { rewrite <- (Math_floor_IZR 0). apply Math_floor_le. lra. }
  set (i := Math_floor (h * 6)) in *. set (f := h * 6 - IZR i).
  assert (0 <= f < 1) as Hf' by (unfold f; lra).
  assert (0 <= v * s) as Hvs by nra.
  assert (0 <= v * s * f <= v * s) as Hq by nra.
  assert (v * (1 - f * s) = v - v * s * f) as Eq by ring.
  assert (v * (1 - (1 - f) * s) = v - v * s + v * s * f) as Et by ring.
  assert (v * (1 - s) = v - v * s) as Ep by ring.
  rewrite Eq, Et, Ep. clearbody f.
  pose proof (Z.rem_bound_pos i 6 Hi ltac:(lia)) as Hr.
  assert (Z.rem i 6 = 0 \/ Z.rem i 6 = 1 \/ Z.rem i 6 = 2 \/ Z.rem i 6 = 3 \/
          Z.rem i 6 = 4 \/ Z.rem i 6 = 5)%Z as Hcase by lia.
  destruct Hcase as [E|[E|[E|[E|[E|E]]]]]; rewrite E; eexists; (split; [reflexivity|]);
    cbn [RGB.r RGB.g RGB.b];
    (split; [lra|]); (split; [lra|]); (split; [lra|]);
    (split; [apply Rmax3_of; lra | apply Rmin3_of; lra]).
Qed.

Lemma HSVtoRGB_range_witness :
  0 <= 0.5 /\ 0 <= 0.4 <= 1 /\ 0 <= 0.2 /\ is_Some (HSVtoRGB 0.5 0.4 0.2).
Proof.
  split; [lra|]. split; [lra|]. split; [lra|].
  destruct (HSVtoRGB_range 0.5 0.4 0.2) as (c & -> & _); [lra..|]. by eexists.
Defined.



(** Property X7.  For a hue in [[-5/6, 0)] the remainder [i % 6] is
    negative, no case of the [switch] is taken, and the channels of the colour
    [HSVtoRGB] returns are undefined. *)
Theorem HSVtoRGB_negative_hue (h s v : R) :
  - 5 / 6 <= h < 0 -> HSVtoRGB h s v = None.
Proof.
  intros Hh. unfold HSVtoRGB. cbv zeta.
  assert (-5 <= Math_floor (h * 6) <= -1)%Z as Hi by (apply Math_floor_between; lra).
  set (i := Math_floor (h * 6)) in *.
  assert (i = -5 \/ i = -4 \/ i = -3 \/ i = -2 \/ i = -1)%Z as Hcase by lia.
  destruct Hcase as [E|[E|[E|[E|E]]]]; rewrite E; reflexivity.
Qed.

Lemma HSVtoRGB_negative_hue_witness :
  - 5 / 6 <= - 0.5 < 0 /\ HSVtoRGB (- 0.5) 0.4 0.2 = None.
Proof. split; [lra|]. apply HSVtoRGB_negative_hue. lra. Defined.

(** * The colour timer *)

Lemma hueOf_period t : hueOf (t - 1) = hueOf t.
Proof.
  unfold hueOf. f_equal. f_equal.
  rewrite <- (sin_period ((t - 1) * PI * 2) 1). f_equal. cbn [INR]. ring.
Qed.

Lemma nextColorTimer_cases (s : State) :
  0 <= colorTimer s <= 1 -> 0 <= COLOR_UPDATE_SPEED (config s) <= 200 ->
  let advanced := colorTimer s + 0.005 * COLOR_UPDATE_SPEED (config s) in
  0 <= nextColorTimer s <= 1 /\
  (nextColorTimer s = advanced \/ nextColorTimer s = advanced - 1).
Proof.
  intros Ht Hc. cbv zeta. unfold nextColorTimer. cbv zeta.
  set (advanced := colorTimer s + 0.005 * COLOR_UPDATE_SPEED (config s)).
  assert (0 <= advanced <= 2) as Ha by (unfold advanced; lra).
  destruct (Rgt_dec advanced 1) as [Hgt|Hle]; (split; [lra|]); [by right|by left].
Qed.

(** Property X8.  From a timer within [[0, 1]] and a
    [COLOR_UPDATE_SPEED] within [[0, 200]], [generateColor] leaves a timer within
    [[0, 1]]: the timer advanced by [0.005 * COLOR_UPDATE_SPEED], less 1 when
    that exceeds 1.  The hue is the same as that of the advanced timer, whether
    it wrapped or not, and nothing but the timer changes. *)
Theorem generateColor_timer_wraps (s : State) :
  0 <= colorTimer s <= 1 -> 0 <= COLOR_UPDATE_SPEED (config s) <= 200 ->
  let s' := (generateColor s).2 in
  let advanced := colorTimer s + 0.005 * COLOR_UPDATE_SPEED (config s) in
  0 <= colorTimer s' <= 1 /\
  (colorTimer s' = advanced \/ colorTimer s' = advanced - 1) /\
  hueOf (colorTimer s') = hueOf advanced /\
  s' = set_colorTimer (colorTimer s') s.
Proof.
  intros Ht Hc. cbv zeta.
  destruct (nextColorTimer_cases s Ht Hc) as (Hr & Hcase). cbv zeta in Hcase.
  change (colorTimer (generateColor s).2) with (nextColorTimer s).
  split; [exact Hr|]. split; [exact Hcase|]. split; [|reflexivity].
  destruct Hcase as [->| ->]; [reflexivity|apply hueOf_period].
Qed.

Lemma generateColor_timer_wraps_witness :
  0 <= colorTimer (boot exampleHost) <= 1 /\
  0 <= COLOR_UPDATE_SPEED (config (boot exampleHost)) <= 200 /\
  0 <= colorTimer (generateColor (boot exampleHost)).2 <= 1.
Proof.
  assert (0 <= colorTimer (boot exampleHost) <= 1) as H1
    by (change (colorTimer (boot exampleHost)) with 0.25; lra).
  assert (0 <= COLOR_UPDATE_SPEED (config (boot exampleHost)) <= 200) as H2
    by (change (COLOR_UPDATE_SPEED (config (boot exampleHost))) with 0.1; lra).
  split; [exact H1|]. split; [exact H2|].
  apply (generateColor_timer_wraps (boot exampleHost) H1 H2).
Defined.

(** * [calcDeltaTime] *)

(** Property X9.  [calcDeltaTime] returns the milliseconds since the last
    call divided by 1000 when they are at most 16, and 0.016666 otherwise (a
    negative gap gives a negative [dt]); it records the timestamp and changes
    nothing else, so a second call at the same timestamp returns 0. *)
Theorem calcDeltaTime_values (now : Z) (s : State) :
  let r := calcDeltaTime now s in
  let gap := (now - lastUpdateTime s)%Z in
  r.1 = (if (gap <=? 16)%Z then IZR gap / 1000 else 0.016666) /\
  lastUpdateTime r.2 = now /\
  (calcDeltaTime now r.2).1 = 0 /\
  r.2 = set_lastUpdateTime now s.
Proof.
  cbv zeta. rewrite !calcDeltaTime_dt. unfold calcDeltaTime. cbv zeta. cbn [snd].
  change (lastUpdateTime (set_lastUpdateTime now s)) with now.
  split; [|split; [reflexivity|split; [|reflexivity]]].
  - rewrite <- minus_IZR. set (gap := (now - lastUpdateTime s)%Z).
    destruct (Z.leb_spec gap 16) as [H|H].
    + apply IZR_le in H. apply Rmin_left. lra.
    + assert (17 <= gap)%Z as H' by lia. apply IZR_le in H'. apply Rmin_right. lra.
  - replace ((IZR now - IZR now) / 1000) with 0 by lra. apply Rmin_left. lra.
Qed.

(** * [resizeCanvas] *)

(** Property X10.  After [resizeCanvas] the canvas has the client size
    scaled by the pixel ratio, and a second call with the same client size
    returns [false] and changes nothing.  The call returns [false] exactly when
    the canvas already had that size, and then the state is unchanged; in every
    case it leaves the fields, the heap and the textures alone. *)
Theorem resizeCanvas_settles (clientWidth clientHeight : Z) (devicePixelRatio : R) (s : State) :
  let r := resizeCanvas clientWidth clientHeight devicePixelRatio s in
  canvas_width r.2 = scaleByPixelRatio devicePixelRatio clientWidth /\
  canvas_height r.2 = scaleByPixelRatio devicePixelRatio clientHeight /\
  resizeCanvas clientWidth clientHeight devicePixelRatio r.2 = (false, r.2) /\
  (r.1 = false <->
   canvas_width s = scaleByPixelRatio devicePixelRatio clientWidth /\
   canvas_height s = scaleByPixelRatio devicePixelRatio clientHeight) /\
  (r.1 = false -> r.2 = s) /\
  fields r.2 = fields s /\ heap r.2 = heap s /\ gl_textures (gl_ r.2) = gl_textures (gl_ s).
Proof.
  cbv zeta. unfold resizeCanvas. cbv zeta.
  set (width := scaleByPixelRatio devicePixelRatio clientWidth).
  set (height := scaleByPixelRatio devicePixelRatio clientHeight).
  destruct (decide (canvas_width s = width)) as [Ew|Nw];
    [destruct (decide (canvas_height s = height)) as [Eh|Nh]|].
  - rewrite (bool_decide_eq_true_2 _ Ew), (bool_decide_eq_true_2 _ Eh). cbn [negb orb fst snd].
    rewrite (bool_decide_eq_true_2 _ Ew), (bool_decide_eq_true_2 _ Eh). cbn [negb orb].
    repeat split; done.
  - rewrite (bool_decide_eq_true_2 _ Ew), (bool_decide_eq_false_2 _ Nh). cbn [negb orb fst snd].
    state_proj. rewrite !bool_decide_eq_true_2 by reflexivity. cbn [negb orb].
    repeat split; try done. intros [_ ?]. done.
  - rewrite (bool_decide_eq_false_2 _ Nw). cbn [negb orb fst snd].
    state_proj. rewrite !bool_decide_eq_true_2 by reflexivity. cbn [negb orb].
    repeat split; try done. intros [? _]. done.
Qed.

(** * The uniform table of a program *)

Lemma getUniforms_fold program g (l : list string) (m : gmap string UniformLocation) n :
  (forall x, x ∈ l -> x ∈ gl.activeUniforms g program) ->
  foldl (fun uniforms uniformName =>
           match gl.getUniformLocation g program uniformName with
           | Some loc => <[uniformName := loc]> uniforms
           | None => uniforms
           end) m l !! n =
  if bool_decide (n ∈ l) then Some (program, n) else m !! n.
Proof.
  revert m. induction l as [|a l IH]; intros m Hl; cbn [foldl].
  - rewrite bool_decide_eq_false_2; [done|]. apply not_elem_of_nil.
  - rewrite IH by (intros x Hx; apply Hl; by right).
    unfold gl.getUniformLocation at 1.
    rewrite (bool_decide_eq_true_2 (a ∈ gl.activeUniforms g program)) by (apply Hl; by left).
    destruct (decide (n ∈ l)) as [Hin|Hnin].
    + rewrite !bool_decide_eq_true_2; [done| by right |done].
    + rewrite (bool_decide_eq_false_2 _ Hnin). destruct (decide (n = a)) as [->|Hne].
      * rewrite lookup_insert_eq, bool_decide_eq_true_2; [done|by left].
      * rewrite lookup_insert_ne by done. rewrite bool_decide_eq_false_2; [done|].
        intros [->|?]%elem_of_cons; done.
Qed.

Lemma getUniforms_lookup program g n :
  getUniforms program g !! n = gl.getUniformLocation g program n.
Proof.
  unfold getUniforms. rewrite getUniforms_fold by done.
  rewrite lookup_empty. reflexivity.
Qed.

Lemma setUniform_null v g : setUniform None v g = g.
Proof. by destruct g. Qed.

(** Property X11.  The uniform table [new Program] builds holds, under
    every name, what [gl.getUniformLocation] returns for the linked program: the
    location for an active uniform, and nothing for any other name, so that
    setting a uniform through a name that is not active changes nothing. *)
Theorem Program_uniforms_memoized (vertexShader fragmentShader : nat) (g : GLState)
    (name : string) :
  let r := new_Program vertexShader fragmentShader g in
  GLProgram.uniforms r.1 !! name =
    gl.getUniformLocation r.2 (GLProgram.program r.1) name /\
  (name ∈ gl.activeUniforms r.2 (GLProgram.program r.1) ->
   GLProgram.uniforms r.1 !! name = Some (GLProgram.program r.1, name)) /\
  (name ∉ gl.activeUniforms r.2 (GLProgram.program r.1) ->
   GLProgram.uniforms r.1 !! name = None /\
   forall a g', gl.uniform1f (GLProgram.uniforms r.1 !! name) a g' = g').
Proof.
  cbv zeta. unfold new_Program.
  destruct (createProgram vertexShader fragmentShader g) as [program g1].
  cbn [fst snd GLProgram.uniforms GLProgram.program].
  rewrite getUniforms_lookup. split; [reflexivity|]. unfold gl.getUniformLocation. split.
  - intros H. by rewrite bool_decide_eq_true_2.
  - intros H. rewrite bool_decide_eq_false_2 by done. split; [done|].
    intros a g'. apply setUniform_null.
Qed.

(** * What [blit] touches *)

Lemma updateTarget_other_texture F g t :
  (forall fb, gl_framebuffer g = Some fb -> gl_framebuffers g !! fb <> Some (Some t)) ->
  gl_textures (updateTarget F g) !! t = gl_textures g !! t.
Proof.
  intros H. unfold updateTarget. gl_proj.
  destruct (gl_framebuffer g) as [fb|]; [|done].
  specialize (H fb eq_refl).
  destruct (gl_framebuffers g !! fb) as [[k|]|]; [|done|done].
  apply lookup_alter_ne. congruence.
Qed.

Lemma blit_other_textures target clear g t :
  (forall f, target = Some f -> gl_framebuffers g !! FBO.fbo f <> Some (Some t)) ->
  gl_textures (blit target clear g) !! t = gl_textures g !! t.
Proof.
  intros Ht. unfold blit, gl.drawElements, gl.clear. cbv zeta.
  destruct target as [f|].
  - specialize (Ht f eq_refl).
    destruct clear;
      repeat (rewrite updateTarget_other_texture by (intros fb [= <-]; exact Ht));
      reflexivity.
  - destruct clear;
      repeat (rewrite updateTarget_other_texture by (intros fb Hfb; discriminate Hfb));
      reflexivity.
Qed.

(** Property X12.  [blit] creates no object, reattaches no
    framebuffer, and keeps the programs, the shaders, the uniforms, the texture
    units, the program in use and the blending switch.  It leaves the target's
    framebuffer bound (none for the canvas) and the viewport at the target's
    size, sets the clear colour only when asked to clear, changes no texture
    but the one attached to the target, and leaves the canvas alone when the
    target is an FBO. *)
Theorem blit_draws_into_target_only (target : option FBO.t) (clear : bool) (g : GLState) :
  let g' := blit target clear g in
  gl_next g' = gl_next g /\ gl_framebuffers g' = gl_framebuffers g /\
  gl_programs g' = gl_programs g /\ gl_shaders g' = gl_shaders g /\
  gl_uniforms g' = gl_uniforms g /\ gl_units g' = gl_units g /\
  gl_program g' = gl_program g /\ gl_blend g' = gl_blend g /\
  gl_framebuffer g' = FBO.fbo <$> target /\
  gl_viewport g' =
    match target with
    | None => (drawingBufferWidth g, drawingBufferHeight g)
    | Some f => (FBO.width f, FBO.height f)
    end /\
  gl_clearColor g' = (if clear then Vec4 0 0 0 1 else gl_clearColor g) /\
  (forall t,
     (forall f, target = Some f -> gl_framebuffers g !! FBO.fbo f <> Some (Some t)) ->
     gl_textures g' !! t = gl_textures g !! t) /\
  (is_Some target -> gl_drawingBuffer g' = gl_drawingBuffer g).
Proof.
  cbv zeta.
  do 11 (split; [destruct target, clear; reflexivity|]).
  split; [intros t; apply blit_other_textures|].
  intros [f ->]. destruct clear; reflexivity.
Qed.

(** * What [createFBO] makes *)

(** Property X13.  With [HALF_FLOAT], the one pixel type of the script,
    [createFBO] takes the next two names of the context for
    the texture and the framebuffer, returns an FBO of the given size whose
    texel sizes are the inverses of its sides, leaves the texture cleared with
    the current clear colour and attached to the framebuffer, and touches no
    other texture or framebuffer.  It leaves the new framebuffer bound, the
    viewport at the given size and the texture bound to unit 0, and keeps the
    programs, the shaders and the uniforms. *)
Theorem createFBO_allocates (w h : Z) (internalFormat : InternalFormat) (format : PixelFormat)
    (param : Filter) (g : GLState) :
  let r := createFBO w h internalFormat format HALF_FLOAT param g in
  r.1 = FBO.mk (gl_next g) (S (gl_next g)) w h (1 / IZR w) (1 / IZR h) /\
  gl_next r.2 = S (S (gl_next g)) /\
  gl_textures r.2 !! gl_next g =
    Some (clearedImage w h internalFormat param (gl_clearColor g)) /\
  gl_framebuffers r.2 !! S (gl_next g) = Some (Some (gl_next g)) /\
  (forall t, t <> gl_next g -> gl_textures r.2 !! t = gl_textures g !! t) /\
  (forall fb, fb <> S (gl_next g) -> gl_framebuffers r.2 !! fb = gl_framebuffers g !! fb) /\
  gl_framebuffer r.2 = Some (S (gl_next g)) /\ gl_viewport r.2 = (w, h) /\
  gl_active_unit r.2 = 0%nat /\ gl_units r.2 !! 0%nat = Some (gl_next g) /\
  gl_programs r.2 = gl_programs g /\ gl_shaders r.2 = gl_shaders g /\
  gl_uniforms r.2 = gl_uniforms g /\ gl_program r.2 = gl_program g.
Proof.
  cbv zeta. split; [apply createFBO_fst|]. split; [apply createFBO_next|].
  rewrite createFBO_textures, createFBO_framebuffers.
  split; [apply lookup_insert_eq|]. split; [apply lookup_insert_eq|].
  split; [intros t Ht; by apply lookup_insert_ne|].
  split; [intros t Ht; by apply lookup_insert_ne|].
  split; [reflexivity|]. split; [reflexivity|]. split; [reflexivity|].
  split; [|repeat split; reflexivity].
  unfold createFBO, gl.clear, gl.viewport, gl.framebufferTexture2D, gl.bindFramebuffer,
    gl.createFramebuffer, gl.texImage2D, gl.texParameteri, gl.bindTexture, gl.createTexture,
    gl.activeTexture, updateTarget, updateBoundTexture.
  gl_proj. apply lookup_insert_eq.
Qed.

(** * What [render] touches *)

(** Property X14.  When [render(null)] succeeds it has changed no
    texture, created no object and changed neither the heap nor the fields: it
    only draws to the canvas.  It leaves blending enabled with the factors
    [(ONE, ONE_MINUS_SRC_ALPHA)], no framebuffer bound, the viewport at the size
    of the drawing buffer and the active program of the display material in
    use. *)
Theorem render_draws_to_canvas_only (s s' : State) :
  render None s = Some s' ->
  gl_textures (gl_ s') = gl_textures (gl_ s) /\ gl_next (gl_ s') = gl_next (gl_ s) /\
  heap s' = heap s /\ fields s' = fields s /\
  gl_blend (gl_ s') = true /\ gl_blendFunc (gl_ s') = (ONE, ONE_MINUS_SRC_ALPHA) /\
  gl_framebuffer (gl_ s') = None /\
  gl_viewport (gl_ s') = (drawingBufferWidth (gl_ s), drawingBufferHeight (gl_ s)) /\
  gl_program (gl_ s') = Material.activeProgram (displayMaterial s).
Proof.
  unfold render, drawDisplay. cbv zeta. state_proj.
  destruct (deref (dye (fields s)) _) as [d|]; [|discriminate].
  cbn [mbind option_bind]. unfold FBO_attach. cbv beta iota zeta. intros H.
  apply (inj Some) in H. subst s'. state_proj.
  split.
  { apply map_eq. intros t. rewrite blit_other_textures by (intros f Hf; discriminate Hf).
    destruct (SHADING (config s)); reflexivity. }
  split; [destruct (SHADING (config s)); reflexivity|].
  split; [reflexivity|]. split; [reflexivity|].
  split; [destruct (SHADING (config s)); reflexivity|].
  split; [destruct (SHADING (config s)); reflexivity|].
  split; [reflexivity|].
  split; destruct (SHADING (config s)); reflexivity.
Qed.

Lemma render_draws_to_canvas_only_witness :
  exists s', render None exampleScene = Some s' /\
    gl_textures (gl_ s') = gl_textures (gl_ exampleScene) /\ heap s' = heap exampleScene.
Proof.
  eexists. split; [reflexivity|].
  destruct (render_draws_to_canvas_only exampleScene _ eq_refl) as (Et & _ & Eh & _).
  split; [exact Et|exact Eh].
Defined.

(** * The solver's shaders on simple fields *)

(** Property X15.  On a velocity texture that is the same everywhere,
    the curl shader writes 0, and so does the divergence shader at a texel whose
    four neighbours are inside the texture; at a texel on the left or on the
    bottom edge the boundary condition reflects the velocity and the divergence
    shader writes its [x] or its [y] component. *)
Theorem uniform_flow_has_no_curl (e : ShaderEnv) (v : Varyings) (c : vec4) :
  (forall uv, texture2D e "uVelocity" uv = c) ->
  curlShader e v = Vec4 0 0 0 1 /\
  (0 <= v2x (vL v) -> v2x (vR v) <= 1 -> v2y (vT v) <= 1 -> 0 <= v2y (vB v) ->
   divergenceShader e v = Vec4 0 0 0 1) /\
  (v2x (vL v) < 0 -> v2x (vR v) <= 1 -> v2y (vT v) <= 1 -> 0 <= v2y (vB v) ->
   divergenceShader e v = Vec4 (v4x c) 0 0 1) /\
  (0 <= v2x (vL v) -> v2x (vR v) <= 1 -> v2y (vT v) <= 1 -> v2y (vB v) < 0 ->
   divergenceShader e v = Vec4 (v4y c) 0 0 1).
Proof.
  intros H. split; [|split; [|split]].
  - unfold curlShader. cbv zeta. rewrite !H. f_equal. lra.
  - intros H1 H2 H3 H4. unfold divergenceShader. cbv zeta. rewrite !H. vec_proj.
    destruct (Rlt_dec _ _), (Rgt_dec _ _), (Rgt_dec _ _), (Rlt_dec _ _); try lra.
    f_equal. lra.
  - intros H1 H2 H3 H4. unfold divergenceShader. cbv zeta. rewrite !H. vec_proj.
    destruct (Rlt_dec _ _), (Rgt_dec _ _), (Rgt_dec _ _), (Rlt_dec _ _); try lra.
    f_equal. lra.
  - intros H1 H2 H3 H4. unfold divergenceShader. cbv zeta. rewrite !H. vec_proj.
    destruct (Rlt_dec _ _), (Rgt_dec _ _), (Rgt_dec _ _), (Rlt_dec _ _); try lra.
    f_equal. lra.
Qed.

Lemma uniform_flow_has_no_curl_witness :
  (forall uv, texture2D exampleEnv "uVelocity" uv = Vec4 0 0 0 1) /\
  curlShader exampleEnv exampleVaryings = Vec4 0 0 0 1.
Proof.
  assert (forall uv, texture2D exampleEnv "uVelocity" uv = Vec4 0 0 0 1) as H
    by (intros uv; reflexivity).
  split; [exact H|]. apply (uniform_flow_has_no_curl exampleEnv exampleVaryings _ H).
Defined.

(** Property X16.  On a pressure texture that is the same
    everywhere, a Jacobi iteration of the pressure shader writes that pressure
    less a quarter of the divergence (the pressure itself where the divergence
    is 0), and the gradient subtraction leaves the velocity as it is. *)
Theorem constant_pressure_exerts_no_force (e : ShaderEnv) (v : Varyings) (p : R) :
  (forall uv, v4x (texture2D e "uPressure" uv) = p) ->
  pressureShader e v = Vec4 (p - v4x (texture2D e "uDivergence" (vUv v)) * 0.25) 0 0 1 /\
  (v4x (texture2D e "uDivergence" (vUv v)) = 0 -> pressureShader e v = Vec4 p 0 0 1) /\
  gradientSubtractShader e v =
    Vec4 (v4x (texture2D e "uVelocity" (vUv v))) (v4y (texture2D e "uVelocity" (vUv v))) 0 1.
Proof.
  intros H. split; [|split].
  - unfold pressureShader. cbv zeta. rewrite !H. f_equal. lra.
  - intros H0. unfold pressureShader. cbv zeta. rewrite !H, H0. f_equal. lra.
  - unfold gradientSubtractShader. cbv zeta. rewrite !H. vec_proj. f_equal; lra.
Qed.

Lemma constant_pressure_exerts_no_force_witness :
  (forall uv, v4x (texture2D exampleEnv "uPressure" uv) = 0) /\
  pressureShader exampleEnv exampleVaryings = Vec4 0 0 0 1.
Proof.
  assert (forall uv, v4x (texture2D exampleEnv "uPressure" uv) = 0) as H
    by (intros uv; reflexivity).
  split; [exact H|].
  apply (constant_pressure_exerts_no_force exampleEnv exampleVaryings 0 H). reflexivity.
Defined.

(** * Advection *)

Lemma fract_range x : 0 <= fract x < 1.
Proof. unfold fract, floorf. pose proof (Math_floor_bounds x). unfold Math_floor in *. lra. Qed.

Lemma mix_bounded M a b t :
  0 <= t <= 1 -> v4bounded M a -> v4bounded M b -> v4bounded M (mix a b t).
Proof.
  intros Ht (A1 & A2 & A3 & A4) (B1 & B2 & B3 & B4). unfold mix, v4bounded. vec_proj.
  repeat split; nra.
Qed.

Lemma bilerp_bounded M e sam uv ts :
  (forall uv, v4bounded M (texture2D e sam uv)) -> v4bounded M (bilerp e sam uv ts).
Proof.
  intros H. unfold bilerp. cbv zeta. vec_proj.
  repeat apply mix_bounded; try apply H; match goal with |- 0 <= fract ?x <= 1 =>
    pose proof (fract_range x); lra end.
Qed.

(** Property X17.  With [dt] and the dissipation not negative, when
    every component of the source lies within [[-M, M]] so does every
    component the advection shader writes, with or without manual filtering.
    With [dt = 0] and hardware filtering the shader copies the source. *)
Theorem advection_never_amplifies (e : ShaderEnv) (v : Varyings) (M : R) :
  0 <= uniformFloat e "dt" -> 0 <= uniformFloat e "dissipation" ->
  (forall uv, v4bounded M (texture2D e "uSource" uv)) ->
  v4bounded M (advectionShader e v) /\
  (uniformFloat e "dt" = 0 -> ifdef e "MANUAL_FILTERING" = false ->
   advectionShader e v = texture2D e "uSource" (vUv v)).
Proof.
  intros Hdt Hdis H. split.
  - unfold advectionShader. cbv zeta.
    set (decay := 1 + uniformFloat e "dissipation" * uniformFloat e "dt").
    assert (1 <= decay) as Hd by (unfold decay; nra).
    assert (0 < / decay <= 1) as Hi.
    { split; [apply Rinv_0_lt_compat; lra|]. rewrite <- Rinv_1. apply Rinv_le_contravar; lra. }
    match goal with |- v4bounded M (v4scale _ ?r) => assert (v4bounded M r) as (B1 & B2 & B3 & B4) end.
    { destruct (ifdef e "MANUAL_FILTERING"); [by apply bilerp_bounded|apply H]. }
    set (k := / decay) in *. clearbody k. unfold v4bounded. vec_proj. repeat split; nra.
  - intros E0 Hm. unfold advectionShader. cbv zeta. rewrite Hm, E0.
    replace (1 + uniformFloat e "dissipation" * 0) with 1 by lra. rewrite Rinv_1.
    match goal with |- v4scale 1 (texture2D e _ ?uv) = _ =>
      replace uv with (vUv v) by (destruct (vUv v); unfold v2sub, v2mul, v2scale; vec_proj;
                                   f_equal; lra) end.
    destruct (texture2D e "uSource" (vUv v)). unfold v4scale. vec_proj. f_equal; lra.
Qed.

Lemma advection_never_amplifies_witness :
  0 <= uniformFloat exampleEnv "dt" /\ 0 <= uniformFloat exampleEnv "dissipation" /\
  (forall uv, v4bounded 1 (texture2D exampleEnv "uSource" uv)) /\
  v4bounded 1 (advectionShader exampleEnv exampleVaryings).
Proof.
  assert (0 <= uniformFloat exampleEnv "dt") as H1 by (cbn; lra).
  assert (0 <= uniformFloat exampleEnv "dissipation") as H2 by (cbn; lra).
  assert (forall uv, v4bounded 1 (texture2D exampleEnv "uSource" uv)) as H3
    by (intros uv; unfold v4bounded; cbn; lra).
  split; [exact H1|]. split; [exact H2|]. split; [exact H3|].
  apply (advection_never_amplifies exampleEnv exampleVaryings 1 H1 H2 H3).
Defined.

(** * Splats *)

(** Property X18.  With a positive radius the splat shader adds to the
    target the colour weighted by a factor within [(0, 1]], which is 1 at the
    point of the splat, and writes alpha 1; so under the blend factors
    [(ONE, ONE_MINUS_SRC_ALPHA)] that [render] leaves set, the splat replaces the
    destination rather than blending with it. *)
Theorem splat_adds_a_gaussian (e : ShaderEnv) (v : Varyings) :
  0 < uniformFloat e "radius" ->
  let base := texture2D e "uTarget" (vUv v) in
  let color := uniformVec3 e "color" in
  exists weight,
    0 < weight <= 1 /\
    splatShader e v =
      Vec4 (v4x base + weight * v3x color) (v4y base + weight * v3y color)
           (v4z base + weight * v3z color) 1 /\
    (vUv v = uniformVec2 e "point" -> weight = 1) /\
    forall g dst,
      gl_blendFunc g = (ONE, ONE_MINUS_SRC_ALPHA) ->
      blendColor g (splatShader e v) dst = splatShader e v.
Proof.
  intros Hr. cbv zeta. unfold splatShader. cbv zeta.
  set (p := Vec2 _ _). set (weight := exp (- v2dot p p / uniformFloat e "radius")).
  assert (0 <= v2dot p p) as Hd by (unfold v2dot; nra).
  assert (- v2dot p p / uniformFloat e "radius" <= 0) as Hx.
  { unfold Rdiv. pose proof (Rinv_0_lt_compat _ Hr). nra. }
  assert (0 < weight <= 1) as Hw.
  { split; [apply exp_pos|]. unfold weight. rewrite <- exp_0.
    destruct Hx as [Hx|Hx]; [left; by apply exp_increasing | rewrite Hx; lra]. }
  exists weight. split; [exact Hw|]. split; [reflexivity|]. split.
  - intros E. unfold weight. rewrite <- exp_0. f_equal.
    assert (v2dot p p = 0) as ->; [|unfold Rdiv; ring].
    unfold p, v2dot, v2sub. rewrite E. vec_proj. ring.
  - intros g dst Hf. unfold blendColor. rewrite Hf. destruct (gl_blend g); [|reflexivity].
    unfold v4add, v4scale, blendFactor. vec_proj. cbn [fst snd]. f_equal; ring.
Qed.

Lemma splat_adds_a_gaussian_witness :
  0 < uniformFloat exampleEnv "radius" /\
  blendColor (gl.blendFunc ONE ONE_MINUS_SRC_ALPHA (gl.enable BLEND (newContext 4 4)))
    (splatShader exampleEnv exampleVaryings) (Vec4 1 1 1 1) =
  splatShader exampleEnv exampleVaryings.
Proof.
  assert (0 < uniformFloat exampleEnv "radius") as H by (cbn; lra).
  split; [exact H|].
  destruct (splat_adds_a_gaussian exampleEnv exampleVaryings H) as (w & _ & _ & _ & Hb).
  apply Hb. reflexivity.
Defined.

(** * The display shader *)

(** Property X19.  The alpha the display shader writes is the
    greatest of the three channels it writes, and these are the channels of the
    dye scaled by one factor, which lies within [[0.7, 1]] and is 1 without
    [SHADING]. *)
Theorem display_alpha_is_brightness (e : ShaderEnv) (v : Varyings) :
  let c := displayShader e v in
  let sampled := texture2D e "uTexture" (vUv v) in
  v4w c = Rmax (v4x c) (Rmax (v4y c) (v4z c)) /\
  exists diffuse,
    0.7 <= diffuse <= 1 /\
    (ifdef e "SHADING" = false -> diffuse = 1) /\
    v4x c = diffuse * v4x sampled /\ v4y c = diffuse * v4y sampled /\
    v4z c = diffuse * v4z sampled.
Proof.
  cbv zeta. unfold displayShader. cbv zeta. split; [reflexivity|].
  destruct (ifdef e "SHADING").
  - match goal with |- context [clamp ?x 0.7 1] => exists (clamp x 0.7 1) end.
    split.
    { unfold clamp. split; [apply Rmin_glb; [apply Rmax_r|lra]|apply Rmin_r]. }
    split; [discriminate|]. by repeat split.
  - exists 1. split; [lra|]. split; [reflexivity|]. vec_proj. repeat split; lra.
Qed.

(** * What the passes of a frame swap and keep *)

Lemma sameCanvasSize_refl g : sameCanvasSize g g.
Proof. by split. Qed.

Lemma sameCanvasSize_trans g1 g2 g3 :
  sameCanvasSize g1 g2 -> sameCanvasSize g2 g3 -> sameCanvasSize g1 g3.
Proof. intros [H1 H2] [H3 H4]. split; congruence. Qed.

Lemma updateTarget_canvas F g :
  (forall img, tex_width (F img) = tex_width img /\ tex_height (F img) = tex_height img) ->
  sameCanvasSize g (updateTarget F g).
Proof.
  intros HF. unfold sameCanvasSize, drawingBufferWidth, drawingBufferHeight, updateTarget.
  gl_proj. destruct (gl_framebuffer g); [by split|apply HF].
Qed.

Lemma blit_canvas target g : sameCanvasSize g (blit target false g).
Proof.
  unfold blit, gl.drawElements. cbv zeta.
  destruct target as [f|];
    (eapply sameCanvasSize_trans; [|apply updateTarget_canvas; intros img; apply drawImage_shape]);
    by split.
Qed.

Lemma passEffect_refl s : passEffect [] s s.
Proof. by repeat split. Qed.

Lemma passEffect_trans vs1 vs2 s s1 s2 :
  passEffect vs1 s s1 -> passEffect vs2 s1 s2 -> passEffect (vs1 ++ vs2) s s2.
Proof.
  intros (K1 & H1 & N1 & F1 & B1) (K2 & H2 & N2 & F2 & B2).
  split; [by eapply Kept_trans|]. rewrite foldl_app, <- H1.
  split; [exact H2|]. split; [congruence|]. split; [congruence|].
  by eapply sameCanvasSize_trans.
Qed.

Lemma passEffect_set_gl vs s s' g :
  gl_next g = gl_next (gl_ s) -> gl_framebuffers g = gl_framebuffers (gl_ s) ->
  sameCanvasSize (gl_ s) g ->
  passEffect vs (set_gl g s) s' -> passEffect vs s s'.
Proof.
  intros En Ef Eb (K & H & N & F & B). cbn [gl_ set_gl] in N, F, B.
  split; [|split; [exact H|split; [congruence|split; [congruence|]]]].
  - destruct K as (K1 & K2 & K3 & K4 & K5 & K6 & K7 & K8 & K9 & K10). by repeat split.
  - by eapply sameCanvasSize_trans.
Qed.

Lemma drawn_only_effect s pre target :
  gl_next pre = gl_next (gl_ s) -> gl_framebuffers pre = gl_framebuffers (gl_ s) ->
  sameCanvasSize (gl_ s) pre ->
  passEffect [] s (set_gl (blit target false pre) s).
Proof.
  intros En Ef Eb.
  destruct (blit_sameObjects target pre) as (_ & _ & _ & _ & Hf & _ & Hn).
  split; [by repeat split|]. split; [reflexivity|]. state_proj.
  split; [congruence|]. split; [congruence|].
  eapply sameCanvasSize_trans; [exact Eb|apply blit_canvas].
Qed.

Lemma drawn_effect v s s' pre target :
  gl_next pre = gl_next (gl_ s) -> gl_framebuffers pre = gl_framebuffers (gl_ s) ->
  sameCanvasSize (gl_ s) pre ->
  swapOf v (set_gl (blit target false pre) s) = Some s' ->
  passEffect [v] s s'.
Proof.
  intros En Ef Eb H. destruct (swapOf_inv _ _ _ H) as (ref & d & -> & _ & ->).
  destruct (drawn_only_effect s pre target En Ef Eb) as (K & _ & N & F & B).
  split; [exact K|]. split; [reflexivity|]. split; [exact N|]. split; [exact F|exact B].
Qed.

Lemma curlPass_effect s s' : curlPass s = Some s' -> passEffect [] s s'.
Proof.
  unfold curlPass. intros H. open_some H. apply (inj Some) in H. subst s'.
  apply drawn_only_effect; same_stores.
Qed.

Lemma vorticityPass_effect dt s s' :
  vorticityPass dt s = Some s' -> passEffect [velocity (fields s)] s s'.
Proof. unfold vorticityPass. intros H. open_some H. refine (drawn_effect _ _ _ _ _ _ _ _ H); same_stores. Qed.

Lemma divergencePass_effect s s' : divergencePass s = Some s' -> passEffect [] s s'.
Proof.
  unfold divergencePass. intros H. open_some H. apply (inj Some) in H. subst s'.
  apply drawn_only_effect; same_stores.
Qed.

Lemma clearPass_effect s s' :
  clearPass s = Some s' -> passEffect [pressure (fields s)] s s'.
Proof. unfold clearPass. intros H. open_some H. refine (drawn_effect _ _ _ _ _ _ _ _ H); same_stores. Qed.

Lemma pressureIteration_effect s s' :
  pressureIteration s = Some s' -> passEffect [pressure (fields s)] s s'.
Proof. unfold pressureIteration. intros H. open_some H. refine (drawn_effect _ _ _ _ _ _ _ _ H); same_stores. Qed.

Lemma pressureLoop_effect n s s' :
  pressureLoop n s = Some s' -> passEffect (replicate n (pressure (fields s))) s s'.
Proof.
  revert s. induction n as [|n IH]; intros s H; cbn [pressureLoop replicate] in *.
  - apply (inj Some) in H. subst s'. apply passEffect_refl.
  - destruct (pressureIteration s) as [s1|] eqn:E1; [|discriminate H].
    cbn [mbind option_bind] in H.
    pose proof (pressureIteration_effect _ _ E1) as P1.
    pose proof (IH _ H) as P2.
    assert (fields s1 = fields s) as EF by apply P1. rewrite EF in P2.
    exact (passEffect_trans [_] _ _ _ _ P1 P2).
Qed.

Lemma pressurePass_effect s s' :
  pressurePass s = Some s' ->
  passEffect (replicate (Z.to_nat (PRESSURE_ITERATIONS (config s))) (pressure (fields s))) s s'.
Proof.
  unfold pressurePass. intros H. open_some H.
  apply pressureLoop_effect in H. revert H. apply passEffect_set_gl; same_stores.
Qed.

Lemma gradientSubtractPass_effect s s' :
  gradientSubtractPass s = Some s' -> passEffect [velocity (fields s)] s s'.
Proof. unfold gradientSubtractPass. intros H. open_some H. refine (drawn_effect _ _ _ _ _ _ _ _ H); same_stores. Qed.

Lemma advectVelocityPass_effect dt s s' :
  advectVelocityPass dt s = Some s' -> passEffect [velocity (fields s)] s s'.
Proof.
  unfold advectVelocityPass. intros H. open_some H.
  destruct (supportLinearFiltering s); refine (drawn_effect _ _ _ _ _ _ _ _ H); same_stores.
Qed.

Lemma advectDyePass_effect s s' :
  advectDyePass s = Some s' -> passEffect [dye (fields s)] s s'.
Proof.
  unfold advectDyePass. intros H. open_some H.
  destruct (supportLinearFiltering s); refine (drawn_effect _ _ _ _ _ _ _ _ H); same_stores.
Qed.

Lemma step_effect dt s s' : step dt s = Some s' -> passEffect (stepSwaps s) s s'.
Proof.
  unfold step. cbv zeta. intros H.
  apply (passEffect_set_gl _ _ _ (gl.disable BLEND (gl_ s))); [same_stores..|].
  set (s0 := set_gl (gl.disable BLEND (gl_ s)) s) in *.
  change (stepSwaps s) with (stepSwaps s0). clearbody s0. clear s.
  destruct (curlPass s0) as [s1|] eqn:E1; [|discriminate H]. cbn [mbind option_bind] in H.
  destruct (vorticityPass dt s1) as [s2|] eqn:E2; [|discriminate H]. cbn [mbind option_bind] in H.
  destruct (divergencePass s2) as [s3|] eqn:E3; [|discriminate H]. cbn [mbind option_bind] in H.
  destruct (clearPass s3) as [s4|] eqn:E4; [|discriminate H]. cbn [mbind option_bind] in H.
  destruct (pressurePass s4) as [s5|] eqn:E5; [|discriminate H]. cbn [mbind option_bind] in H.
  destruct (gradientSubtractPass s5) as [s6|] eqn:E6; [|discriminate H].
  cbn [mbind option_bind] in H.
  destruct (advectVelocityPass dt s6) as [s7|] eqn:E7; [|discriminate H].
  cbn [mbind option_bind] in H.
  apply curlPass_effect in E1. apply vorticityPass_effect in E2.
  apply divergencePass_effect in E3. apply clearPass_effect in E4.
  apply pressurePass_effect in E5. apply gradientSubtractPass_effect in E6.
  apply advectVelocityPass_effect in E7. apply advectDyePass_effect in H.
  assert (fields s1 = fields s0 /\ config s1 = config s0) as [F1 C1] by (split; apply E1).
  assert (fields s2 = fields s1 /\ config s2 = config s1) as [F2 C2] by (split; apply E2).
  assert (fields s3 = fields s2 /\ config s3 = config s2) as [F3 C3] by (split; apply E3).
  assert (fields s4 = fields s3 /\ config s4 = config s3) as [F4 C4] by (split; apply E4).
  assert (fields s5 = fields s4 /\ config s5 = config s4) as [F5 C5] by (split; apply E5).
  assert (fields s6 = fields s5 /\ config s6 = config s5) as [F6 C6] by (split; apply E6).
  assert (fields s7 = fields s6 /\ config s7 = config s6) as [F7 C7] by (split; apply E7).
  rewrite F7, F6, F5, F4, F3, F2, F1 in H. rewrite F6, F5, F4, F3, F2, F1 in E7.
  rewrite F5, F4, F3, F2, F1 in E6. rewrite F4, F3, F2, F1, C4, C3, C2, C1 in E5.
  rewrite F3, F2, F1 in E4. rewrite F1 in E2.
  pose proof (passEffect_trans _ _ _ _ _ E1 E2) as P.
  pose proof (passEffect_trans _ _ _ _ _ P E3) as P3.
  pose proof (passEffect_trans _ _ _ _ _ P3 E4) as P4.
  pose proof (passEffect_trans _ _ _ _ _ P4 E5) as P5.
  pose proof (passEffect_trans _ _ _ _ _ P5 E6) as P6.
  pose proof (passEffect_trans _ _ _ _ _ P6 E7) as P7.
  pose proof (passEffect_trans _ _ _ _ _ P7 H) as P8.
  unfold stepSwaps. cbv zeta.
  replace ([velocity (fields s0); pressure (fields s0)] ++
           replicate (Z.to_nat (PRESSURE_ITERATIONS (config s0))) (pressure (fields s0)) ++
           [velocity (fields s0); velocity (fields s0); dye (fields s0)])
    with ((((((([] ++ [velocity (fields s0)]) ++ []) ++ [pressure (fields s0)]) ++
            replicate (Z.to_nat (PRESSURE_ITERATIONS (config s0))) (pressure (fields s0))) ++
           [velocity (fields s0)]) ++ [velocity (fields s0)]) ++ [dye (fields s0)]);
    [exact P8|].
  cbn [app]. rewrite ?app_nil_r, <- ?app_assoc. reflexivity.
Qed.

Lemma splat_effect x y dx dy color s s' :
  splat x y dx dy color s = Some s' ->
  passEffect [velocity (fields s); dye (fields s)] s s'.
Proof.
  unfold splat. cbv zeta. intros H. open_some H.
  match type of H with
  | context [swapOf ?v ?s0] => destruct (swapOf v s0) as [s1|] eqn:E1; [|discriminate H]
  end.
  cbn [mbind option_bind] in H.
  assert (passEffect [velocity (fields s)] s s1) as P1
    by (refine (drawn_effect _ _ _ _ _ _ _ _ E1); same_stores).
  clear E1. open_some H.
  assert (passEffect [dye (fields s1)] s1 s') as P2
    by (refine (drawn_effect _ _ _ _ _ _ _ _ H); same_stores).
  assert (fields s1 = fields s) as EF by apply P1. rewrite EF in P2.
  exact (passEffect_trans [_] [_] _ _ _ P1 P2).
Qed.

Lemma autoSplat_effect dt s s' :
  autoSplat dt s = Some s' ->
  let fs := fields s in
  passEffect [velocity fs; dye fs; velocity fs; dye fs] (advanceTimers dt s) s'.
Proof.
  unfold autoSplat, generateColor. cbv zeta. intros H.
  match type of H with
  | context [fmap ?f ?c] => destruct c as [c0|]; [|discriminate H]
  end.
  cbn [fmap option_fmap option_map mbind option_bind] in H.
  match type of H with
  | context [splat ?x ?y ?dx ?dy ?c ?s0] =>
      destruct (splat x y dx dy c s0) as [s1|] eqn:E1; [|discriminate H]
  end.
  cbn [mbind option_bind] in H.
  apply splat_effect in E1. apply splat_effect in H.
  assert (fields s1 = fields s) as EF by apply E1. rewrite EF in H.
  exact (passEffect_trans [_; _] [_; _] _ _ _ E1 H).
Qed.

Lemma render_effect target s s' : render target s = Some s' -> passEffect [] s s'.
Proof.
  unfold render, drawDisplay. cbv zeta. intros H. open_some H.
  apply (inj Some) in H. subst s'.
  apply (passEffect_set_gl _ _ _ (gl.enable BLEND (gl.blendFunc ONE ONE_MINUS_SRC_ALPHA (gl_ s))));
    [same_stores..|].
  destruct (SHADING _); apply drawn_only_effect; same_stores.
Qed.

(** ** Swaps on the heap *)

Lemma heap_next_swaps hp vs : heap_next (foldl swapped hp vs) = heap_next hp.
Proof.
  revert hp. induction vs as [|v vs IH]; intros hp; [reflexivity|].
  cbn [foldl]. rewrite IH. by destruct v.
Qed.

Lemma swap_iter_parity n (x : option DoubleFBO.t) :
  Nat.iter n (fmap DoubleFBO.swap) x = if Nat.even n then x else DoubleFBO.swap <$> x.
Proof.
  induction n as [|n IH]; [reflexivity|]. rewrite Nat.iter_succ, IH, Nat.even_succ.
  rewrite <- Nat.negb_even. destruct (Nat.even n); cbn [negb]; [reflexivity|].
  destruct x as [d|]; cbn; [|reflexivity]. by rewrite swap_involutive.
Qed.

Lemma lookup_swaps (r : nat) vs hp :
  heap_cells (foldl swapped hp vs) !! r =
  Nat.iter (swapCount (Some r) vs) (fmap DoubleFBO.swap) (heap_cells hp !! r).
Proof.
  induction vs as [|u vs IH] using rev_ind; [reflexivity|].
  rewrite foldl_app. cbn [foldl]. unfold swapCount. rewrite filter_app, length_app.
  fold (swapCount (Some r) vs). rewrite Nat.add_comm.
  destruct u as [r'|]; cbn [swapped heap_update heap_cells].
  - destruct (decide (r' = r)) as [->|Hne].
    + rewrite lookup_alter_eq, IH. rewrite filter_cons_True by done. reflexivity.
    + rewrite lookup_alter_ne by done. rewrite filter_cons_False by congruence. exact IH.
  - rewrite filter_cons_False by done. exact IH.
Qed.

Lemma deref_swaps v vs s s' :
  heap s' = foldl swapped (heap s) vs ->
  deref v s' = if Nat.even (swapCount v vs) then deref v s else DoubleFBO.swap <$> deref v s.
Proof.
  intros H. destruct v as [r|]; [|by destruct (Nat.even _)].
  unfold deref. cbn [mbind option_bind]. rewrite H, lookup_swaps. apply swap_iter_parity.
Qed.

Lemma resizeDoubleFBO_ref P target w h f fmt ty param g hp r :
  resizeDoubleFBO P target w h f fmt ty param g hp = Some r ->
  r.1.1 = target /\ heap_next r.2 = heap_next hp.
Proof.
  intros Hr. destruct (heap_cells hp !! target) as [d0|] eqn:Hd.
  2: { unfold resizeDoubleFBO in Hr. rewrite Hd in Hr. discriminate Hr. }
  destruct (decide (DoubleFBO.width d0 = w /\ DoubleFBO.height d0 = h)) as [[Ew Eh]|Hne].
  - rewrite (resizeDoubleFBO_same _ _ _ _ _ _ _ _ _ _ d0 Hd Ew Eh) in Hr.
    apply (inj Some) in Hr. subst r. by split.
  - rewrite (resizeDoubleFBO_resized _ _ _ _ _ _ _ _ _ _ d0 Hd Hne) in Hr.
    apply (inj Some) in Hr. subst r. by split.
Qed.

Lemma createOrResize_ref v w h f fmt ty param s r :
  createOrResize v w h f fmt ty param s = Some r ->
  fields r.2 = fields s /\
  match v with
  | Some target => r.1 = target /\ heap_next (heap r.2) = heap_next (heap s)
  | None => r.1 = heap_next (heap s) /\ heap_next (heap r.2) = S (heap_next (heap s))
  end.
Proof.
  unfold createOrResize. destruct v as [target|].
  - destruct (resizeDoubleFBO _ _ _ _ _ _ _ _ _ _) as [[[ref g] hp]|] eqn:E; [|discriminate].
    cbn [mbind option_bind]. intros H. apply (inj Some) in H. subst r.
    destruct (resizeDoubleFBO_ref _ _ _ _ _ _ _ _ _ _ _ E) as [E1 E2]. cbn [fst snd] in *.
    split; [reflexivity|]. split; [exact E1|exact E2].
  - destruct (createDoubleFBO_spec w h f fmt ty param (gl_ s) (heap s))
      as (fbo1 & fbo2 & g2 & -> & _).
    intros H. apply (inj Some) in H. subst r. by repeat split.
Qed.

Lemma getResolution_canvas r g g' : sameCanvasSize g g' -> getResolution r g' = getResolution r g.
Proof. intros [Hw Hh]. unfold getResolution. by rewrite Hw, Hh. Qed.

Lemma doubleSized_swap wh d : doubleSized wh d -> doubleSized wh (DoubleFBO.swap d).
Proof. intros (H1 & H2 & H3). by repeat split. Qed.

Lemma heapCoherent_swaps hp vs : heapCoherent hp -> heapCoherent (foldl swapped hp vs).
Proof.
  intros H ref d. rewrite lookup_swaps. destruct (heap_cells hp !! ref) as [d0|] eqn:E.
  - rewrite swap_iter_parity. destruct (Nat.even _); cbn; intros [= <-].
    + by apply (H ref).
    + exact (doubleSized_swap _ _ (H ref d0 E)).
  - rewrite swap_iter_parity. by destruct (Nat.even _).
Qed.

Lemma deref_swaps_sized wh v vs s s' :
  heap s' = foldl swapped (heap s) vs ->
  (exists d, deref v s = Some d /\ doubleSized wh d) ->
  exists d, deref v s' = Some d /\ doubleSized wh d.
Proof.
  intros H (d & Hd & Hs). rewrite (deref_swaps v vs s s' H), Hd.
  destruct (Nat.even _); eexists; (split; [reflexivity|]); [exact Hs|by apply doubleSized_swap].
Qed.

Lemma passEffect_sized vs s s' : passEffect vs s s' -> fieldsSized s -> fieldsSized s'.
Proof.
  intros (K & H & _ & _ & B) [S0 S1 S2 S3 S4 S5].
  assert (fields s' = fields s /\ config s' = config s) as [EF EC] by (split; apply K).
  split; rewrite ?EF, ?EC, ?(getResolution_canvas _ _ _ B).
  - rewrite H. by apply heapCoherent_swaps.
  - by apply (deref_swaps_sized _ _ vs s).
  - by apply (deref_swaps_sized _ _ vs s).
  - exact S3.
  - exact S4.
  - by apply (deref_swaps_sized _ _ vs s).
Qed.

(** ** Creation keeps the canvas *)

Lemma createFBO_canvas w h f fmt ty param g :
  gl_drawingBuffer (createFBO w h f fmt ty param g).2 = gl_drawingBuffer g.
Proof. reflexivity. Qed.

Lemma resizeFBO_canvas P target w h f fmt ty param g :
  sameCanvasSize g (resizeFBO P target w h f fmt ty param g).2.
Proof.
  pose proof (createFBO_canvas w h f fmt ty param g) as E.
  unfold resizeFBO. destruct (createFBO w h f fmt ty param g) as [new g1]. cbn [snd] in E.
  unfold FBO_attach. cbv beta iota zeta. cbn [snd].
  eapply sameCanvasSize_trans; [|apply blit_canvas].
  unfold sameCanvasSize, drawingBufferWidth, drawingBufferHeight.
  change (gl_drawingBuffer (gl.uniform1i _ _ (gl.bindTexture _ (gl.activeTexture _
            (Program_bind P g1))))) with (gl_drawingBuffer g1).
  by rewrite E.
Qed.

Lemma doubleSized_own d wh : doubleSized wh d -> doubleSized (DoubleFBO.width d, DoubleFBO.height d) d.
Proof. intros (H1 & H2 & H3). rewrite H1. by repeat split. Qed.

Lemma heapCoherent_insert hp ref d wh :
  heapCoherent hp -> doubleSized wh d ->
  forall n, heapCoherent {| heap_next := n; heap_cells := <[ref := d]> (heap_cells hp) |}.
Proof.
  intros H Hd n r d0. cbn [heap_cells]. destruct (decide (ref = r)) as [->|Hne].
  - rewrite lookup_insert_eq. intros [= <-]. by eapply doubleSized_own.
  - rewrite lookup_insert_ne by done. apply H.
Qed.

Lemma createDoubleFBO_sized w h f fmt ty param g hp :
  let r := createDoubleFBO w h f fmt ty param g hp in
  r.1.1 = heap_next hp /\ sameCanvasSize g r.1.2 /\
  exists d,
    r.2 = {| heap_next := S (heap_next hp);
             heap_cells := <[heap_next hp := d]> (heap_cells hp) |} /\
    doubleSized (w, h) d.
Proof.
  cbv zeta. unfold createDoubleFBO, heap_alloc.
  pose proof (createFBO_fst w h f fmt ty param g) as E1.
  pose proof (createFBO_canvas w h f fmt ty param g) as B1.
  destruct (createFBO w h f fmt ty param g) as [fbo1 g1]. cbn [fst snd] in *.
  pose proof (createFBO_fst w h f fmt ty param g1) as E2.
  pose proof (createFBO_canvas w h f fmt ty param g1) as B2.
  destruct (createFBO w h f fmt ty param g1) as [fbo2 g2]. cbn [fst snd] in *.
  split; [reflexivity|]. split.
  { unfold sameCanvasSize, drawingBufferWidth, drawingBufferHeight. by rewrite B2, B1. }
  eexists. split; [reflexivity|]. subst fbo1 fbo2. by repeat split.
Qed.

Lemma resizeDoubleFBO_sized P target w h f fmt ty param g hp r :
  heapCoherent hp ->
  resizeDoubleFBO P target w h f fmt ty param g hp = Some r ->
  sameCanvasSize g r.1.2 /\ heapCoherent r.2 /\
  (exists d, heap_cells r.2 !! target = Some d /\ doubleSized (w, h) d) /\
  (forall ref, ref <> target -> heap_cells r.2 !! ref = heap_cells hp !! ref).
Proof.
  intros HC Hr. destruct (heap_cells hp !! target) as [d0|] eqn:Hd.
  2: { unfold resizeDoubleFBO in Hr. rewrite Hd in Hr. discriminate Hr. }
  destruct (decide (DoubleFBO.width d0 = w /\ DoubleFBO.height d0 = h)) as [[Ew Eh]|Hne].
  - rewrite (resizeDoubleFBO_same _ _ _ _ _ _ _ _ _ _ d0 Hd Ew Eh) in Hr.
    apply (inj Some) in Hr. subst r. cbn [fst snd].
    split; [apply sameCanvasSize_refl|]. split; [exact HC|]. split; [|done].
    exists d0. split; [exact Hd|]. rewrite <- Ew, <- Eh. by apply (HC target).
  - rewrite (resizeDoubleFBO_resized _ _ _ _ _ _ _ _ _ _ d0 Hd Hne) in Hr.
    apply (inj Some) in Hr. subst r. cbn [fst snd heap_cells].
    assert (doubleSized (w, h)
              (doubleOf w h (resizeFBO P (DoubleFBO.read d0) w h f fmt ty param g).1
                 (createFBO w h f fmt ty param
                    (resizeFBO P (DoubleFBO.read d0) w h f fmt ty param g).2).1)) as HS.
    { rewrite resizeFBO_fst, !createFBO_fst. by repeat split. }
    split; [|split; [|split]].
    + eapply sameCanvasSize_trans; [apply resizeFBO_canvas|].
      unfold sameCanvasSize, drawingBufferWidth, drawingBufferHeight.
      by rewrite createFBO_canvas.
    + by apply (heapCoherent_insert hp target _ (w, h)).
    + eexists. split; [apply lookup_insert_eq|exact HS].
    + intros ref Hne'. by apply lookup_insert_ne.
Qed.

Lemma createOrResize_sized v w h f fmt ty param s r :
  createOrResize v w h f fmt ty param s = Some r ->
  heapCoherent (heap s) ->
  sameCanvasSize (gl_ s) (gl_ r.2) /\ heapCoherent (heap r.2) /\
  (exists d, heap_cells (heap r.2) !! r.1 = Some d /\ doubleSized (w, h) d) /\
  (forall ref, ref <> r.1 -> heap_cells (heap r.2) !! ref = heap_cells (heap s) !! ref) /\
  config r.2 = config s.
Proof.
  unfold createOrResize. destruct v as [target|].
  - destruct (resizeDoubleFBO _ _ _ _ _ _ _ _ _ _) as [[[ref g] hp]|] eqn:E; [|discriminate].
    cbn [mbind option_bind]. intros H HC. apply (inj Some) in H. subst r.
    destruct (resizeDoubleFBO_ref _ _ _ _ _ _ _ _ _ _ _ E) as [E1 _].
    destruct (resizeDoubleFBO_sized _ _ _ _ _ _ _ _ _ _ _ HC E) as (B & C & D & F).
    cbn [fst snd] in *. subst ref. state_proj.
    split; [exact B|]. split; [exact C|]. split; [exact D|]. split; [exact F|reflexivity].
  - destruct (createDoubleFBO_sized w h f fmt ty param (gl_ s) (heap s))
      as (E1 & B & d & E2 & HS). cbv zeta in *.
    destruct (createDoubleFBO _ _ _ _ _ _ _ _) as [[ref g] hp]. cbn [fst snd] in *.
    intros H HC. apply (inj Some) in H. subst r ref hp. cbn [fst snd]. state_proj.
    split; [exact B|]. split; [by apply (heapCoherent_insert (heap s) _ _ (w, h))|].
    split; [exists d; split; [apply lookup_insert_eq|exact HS]|].
    split; [|reflexivity]. intros ref Hne. cbn [heap_cells]. by apply lookup_insert_ne.
Qed.

(** Name the pair of an FBO and a context that the [createFBO] at the head
    of the left side of [H] returns, with what is known of it. *)
Ltac step_createFBO H :=
  lazymatch type of H with
  | (let '(_, _) := createFBO ?w ?h ?f ?fmt ?ty ?p ?g in _) = _ =>
      let fb := fresh "fb" in let g1 := fresh "g" in
      let Ef := fresh "Ef" in let Eb := fresh "Eb" in let En := fresh "En" in
      pose proof (createFBO_fst w h f fmt ty p g) as Ef;
      pose proof (createFBO_canvas w h f fmt ty p g) as Eb;
      destruct (createFBO w h f fmt ty p g) as [fb g1]; cbn [fst snd] in Ef, Eb;
      cbv beta iota in H
  end.

Lemma initFramebuffers_inv s s' :
  initFramebuffers s = Some s' ->
  let simRes := getResolution (SIM_RESOLUTION (config s)) (gl_ s) in
  let dyeRes := getResolution (DYE_RESOLUTION (config s)) (gl_ s) in
  let filtering := if supportLinearFiltering s then LINEAR else NEAREST in
  exists ref1 s1 ref2 s2 f1 f2 d3,
    createOrResize (dye (fields s)) dyeRes.1 dyeRes.2 RGBA16F RGBA HALF_FLOAT filtering
      (set_gl (gl.disable BLEND (gl_ s)) s) = Some (ref1, s1) /\
    createOrResize (velocity (fields s1)) simRes.1 simRes.2 RG16F RG HALF_FLOAT filtering
      (set_fields (set_dye (Some ref1) (fields s1)) s1) = Some (ref2, s2) /\
    fields s' =
      {| dye := dye (fields s2); velocity := Some ref2; divergence := Some f1;
         curl := Some f2; pressure := Some (heap_next (heap s2)) |} /\
    heap s' =
      {| heap_next := S (heap_next (heap s2));
         heap_cells := <[heap_next (heap s2) := d3]> (heap_cells (heap s2)) |} /\
    sameCanvasSize (gl_ s2) (gl_ s') /\ config s' = config s2 /\
    sized (simRes.1, simRes.2) f1 /\ sized (simRes.1, simRes.2) f2 /\
    doubleSized (simRes.1, simRes.2) d3.
Proof.
  intros H. cbv delta [initFramebuffers] in H. cbv beta in H. do 8 step_let H.
  intros simRes' dyeRes' filtering'.
  destruct (createOrResize _ _ _ _ _ _ _ s0) as [[ref1 s1]|] eqn:E1; [|discriminate H].
  cbv beta iota delta [mbind option_bind] in H. step_let H.
  destruct (createOrResize _ _ _ _ _ _ _ s2) as [[ref2 s3]|] eqn:E2; [|discriminate H].
  cbv beta iota delta [mbind option_bind] in H. step_let H.
  step_createFBO H. step_let H. step_createFBO H. step_let H.
  lazymatch type of H with
  | context [createDoubleFBO ?w ?h ?f ?fmt ?ty ?p ?g ?hp] =>
      destruct (createDoubleFBO_sized w h f fmt ty p g hp) as (E3 & B3 & d3 & H3 & S3);
      cbv zeta in E3, B3, H3;
      destruct (createDoubleFBO w h f fmt ty p g hp) as [[ref3 g3] hp3];
      cbn [fst snd] in E3, B3, H3; cbv beta iota in H
  end.
  step_let H. apply (inj Some) in H. subst s'.
  exists ref1, s1, ref2, s3, fb, fb0, d3.
  split; [exact E1|]. split; [exact E2|].
  subst s7 s6 s5 s4 hp3 ref3. state_proj. fields_proj.
  split; [reflexivity|]. split; [reflexivity|]. split.
  { eapply sameCanvasSize_trans; [|exact B3].
    split; unfold drawingBufferWidth, drawingBufferHeight; rewrite Eb0, Eb; reflexivity. }
  split; [reflexivity|]. subst fb fb0.
  split; [reflexivity|]. split; [reflexivity|exact S3].
Qed.

Lemma passEffect_refs vs s s' : passEffect vs s s' -> refsOrdered s -> refsOrdered s'.
Proof.
  intros (K & H & _) (a & b & c & Ea & Eb & Ec & Hlt & Hn).
  assert (fields s' = fields s) as EF by apply K.
  exists a, b, c. rewrite EF, H, heap_next_swaps.
  split; [exact Ea|]. split; [exact Eb|]. split; [exact Ec|]. split; [exact Hlt|exact Hn].
Qed.

Lemma passEffect_settings host vs s s' :
  passEffect vs s s' -> settingsOf host s -> settingsOf host s'.
Proof.
  intros ((_ & K2 & K3 & K4 & K5 & _) & _) (S1 & S2 & S3 & S4).
  unfold settingsOf. rewrite K2, K3, K4, K5.
  split; [exact S1|]. split; [exact S2|]. split; [exact S3|exact S4].
Qed.

(** * The fields after [initFramebuffers] *)

Lemma sized_pair wh f : sized (wh.1, wh.2) f -> sized wh f.
Proof. by destruct wh. Qed.

Lemma doubleSized_pair wh d : doubleSized (wh.1, wh.2) d -> doubleSized wh d.
Proof. by destruct wh. Qed.

(** What [initFramebuffers] leaves: the three variables in order, and every
    field with the size [getResolution] gives. *)
Lemma initFramebuffers_fields s s' :
  heapCoherent (heap s) -> refsOpt s -> initFramebuffers s = Some s' ->
  refsOrdered s' /\ fieldsSized s'.
Proof.
  intros HC HO H.
  destruct (initFramebuffers_inv s s' H)
    as (ref1 & s1 & ref2 & s2 & f1 & f2 & d3 & E1 & E2 & EF & EH & B3 & G3 & Z1 & Z2 & Z3).
  set (sim := getResolution (SIM_RESOLUTION (config s)) (gl_ s)) in *.
  set (dyeRes := getResolution (DYE_RESOLUTION (config s)) (gl_ s)) in *.
  pose proof (createOrResize_ref _ _ _ _ _ _ _ _ _ E1) as [F1 R1].
  pose proof (createOrResize_sized _ _ _ _ _ _ _ _ _ E1 HC) as (B1 & C1 & D1 & O1 & G1).
  pose proof (createOrResize_ref _ _ _ _ _ _ _ _ _ E2) as [F2 R2].
  pose proof (createOrResize_sized _ _ _ _ _ _ _ _ _ E2 C1) as (B2 & C2 & D2 & O2 & G2).
  cbn [fst snd fields set_fields set_gl heap config gl_] in *.
  assert (ref1 <> ref2 /\ (ref1 < ref2)%nat /\ (ref2 < heap_next (heap s2))%nat)
    as (N12 & L1 & L2).
  { unfold refsOpt in HO. rewrite F1 in R2.
    destruct (dye (fields s)) as [a|], (velocity (fields s)) as [b|]; try done;
      destruct R1 as [-> R1], R2 as [-> R2]; lia. }
  assert (sameCanvasSize (gl_ s) (gl_ s')) as B.
  { eapply sameCanvasSize_trans; [|exact B3].
    eapply sameCanvasSize_trans; [|exact B2]. exact B1. }
  destruct D1 as (d1 & D1 & S1). destruct D2 as (d2 & D2 & S2).
  split.
  - exists ref1, ref2, (heap_next (heap s2)). rewrite EF, EH, F2.
    cbn [dye velocity pressure set_dye heap_next]. repeat split; try done; lia.
  - split; rewrite ?G3, ?G2, ?G1, ?(getResolution_canvas _ _ _ B); fold sim dyeRes;
      unfold deref; rewrite ?EF, ?EH, ?F2;
      cbn [dye velocity divergence curl pressure set_dye heap_cells mbind option_bind].
    + by apply (heapCoherent_insert (heap s2) _ _ (sim.1, sim.2)).
    + exists d1. rewrite lookup_insert_ne by lia. rewrite O2 by done.
      split; [exact D1|by apply doubleSized_pair].
    + exists d2. rewrite lookup_insert_ne by lia.
      split; [exact D2|by apply doubleSized_pair].
    + exists f1. split; [reflexivity|by apply sized_pair].
    + exists f2. split; [reflexivity|by apply sized_pair].
    + exists d3. rewrite lookup_insert_eq. split; [reflexivity|by apply doubleSized_pair].
Qed.

(** ** One frame *)

Lemma resizeCanvas_kept cw ch dpr s :
  let s' := (resizeCanvas cw ch dpr s).2 in
  fields s' = fields s /\ heap s' = heap s /\ programs s' = programs s /\
  config s' = config s /\ supportLinearFiltering s' = supportLinearFiltering s /\
  displayMaterial s' = displayMaterial s /\ colorTimer s' = colorTimer s /\
  timeAccumulator s' = timeAccumulator s /\ lastUpdateTime s' = lastUpdateTime s /\
  canvas_width s' = scaleByPixelRatio dpr cw /\ canvas_height s' = scaleByPixelRatio dpr ch /\
  ((resizeCanvas cw ch dpr s).1 = false -> s' = s).
Proof.
  cbv zeta. unfold resizeCanvas. cbv zeta.
  destruct (decide (canvas_width s = scaleByPixelRatio dpr cw)) as [Ew|Nw];
    [destruct (decide (canvas_height s = scaleByPixelRatio dpr ch)) as [Eh|Nh]|].
  - rewrite (bool_decide_eq_true_2 _ Ew), (bool_decide_eq_true_2 _ Eh). cbn [negb orb fst snd].
    by repeat split.
  - rewrite (bool_decide_eq_true_2 _ Ew), (bool_decide_eq_false_2 _ Nh). cbn [negb orb fst snd].
    by repeat split.
  - rewrite (bool_decide_eq_false_2 _ Nw). cbn [negb orb fst snd]. by repeat split.
Qed.

Lemma refsOrdered_opt s : refsOrdered s -> refsOpt s.
Proof.
  intros (a & b & c & Ea & Eb & _ & Hlt & Hn). unfold refsOpt. rewrite Ea, Eb. lia.
Qed.

Lemma fieldsSized_same s s' :
  fields s' = fields s -> heap s' = heap s -> config s' = config s ->
  sameCanvasSize (gl_ s) (gl_ s') -> fieldsSized s -> fieldsSized s'.
Proof.
  intros EF EH EC B [S0 S1 S2 S3 S4 S5].
  split; unfold deref in *; rewrite ?EF, ?EH, ?EC, ?(getResolution_canvas _ _ _ B); assumption.
Qed.

Lemma refsOrdered_same s s' :
  fields s' = fields s -> heap s' = heap s -> refsOrdered s -> refsOrdered s'.
Proof. intros EF EH. unfold refsOrdered. by rewrite EF, EH. Qed.

Lemma settingsOf_same host s s' :
  programs s' = programs s -> config s' = config s ->
  supportLinearFiltering s' = supportLinearFiltering s ->
  displayMaterial s' = displayMaterial s -> settingsOf host s -> settingsOf host s'.
Proof. intros E1 E2 E3 E4. unfold settingsOf. by rewrite E1, E2, E3, E4. Qed.

Lemma updateFrame_running host k s :
  Running host s ->
  exists s', updateFrame k s = Some s' /\ Running host s' /\ frameClocks k s s'.
Proof.
  intros [HR HS HO HZ].
  destruct (updateFrame_spec k s HR) as (s' & E & R'). exists s'. split; [exact E|].
  revert E. unfold updateFrame, frameWith, calcDeltaTime. cbv zeta. cbv beta iota.
  set (dt := Rmin _ _).
  set (s0 := set_lastUpdateTime (tick_now k) s).
  assert (Ready s0) as HR0.
  { destruct HR as [HL [H1 H2 H3 H4 H5] HF HT].
    split; [destruct HL; by split | by split | exact HF | exact HT]. }
  pose proof (resizeCanvas_spec (tick_clientWidth k) (tick_clientHeight k)
                (tick_devicePixelRatio k) s0 HR0) as HR1.
  pose proof (resizeCanvas_kept (tick_clientWidth k) (tick_clientHeight k)
                (tick_devicePixelRatio k) s0) as K1.
  destruct (resizeCanvas _ _ _ s0) as [resized s1]. cbv zeta in K1. cbn [fst snd] in HR1, K1.
  destruct K1 as (F1 & H1 & P1 & C1 & L1 & M1 & T1 & A1 & U1 & W1 & G1 & N1).
  assert (refsOrdered s1) as O1 by (by apply (refsOrdered_same s)).
  assert (settingsOf host s1) as S1 by (by apply (settingsOf_same host s)).
  assert (exists s2, (if resized then initFramebuffers s1 else Some s1) = Some s2 /\
            refsOrdered s2 /\ fieldsSized s2 /\ KeptSettings s1 s2) as (s2 & -> & O2 & Z2 & K2).
  { destruct resized.
    - destruct (initFramebuffers_spec s1 (Ready_Booted _ HR1)) as (s2 & E2 & _ & K2 & _).
      exists s2. split; [exact E2|].
      destruct (initFramebuffers_fields s1 s2) as [O2 Z2];
        [rewrite H1; apply HZ|by apply refsOrdered_opt|exact E2|].
      split; [exact O2|]. split; [exact Z2|exact K2].
    - exists s1. split; [reflexivity|]. split; [exact O1|]. split; [|by repeat split].
      rewrite (N1 eq_refl). by apply (fieldsSized_same s). }
  cbn [mbind option_bind].
  destruct (autoSplat dt s2) as [s3|] eqn:E3; [|discriminate]. cbn [mbind option_bind].
  destruct (step dt s3) as [s4|] eqn:E4; [|discriminate]. cbn [mbind option_bind].
  intros E5. apply autoSplat_effect in E3. apply step_effect in E4. apply render_effect in E5.
  cbv zeta in E3.
  pose proof (passEffect_trans _ _ _ _ _ (passEffect_trans _ _ _ _ _ E3 E4) E5) as P.
  destruct K2 as (K21 & K22 & K23 & K24 & K25 & K26 & K27 & K28 & K29).
  assert (refsOrdered (advanceTimers dt s2)) as OA by (by apply (refsOrdered_same s2)).
  assert (fieldsSized (advanceTimers dt s2)) as ZA by (by apply (fieldsSized_same s2)).
  assert (settingsOf host (advanceTimers dt s2)) as SA.
  { apply (settingsOf_same host s1); [exact K21|exact K22|exact K23|exact K24|exact S1]. }
  split; [split|].
  - exact R'.
  - exact (passEffect_settings _ _ _ _ P SA).
  - exact (passEffect_refs _ _ _ P OA).
  - exact (passEffect_sized _ _ _ P ZA).
  - destruct P as ((_ & _ & _ & _ & _ & Q6 & Q7 & Q8 & Q9 & Q10) & _).
    unfold frameClocks. rewrite Q6, Q7, Q8, Q9, Q10.
    unfold advanceTimers, nextColorTimer. cbv zeta. state_proj.
    rewrite K29, K28, K27, K26, K25, K22, U1, A1, T1, W1, G1, C1.
    repeat split; reflexivity.
Qed.

Lemma runFrames_running host ks s :
  Running host s -> exists s', runFrames ks s = Some s' /\ Running host s'.
Proof.
  revert s. induction ks as [|k ks IH]; intros s HR; [by exists s|].
  cbn [runFrames]. destruct (updateFrame_running host k s HR) as (s1 & -> & R1 & _).
  by apply IH.
Qed.

Lemma boot_scalars host :
  let s := updateKeywords (boot host) in
  supportLinearFiltering s = host_supportLinearFiltering host /\
  colorTimer s = host_random host /\ timeAccumulator s = 0 /\
  lastUpdateTime s = host_now host /\
  canvas_width s = host_canvasWidth host /\ canvas_height s = host_canvasHeight host.
Proof. destruct host as [[|] cw ch rnd now]; repeat split; vm_compute; reflexivity. Qed.

Lemma mount_unfold host : mount host = initFramebuffers (updateKeywords (boot host)).
Proof. reflexivity. Qed.

Lemma mount_fields host s : mount host = Some s -> refsOrdered s /\ fieldsSized s.
Proof.
  rewrite mount_unfold. destruct (boot_no_textures host) as (_ & _ & Eh & EF & _).
  apply initFramebuffers_fields.
  - intros ref d. rewrite Eh, lookup_empty. discriminate.
  - unfold refsOpt. rewrite EF. exact I.
Qed.

Lemma mount_settings host s :
  KeptSettings (updateKeywords (boot host)) s -> settingsOf host s.
Proof.
  intros (K1 & K2 & K3 & K4 & _). unfold settingsOf. rewrite K1, K2, K3, K4.
  split; [reflexivity|]. split; [apply mount_config|]. split; [|reflexivity].
  apply boot_scalars.
Qed.

Lemma mount_running host :
  exists s, mount host = Some s /\ Running host s /\
    KeptSettings (updateKeywords (boot host)) s.
Proof.
  destruct (mount_spec host) as (s & E & HR & _ & K). exists s. split; [exact E|].
  split; [|exact K]. destruct (mount_fields host s E) as [O Z].
  split; [exact HR|by apply mount_settings|exact O|exact Z].
Qed.

Lemma run_running host ks :
  exists s, mount host ≫= runFrames ks = Some s /\ Running host s.
Proof.
  destruct (mount_running host) as (s0 & -> & R0 & _). cbn [mbind option_bind].
  by apply runFrames_running.
Qed.

(** * The solver step and the splats in a run *)

Lemma Running_iterations host s :
  Running host s -> Z.to_nat (PRESSURE_ITERATIONS (config s)) = 20%nat.
Proof.
  intros [_ (_ & -> & _) _ _]. by destruct (host_supportLinearFiltering host).
Qed.

Lemma swapCount_replicate v u n :
  swapCount v (replicate n u) = if bool_decide (u = v) then n else 0%nat.
Proof.
  unfold swapCount. induction n as [|n IH]; [by case_bool_decide|]. cbn [replicate].
  case_bool_decide as E.
  - rewrite filter_cons_True by done. cbn [length]. by rewrite IH.
  - rewrite filter_cons_False by done. exact IH.
Qed.

Lemma swapCount_app v vs1 vs2 : swapCount v (vs1 ++ vs2) = (swapCount v vs1 + swapCount v vs2)%nat.
Proof. unfold swapCount. by rewrite filter_app, length_app. Qed.

Lemma swapCount_cons v u vs :
  swapCount v (u :: vs) = ((if bool_decide (u = v) then 1 else 0) + swapCount v vs)%nat.
Proof.
  unfold swapCount. case_bool_decide as E.
  - by rewrite filter_cons_True.
  - by rewrite filter_cons_False.
Qed.

Lemma swapCount_step a b c n :
  a <> b -> b <> c -> a <> c ->
  let vs := [Some b; Some c] ++ replicate n (Some c) ++ [Some b; Some b; Some a] in
  swapCount (Some a) vs = 1%nat /\ swapCount (Some b) vs = 3%nat /\
  swapCount (Some c) vs = S n.
Proof.
  intros Hab Hbc Hac. cbv zeta.
  rewrite !swapCount_app, !swapCount_replicate, !swapCount_cons.
  unfold swapCount. rewrite !filter_nil. cbn [length].
  repeat first [rewrite bool_decide_eq_true_2 by done
               |rewrite bool_decide_eq_false_2 by congruence].
  lia.
Qed.

(** Property X20.  In the state after [mount] and any number of
    frames, [step] succeeds; it creates no object and reattaches no framebuffer,
    the variables hold the objects they held, and each of [dye], [velocity] and
    [pressure] has its [read] and [write] exchanged: the solver swaps the dye
    once, the velocity three times and the pressure 21 times. *)
Theorem step_exchanges_read_and_write (host : Host) (ks : list Tick) (dt : R) :
  exists s s',
    mount host ≫= runFrames ks = Some s /\ step dt s = Some s' /\
    fields s' = fields s /\
    gl_next (gl_ s') = gl_next (gl_ s) /\
    gl_framebuffers (gl_ s') = gl_framebuffers (gl_ s) /\
    heap_next (heap s') = heap_next (heap s) /\
    exists dye_ velocity_ pressure_,
      deref (dye (fields s)) s = Some dye_ /\
      deref (velocity (fields s)) s = Some velocity_ /\
      deref (pressure (fields s)) s = Some pressure_ /\
      deref (dye (fields s)) s' = Some (DoubleFBO.swap dye_) /\
      deref (velocity (fields s)) s' = Some (DoubleFBO.swap velocity_) /\
      deref (pressure (fields s)) s' = Some (DoubleFBO.swap pressure_).
Proof.
  destruct (run_running host ks) as (s & E & HR). pose proof HR as [R _ O _].
  destruct (step_spec dt s R) as (s' & E' & _). exists s, s'.
  split; [exact E|]. split; [exact E'|].
  destruct (step_effect _ _ _ E') as (K & H & N & F & _).
  split; [apply K|]. split; [exact N|]. split; [exact F|].
  split; [by rewrite H, heap_next_swaps|].
  destruct R as [_ [(d1 & D1 & _) (d2 & D2 & _) _ _ (d3 & D3 & _)] _ _].
  exists d1, d2, d3. split; [exact D1|]. split; [exact D2|]. split; [exact D3|].
  rewrite !(deref_swaps _ _ _ _ H). unfold stepSwaps. cbv zeta.
  rewrite (Running_iterations host s HR).
  destruct O as (a & b & c & Ea & Eb & Ec & Hlt & _). rewrite Ea, Eb, Ec in *.
  destruct (swapCount_step a b c 20) as (-> & -> & ->); [lia..|].
  rewrite D1, D2, D3. by repeat split.
Qed.

(** Property X21.  In the state after [mount] and any number of
    frames, [autoSplat] succeeds; it adds [dt] to the time accumulator, advances
    the colour timer once, creates no object, and leaves every [DoubleFBO] with
    the [read] and the [write] it had, since each of its two splats swaps the
    velocity and the dye once. *)
Theorem autoSplat_keeps_read_and_write (host : Host) (ks : list Tick) (dt : R) :
  exists s s',
    mount host ≫= runFrames ks = Some s /\ autoSplat dt s = Some s' /\
    timeAccumulator s' = timeAccumulator s + dt /\
    colorTimer s' = colorTimer (generateColor s).2 /\
    fields s' = fields s /\ heap_next (heap s') = heap_next (heap s) /\
    gl_next (gl_ s') = gl_next (gl_ s) /\
    forall v, deref v s' = deref v s.
Proof.
  destruct (run_running host ks) as (s & E & [R _ _ _]).
  destruct (autoSplat_spec dt s R) as (s' & E' & _). exists s, s'.
  split; [exact E|]. split; [exact E'|].
  destruct (autoSplat_effect _ _ _ E') as (K & H & N & _). cbv zeta in *.
  destruct K as (K1 & _ & _ & _ & _ & _ & _ & K8 & K9 & _).
  split; [exact K9|]. split; [exact K8|]. split; [exact K1|].
  split; [by rewrite H, heap_next_swaps|]. split; [exact N|].
  intros v. rewrite (deref_swaps v _ _ _ H).
  change (deref v (advanceTimers dt s)) with (deref v s).
  change (fields (advanceTimers dt s)) with (fields s).
  assert (Nat.even (swapCount v [velocity (fields s); dye (fields s);
                                 velocity (fields s); dye (fields s)]) = true) as ->;
    [|reflexivity].
  rewrite !swapCount_cons. unfold swapCount. rewrite filter_nil. cbn [length].
  destruct (bool_decide (velocity (fields s) = v)), (bool_decide (dye (fields s) = v));
    reflexivity.
Qed.

(** Property X22.  In the state after [mount] and any number of frames, a
    further frame succeeds; it records the timestamp of its tick, adds the [dt]
    of [calcDeltaTime] to the time accumulator, advances the colour timer once,
    leaves the canvas at the client size scaled by the pixel ratio, and changes
    neither the configuration, nor the programs, nor the display material, nor
    the filtering flag. *)
Theorem frame_advances_clocks (host : Host) (ks : list Tick) (k : Tick) :
  exists s s',
    mount host ≫= runFrames ks = Some s /\ updateFrame k s = Some s' /\
    lastUpdateTime s' = tick_now k /\
    timeAccumulator s' = timeAccumulator s + (calcDeltaTime (tick_now k) s).1 /\
    colorTimer s' = colorTimer (generateColor s).2 /\
    canvas_width s' = scaleByPixelRatio (tick_devicePixelRatio k) (tick_clientWidth k) /\
    canvas_height s' = scaleByPixelRatio (tick_devicePixelRatio k) (tick_clientHeight k) /\
    config s' = config s /\ programs s' = programs s /\
    displayMaterial s' = displayMaterial s /\
    supportLinearFiltering s' = supportLinearFiltering s.
Proof.
  destruct (run_running host ks) as (s & E & HR).
  destruct (updateFrame_running host k s HR) as (s' & E' & HR' & C1 & C2 & C3 & C4 & C5).
  exists s, s'. split; [exact E|]. split; [exact E'|].
  split; [exact C1|]. split; [exact C2|]. split; [exact C3|]. split; [exact C4|].
  split; [exact C5|].
  destruct HR as [_ (S1 & S2 & S3 & S4) _ _]. destruct HR' as [_ (S1' & S2' & S3' & S4') _ _].
  rewrite S1, S2, S3, S4, S1', S2', S3', S4'. by repeat split.
Qed.



(** * Clocks along a run *)





(** * The sizes of the fields *)

(** Property X25.  After [mount] and any number of
    frames, whatever the sizes the canvas went through, all five fields exist
    and have the size [getResolution] gives for the drawing buffer as it is now:
    the dye that of [DYE_RESOLUTION], the velocity, divergence, curl and pressure
    that of [SIM_RESOLUTION]; both FBOs of a [DoubleFBO] have the size it
    records. *)
Theorem fields_have_the_resolution_of_the_canvas (host : Host) (ks : list Tick) :
  exists s dye_ velocity_ divergence_ curl_ pressure_,
    mount host ≫= runFrames ks = Some s /\
    deref (dye (fields s)) s = Some dye_ /\
    deref (velocity (fields s)) s = Some velocity_ /\
    divergence (fields s) = Some divergence_ /\ curl (fields s) = Some curl_ /\
    deref (pressure (fields s)) s = Some pressure_ /\
    doubleSized (getResolution (DYE_RESOLUTION (config s)) (gl_ s)) dye_ /\
    doubleSized (getResolution (SIM_RESOLUTION (config s)) (gl_ s)) velocity_ /\
    sized (getResolution (SIM_RESOLUTION (config s)) (gl_ s)) divergence_ /\
    sized (getResolution (SIM_RESOLUTION (config s)) (gl_ s)) curl_ /\
    doubleSized (getResolution (SIM_RESOLUTION (config s)) (gl_ s)) pressure_.
Proof.
  destruct (run_running host ks) as (s & E & [_ _ _ [_ Z1 Z2 Z3 Z4 Z5]]).
  destruct Z1 as (d1 & D1 & S1). destruct Z2 as (d2 & D2 & S2).
  destruct Z3 as (f3 & D3 & S3). destruct Z4 as (f4 & D4 & S4).
  destruct Z5 as (d5 & D5 & S5).
  exists s, d1, d2, f3, f4, d5. split; [exact E|].
  split; [exact D1|]. split; [exact D2|]. split; [exact D3|]. split; [exact D4|].
  split; [exact D5|]. split; [exact S1|]. split; [exact S2|]. split; [exact S3|].
  split; [exact S4|exact S5].
Qed.
